(** * Workflow Tracker (Fee Uplift): the workflow engine of [streamlit_app.py]

    A shallow embedding of the status model, the transition table, the
    routing table and the operations [assign_next_team],
    [create_task_for_case], [log_action] and [apply_transition], together
    with [bootstrap_db], the "Create Case" handler of [page_cases], the
    "Add team" and "Add provider" forms of [page_admin], the figures of
    [page_dashboard], the query of [page_queue] and the buttons of
    [page_case_detail].

    Python objects that the code mutates in place (the [Case] under
    operation, the SQLAlchemy [Session]) live in an explicit state that is
    threaded through a small state-and-exception monad; a raised exception
    keeps the state reached so far, as an in-memory mutation does. *)

From Stdlib Require Import ZArith List String Bool Lia.
From Stdlib Require Import Sorting.Sorted Sorting.Permutation.
Import ListNotations.

Local Open Scope string_scope.
Local Open Scope list_scope.
Local Open Scope Z_scope.

(** ** Python runtime: exceptions, [datetime], [timedelta] *)

Inductive exn : Type :=
| OverflowError
| IntegrityError
| DataError.

(** A [datetime] is the number of microseconds since 0001-01-01T00:00:00
    (naive, as [datetime.utcnow()] returns it).  The representable range
    ends at 9999-12-31T23:59:59.999999, day ordinal 3652059. *)
Definition datetime : Type := Z.
Definition timedelta : Type := Z.

Definition MICROSECONDS_PER_DAY : Z := 86400000000.
Definition MAX_DELTA_DAYS : Z := 999999999.
Definition MAX_ORDINAL : Z := 3652059.
Definition DATETIME_END : Z := MAX_ORDINAL * MICROSECONDS_PER_DAY.

Definition datetime_in_range (t : Z) : bool :=
  (0 <=? t) && (t <? DATETIME_END).

(** ** State-and-exception monad *)

Inductive Res (S A : Type) : Type :=
| Ok (a : A) (s : S)
| Raise (e : exn) (s : S).
Arguments Ok {S A} a s.
Arguments Raise {S A} e s.

Definition M (S A : Type) : Type := S -> Res S A.

Definition ret {S A} (a : A) : M S A := fun s => Ok a s.

Definition bind {S A B} (m : M S A) (k : A -> M S B) : M S B :=
  fun s => match m s with
           | Ok a s' => k a s'
           | Raise e s' => Raise e s'
           end.

Definition raise {S A} (e : exn) : M S A := fun s => Raise e s.
Definition get {S} : M S S := fun s => Ok s s.
Definition modify {S} (f : S -> S) : M S unit := fun s => Ok tt (f s).

Declare Scope py_scope.
Delimit Scope py_scope with py.
Notation "x <- m ;; k" := (bind m (fun x => k))
  (at level 61, m at next level, right associativity) : py_scope.
Notation "m ;; k" := (bind m (fun _ => k))
  (at level 61, right associativity) : py_scope.
Local Open Scope py_scope.

(** [timedelta(days=d)]: more than 999999999 days in magnitude raises. *)
Definition timedelta_days {S} (d : Z) : M S timedelta :=
  if Z.abs d <=? MAX_DELTA_DAYS
  then ret (d * MICROSECONDS_PER_DAY)
  else raise OverflowError.

(** [t + delta] on a [datetime]: a result outside year 1..9999 raises. *)
Definition datetime_add {S} (t : datetime) (delta : timedelta) : M S datetime :=
  if datetime_in_range (t + delta)
  then ret (t + delta)
  else raise OverflowError.

(** ** Enums and core constants *)

Inductive SignatureType : Type :=
| DOCUSIGN
| WET
| POSITIVE_CONSENT.

Inductive CaseStatus : Type :=
| DRAFT
| READY_TO_SEND
| SENT_TO_CLIENT
| CLIENT_SIGNED
| CLIENT_OPTED_OUT
| RECEIVED_PAPERWORK
| SUBMITTED_TO_PROVIDER
| PROVIDER_UPLIFTED
| IO_CLOSED_NEW_FEE
| COMPLETED.

Inductive TaskStatus : Type :=
| OPEN
| DONE
| CANCELLED.

Definition CaseStatus_eq_dec (a b : CaseStatus) : {a = b} + {a <> b}.
Proof. decide equality. Defined.

Definition CaseStatus_eqb (a b : CaseStatus) : bool :=
  if CaseStatus_eq_dec a b then true else false.

(** The member values ([CaseStatus] mixes in [str]). *)
Definition CaseStatus_value (s : CaseStatus) : string :=
  match s with
  | DRAFT => "DRAFT"
  | READY_TO_SEND => "READY_TO_SEND"
  | SENT_TO_CLIENT => "SENT_TO_CLIENT"
  | CLIENT_SIGNED => "CLIENT_SIGNED"
  | CLIENT_OPTED_OUT => "CLIENT_OPTED_OUT"
  | RECEIVED_PAPERWORK => "RECEIVED_PAPERWORK"
  | SUBMITTED_TO_PROVIDER => "SUBMITTED_TO_PROVIDER"
  | PROVIDER_UPLIFTED => "PROVIDER_UPLIFTED"
  | IO_CLOSED_NEW_FEE => "IO_CLOSED_NEW_FEE"
  | COMPLETED => "COMPLETED"
  end.

Definition all_statuses : list CaseStatus :=
  [DRAFT; READY_TO_SEND; SENT_TO_CLIENT; CLIENT_SIGNED; CLIENT_OPTED_OUT;
   RECEIVED_PAPERWORK; SUBMITTED_TO_PROVIDER; PROVIDER_UPLIFTED;
   IO_CLOSED_NEW_FEE; COMPLETED].

Definition DEFAULT_TEAMS : list string :=
  ["Data"; "Admin Solution"; "Ops Support"; "Tech Excellence Center";
   "Submission & Novation"; "Support Hub"; "Post"; "IS"].

(** ** ORM models

    A primary key is [None] until the row is inserted.  Relationships to
    reference data hold the referenced object; the collections
    [Case.tasks] and [Case.logs] hold the children in insertion order, and
    [task_case_id] and [log_case_id] stand for the child's relationship to
    its case: the key of the case the child was constructed with.
    The [documents] and [requirements] tables are not touched by any
    operation modelled here and are left out. *)

Record Team : Type := mkTeam {
  team_id : option Z;
  team_name : string
}.

Record User : Type := mkUser {
  user_id : option Z;
  user_name : string;
  user_email : option string;
  user_team_id : option Z;
  user_role : string
}.

Record Provider : Type := mkProvider {
  provider_id : option Z;
  provider_name : string
}.

Record Client : Type := mkClient {
  client_id : option Z;
  client_name : string;
  client_io_reference : option string;
  client_provider : option Provider;
  client_opted_out : option bool
}.

Record Task : Type := mkTask {
  task_id : option Z;
  task_case_id : option Z;
  task_team : option Team;
  task_title : string;
  task_status : option TaskStatus;
  task_due_at : option datetime
}.

Record AuditLog : Type := mkAuditLog {
  log_id : option Z;
  log_case_id : option Z;
  log_user_id : option Z;
  log_action_name : string;
  log_notes : string;
  log_meta : list (string * string);
  log_created_at : option datetime
}.

Record Case : Type := mkCase {
  id : option Z;
  title : string;
  client : Client;
  provider : Provider;
  signature_type : SignatureType;
  status : CaseStatus;
  assigned_team : option Team;
  sla_days : Z;
  created_at : option datetime;
  updated_at : option datetime;
  due_at : option datetime;
  tasks : list Task;
  logs : list AuditLog
}.

(** Attribute assignment on a [Case]. *)
Definition set_status (v : CaseStatus) (c : Case) : Case :=
  mkCase (id c) (title c) (client c) (provider c) (signature_type c) v
         (assigned_team c) (sla_days c) (created_at c) (updated_at c)
         (due_at c) (tasks c) (logs c).

Definition set_assigned_team (v : option Team) (c : Case) : Case :=
  mkCase (id c) (title c) (client c) (provider c) (signature_type c)
         (status c) v (sla_days c) (created_at c) (updated_at c)
         (due_at c) (tasks c) (logs c).

Definition set_due_at (v : option datetime) (c : Case) : Case :=
  mkCase (id c) (title c) (client c) (provider c) (signature_type c)
         (status c) (assigned_team c) (sla_days c) (created_at c)
         (updated_at c) v (tasks c) (logs c).

Definition append_task (t : Task) (c : Case) : Case :=
  mkCase (id c) (title c) (client c) (provider c) (signature_type c)
         (status c) (assigned_team c) (sla_days c) (created_at c)
         (updated_at c) (due_at c) (tasks c ++ [t]) (logs c).

Definition append_log (l : AuditLog) (c : Case) : Case :=
  mkCase (id c) (title c) (client c) (provider c) (signature_type c)
         (status c) (assigned_team c) (sla_days c) (created_at c)
         (updated_at c) (due_at c) (tasks c) (logs c ++ [l]).

(** ** The session: committed rows and pending objects *)

Inductive Entity : Type :=
| ETeam (t : Team)
| EProvider (p : Provider)
| EClient (c : Client)
| ECase (c : Case)
| ETask (t : Task)
| EAuditLog (l : AuditLog).

Record Session : Type := mkSession {
  teams : list Team;
  providers : list Provider;
  clients : list Client;
  cases : list Case;
  task_rows : list Task;
  audit_logs : list AuditLog;
  new : list Entity
}.

(** What a deployment fixes: the interpreter, on whose version the text
    that an f-string gives for an enum member depends, and the database
    behind [DB_URL], PostgreSQL as the module's docstring recommends or
    the SQLite file it falls back to. *)
Inductive Dialect : Type :=
| sqlite
| postgresql.

Record Runtime : Type := mkRuntime {
  python_3_11 : bool;
  dialect : Dialect
}.

(** The environment of a request: the session, the wall clock and the
    deployment.  [clock n] is what the [n]-th call of [datetime.utcnow()]
    returns; [python_3_11] says that the interpreter is Python 3.11 or
    later. *)
Record Env : Type := mkEnv {
  session : Session;
  clock : nat -> datetime;
  ticks : nat;
  runtime : Runtime
}.

(** An engine call works on the session and on one [Case] object. *)
Record World : Type := mkWorld {
  env : Env;
  case : Case
}.

Definition set_session (v : Session) (e : Env) : Env :=
  mkEnv v (clock e) (ticks e) (runtime e).

Definition set_new (v : list Entity) (s : Session) : Session :=
  mkSession (teams s) (providers s) (clients s) (cases s) (task_rows s)
            (audit_logs s) v.

(** Run a session-level action inside an engine call. *)
Definition lift_env {A} (m : M Env A) : M World A :=
  fun w => match m (env w) with
           | Ok a e => Ok a (mkWorld e (case w))
           | Raise x e => Raise x (mkWorld e (case w))
           end.

(** [datetime.utcnow()]: read the clock, which then moves on. *)
Definition utcnow : M Env datetime :=
  fun e => Ok (clock e (ticks e))
              (mkEnv (session e) (clock e) (S (ticks e)) (runtime e)).

(** [session.add(obj)] *)
Definition session_add (obj : Entity) : M Env unit :=
  modify (fun e => set_session (set_new (new (session e) ++ [obj]) (session e)) e).

(** [session.query(Team).filter(Team.name == name).first()] *)
Definition query_team_by_name (name : string) : M Env (option Team) :=
  e <- get ;;
  ret (find (fun t => String.eqb (team_name t) name) (teams (session e))).

Definition get_case : M World Case := fun w => Ok (case w) w.

Definition get_runtime : M World Runtime := fun w => Ok (runtime (env w)) w.

Definition modify_case (f : Case -> Case) : M World unit :=
  modify (fun w => mkWorld (env w) (f (case w))).

(** ** Simple workflow engine *)

(** A [dict] literal with pairwise distinct keys, in source order. *)
Fixpoint dict_get {K V} (eqb : K -> K -> bool) (k : K) (d : list (K * V))
  : option V :=
  match d with
  | [] => None
  | (k', v) :: d' => if eqb k k' then Some v else dict_get eqb k d'
  end.

(** Map each status to the team that typically acts next. *)
Definition NEXT_TEAM_HINT : list (CaseStatus * option string) :=
  [ (DRAFT, Some "Data");
    (READY_TO_SEND, Some "Admin Solution");
    (SENT_TO_CLIENT, Some "Ops Support");
    (CLIENT_SIGNED, Some "Submission & Novation");
    (CLIENT_OPTED_OUT, Some "Support Hub");
    (RECEIVED_PAPERWORK, Some "Submission & Novation");
    (SUBMITTED_TO_PROVIDER, Some "Tech Excellence Center");
    (PROVIDER_UPLIFTED, Some "IS");
    (IO_CLOSED_NEW_FEE, Some "Admin Solution");
    (COMPLETED, None) ].

(** [NEXT_TEAM_HINT.get(status)]: the value, or [None] for a missing key. *)
Definition NEXT_TEAM_HINT_get (s : CaseStatus) : option string :=
  match dict_get CaseStatus_eqb s NEXT_TEAM_HINT with
  | Some v => v
  | None => None
  end.

Definition key_eqb (a b : CaseStatus * string) : bool :=
  CaseStatus_eqb (fst a) (fst b) && String.eqb (snd a) (snd b).

(** Allowed transitions and the UI label that triggers them:
    [(from_status, action_label) : (to_status, audit_action)]. *)
Definition TRANSITIONS : list ((CaseStatus * string) * (CaseStatus * string)) :=
  [ ((DRAFT, "Mark Ready to Send"), (READY_TO_SEND, "ready_to_send"));
    ((READY_TO_SEND, "Send to Client"), (SENT_TO_CLIENT, "sent_to_client"));
    ((SENT_TO_CLIENT, "Mark Client Signed"), (CLIENT_SIGNED, "client_signed"));
    ((SENT_TO_CLIENT, "Mark Client Opted Out"), (CLIENT_OPTED_OUT, "client_opted_out"));
    ((CLIENT_SIGNED, "Mark Docs Received"), (RECEIVED_PAPERWORK, "received_paperwork"));
    ((RECEIVED_PAPERWORK, "Submit to Provider"), (SUBMITTED_TO_PROVIDER, "submitted_to_provider"));
    ((SUBMITTED_TO_PROVIDER, "Provider Uplifted"), (PROVIDER_UPLIFTED, "provider_uplifted"));
    ((PROVIDER_UPLIFTED, "Close Fee in IO & Create New"), (IO_CLOSED_NEW_FEE, "io_closed_new_fee"));
    ((IO_CLOSED_NEW_FEE, "Complete Case"), (COMPLETED, "completed")) ].

(** [key in TRANSITIONS] *)
Definition in_TRANSITIONS (key : CaseStatus * string) : bool :=
  match dict_get key_eqb key TRANSITIONS with
  | Some _ => true
  | None => false
  end.

(** Utility to assign the next team automatically based on status.
    [not hint] holds for [None] and for the empty string. *)
Definition assign_next_team : M World unit :=
  c <- get_case ;;
  match NEXT_TEAM_HINT_get (status c) with
  | Some hint =>
      if String.eqb hint ""
      then modify_case (set_assigned_team None)
      else
        team <- lift_env (query_team_by_name hint) ;;
        modify_case (set_assigned_team team)
  | None => modify_case (set_assigned_team None)
  end.

(** Create a task for the owning team.  Constructing [Task(case=case, ...)]
    appends the task to [case.tasks] through the relationship. *)
Definition create_task_for_case (title : string) (due_days : Z) : M World unit :=
  c <- get_case ;;
  match assigned_team c with
  | None => ret tt
  | Some team =>
      now <- lift_env utcnow ;;
      delta <- timedelta_days due_days ;;
      due <- datetime_add now delta ;;
      let task := mkTask None (id c) (Some team) title (Some OPEN) (Some due) in
      modify_case (append_task task) ;;
      lift_env (session_add (ETask task))
  end.

(** Record an audit log.  [meta or {}] is the empty mapping when [meta]
    is [None]. *)
Definition log_action (user : option User) (action : string) (notes : string)
           (meta : option (list (string * string))) : M World unit :=
  c <- get_case ;;
  let user_id := match user with Some u => user_id u | None => None end in
  let meta := match meta with Some m => m | None => [] end in
  let entry := mkAuditLog None (id c) user_id action notes meta None in
  modify_case (append_log entry) ;;
  lift_env (session_add (EAuditLog entry)).

(** [format()] of a status, as an f-string applies it.  [CaseStatus]
    mixes in [str] and is no [StrEnum]: up to Python 3.10 the result is
    the member's value, from Python 3.11 on it is [str()] of the member,
    the name of the class and of the member.  Every member of
    [CaseStatus] is named as its value. *)
Definition CaseStatus_format (r : Runtime) (s : CaseStatus) : string :=
  if python_3_11 r
  then ("CaseStatus." ++ CaseStatus_value s)%string
  else CaseStatus_value s.

(** The title given to the follow-up task, [f"{new_status} — next step"]. *)
Definition task_title_for (r : Runtime) (new_status : CaseStatus) : string :=
  (CaseStatus_format r new_status ++ " — next step")%string.

(** Apply a transition. *)
Definition apply_transition (user : option User) (action_label : string)
           (notes : string) : M World bool :=
  c <- get_case ;;
  let key := (status c, action_label) in
  match dict_get key_eqb key TRANSITIONS with
  | None => ret false
  | Some (new_status, audit_action) =>
      modify_case (set_status new_status) ;;
      (* SLA: set/update due date *)
      now <- lift_env utcnow ;;
      c <- get_case ;;
      delta <- timedelta_days (sla_days c) ;;
      due <- datetime_add now delta ;;
      modify_case (set_due_at (Some due)) ;;
      assign_next_team ;;
      r <- get_runtime ;;
      create_task_for_case (task_title_for r new_status) 5 ;;
      log_action user audit_action notes None ;;
      ret true
  end.

(** Valid transitions for a status, as the case detail page lists them:
    [[label for (st_from, label), _ in TRANSITIONS.items() if st_from == status]]. *)
Definition available (s : CaseStatus) : list string :=
  map (fun kv => snd (fst kv))
      (filter (fun kv => CaseStatus_eqb (fst (fst kv)) s) TRANSITIONS).

(** ** Committing the session

    [session.commit()] writes the row of a persistent object that was
    modified and inserts the pending objects in the order they were
    added, giving each the next primary key of its table and the column
    defaults it has not been given.  A statement that the database
    refuses raises: the transaction is rolled back and the pending
    objects are expunged from the session. *)

(** The key an INSERT gives a row that has none: one more than the
    largest key of the table.  This is what SQLite gives an INTEGER
    PRIMARY KEY, and what the sequence of a PostgreSQL table gives as
    long as no INSERT into that table has been rolled back. *)
Definition next_id {A} (pk : A -> option Z) (rows : list A) : Z :=
  1 + fold_right (fun r m => match pk r with
                             | Some i => Z.max i m
                             | None => m
                             end) 0 rows.

Definition or_default {A} (v : option A) (d : A) : option A :=
  match v with
  | Some _ => v
  | None => Some d
  end.

Definition set_teams (v : list Team) (s : Session) : Session :=
  mkSession v (providers s) (clients s) (cases s) (task_rows s)
            (audit_logs s) (new s).

Definition set_providers (v : list Provider) (s : Session) : Session :=
  mkSession (teams s) v (clients s) (cases s) (task_rows s)
            (audit_logs s) (new s).

Definition set_clients (v : list Client) (s : Session) : Session :=
  mkSession (teams s) (providers s) v (cases s) (task_rows s)
            (audit_logs s) (new s).

Definition set_cases (v : list Case) (s : Session) : Session :=
  mkSession (teams s) (providers s) (clients s) v (task_rows s)
            (audit_logs s) (new s).

Definition set_task_rows (v : list Task) (s : Session) : Session :=
  mkSession (teams s) (providers s) (clients s) (cases s) v
            (audit_logs s) (new s).

Definition set_audit_logs (v : list AuditLog) (s : Session) : Session :=
  mkSession (teams s) (providers s) (clients s) (cases s) (task_rows s)
            v (new s).

Definition modify_session (f : Session -> Session) : M Env unit :=
  modify (fun e => set_session (f (session e)) e).

(** The values an Integer column takes: 64 bits in SQLite, whose driver
    refuses a larger Python integer with an [OverflowError], and 32 bits
    in PostgreSQL, which answers "integer out of range", a [DataError].
    Primary keys are generated by the database and foreign keys copy the
    keys of persisted rows; [cases.sla_days] is the one Integer column
    whose value comes from a form. *)
Definition INTEGER_in_range (d : Dialect) (v : Z) : bool :=
  match d with
  | sqlite => (- 2 ^ 63 <=? v) && (v <? 2 ^ 63)
  | postgresql => (- 2 ^ 31 <=? v) && (v <? 2 ^ 31)
  end.

Definition INTEGER_out_of_range (d : Dialect) : exn :=
  match d with
  | sqlite => OverflowError
  | postgresql => DataError
  end.

(** INSERT of one pending object; the result is the object as persisted.
    The column defaults are computed before the statement is sent. *)
Definition insert (obj : Entity) : M Env Entity :=
  e <- get ;;
  let s := session e in
  match obj with
  | ETeam t =>
      if existsb (fun r => String.eqb (team_name r) (team_name t)) (teams s)
      then raise IntegrityError
      else
        let t' := mkTeam (or_default (team_id t) (next_id team_id (teams s)))
                         (team_name t) in
        modify_session (set_teams (teams s ++ [t'])) ;;
        ret (ETeam t')
  | EProvider p =>
      if existsb (fun r => String.eqb (provider_name r) (provider_name p))
                 (providers s)
      then raise IntegrityError
      else
        let p' := mkProvider
                    (or_default (provider_id p) (next_id provider_id (providers s)))
                    (provider_name p) in
        modify_session (set_providers (providers s ++ [p'])) ;;
        ret (EProvider p')
  | EClient c =>
      let c' := mkClient
                  (or_default (client_id c) (next_id client_id (clients s)))
                  (client_name c) (client_io_reference c) (client_provider c)
                  (or_default (client_opted_out c) false) in
      modify_session (set_clients (clients s ++ [c'])) ;;
      ret (EClient c')
  | ECase c =>
      created <- match created_at c with
                 | Some t => ret (Some t)
                 | None => t <- utcnow ;; ret (Some t)
                 end ;;
      updated <- match updated_at c with
                 | Some t => ret (Some t)
                 | None => t <- utcnow ;; ret (Some t)
                 end ;;
      if INTEGER_in_range (dialect (runtime e)) (sla_days c)
      then
        let c' := mkCase (or_default (id c) (next_id id (cases s)))
                         (title c) (client c) (provider c) (signature_type c)
                         (status c) (assigned_team c) (sla_days c)
                         created updated (due_at c) (tasks c) (logs c) in
        modify_session (set_cases (cases s ++ [c'])) ;;
        ret (ECase c')
      else raise (INTEGER_out_of_range (dialect (runtime e)))
  | ETask t =>
      let t' := mkTask (or_default (task_id t) (next_id task_id (task_rows s)))
                       (task_case_id t) (task_team t) (task_title t)
                       (or_default (task_status t) OPEN) (task_due_at t) in
      modify_session (set_task_rows (task_rows s ++ [t'])) ;;
      ret (ETask t')
  | EAuditLog l =>
      created <- match log_created_at l with
                 | Some t => ret (Some t)
                 | None => t <- utcnow ;; ret (Some t)
                 end ;;
      let l' := mkAuditLog
                  (or_default (log_id l) (next_id log_id (audit_logs s)))
                  (log_case_id l) (log_user_id l) (log_action_name l)
                  (log_notes l) (log_meta l) created in
      modify_session (set_audit_logs (audit_logs s ++ [l'])) ;;
      ret (EAuditLog l')
  end.

Fixpoint flush (objs : list Entity) : M Env (list Entity) :=
  match objs with
  | [] => ret []
  | obj :: rest =>
      obj' <- insert obj ;;
      rest' <- flush rest ;;
      ret (obj' :: rest')
  end.

(** What a failed flush leaves: the tables as they were in [e], where
    the commit began, and a session with nothing pending; the clock
    readings made on the way are not undone. *)
Definition rolled_back (e e' : Env) : Env :=
  mkEnv (set_new [] (session e)) (clock e') (ticks e') (runtime e').

(** [session.commit()] with no persistent object modified; returns the
    objects it has persisted. *)
Definition commit : M Env (list Entity) :=
  fun e =>
    match flush (new (session e)) e with
    | Ok flushed e' => Ok flushed (set_session (set_new [] (session e')) e')
    | Raise x e' => Raise x (rolled_back e e')
    end.

(** Equality of keys, as a filter on a key column compares them: a row
    without a key matches nothing. *)
Definition same_id (a b : option Z) : bool :=
  match a, b with
  | Some x, Some y => x =? y
  | _, _ => false
  end.

(** [session.query(Case).get(case_id)]: the row, with its relationship
    collections loaded from the child tables. *)
Definition query_case_get (case_id : Z) : M Env (option Case) :=
  e <- get ;;
  let s := session e in
  match find (fun c => same_id (id c) (Some case_id)) (cases s) with
  | None => ret None
  | Some c =>
      ret (Some (mkCase (id c) (title c) (client c) (provider c)
                        (signature_type c) (status c) (assigned_team c)
                        (sla_days c) (created_at c) (updated_at c) (due_at c)
                        (filter (fun t => same_id (task_case_id t) (id c))
                                (task_rows s))
                        (filter (fun l => same_id (log_case_id l) (id c))
                                (audit_logs s))))
  end.

Definition set_updated_at (v : option datetime) (c : Case) : Case :=
  mkCase (id c) (title c) (client c) (provider c) (signature_type c)
         (status c) (assigned_team c) (sla_days c) (created_at c) v
         (due_at c) (tasks c) (logs c).

(** The [before_update] listener of [Case]: a modified case is stamped
    just before its row is written. *)
Definition _timestamp_before_update : M World unit :=
  now <- lift_env utcnow ;;
  modify_case (set_updated_at (Some now)).

Definition SignatureType_eq_dec (a b : SignatureType) : {a = b} + {a <> b}.
Proof. decide equality. Defined.

Definition option_eq_dec {A} (eq_dec : forall a b : A, {a = b} + {a <> b})
           (a b : option A) : {a = b} + {a <> b}.
Proof. decide equality. Defined.

Definition Team_eq_dec (a b : Team) : {a = b} + {a <> b}.
Proof.
  decide equality; [apply string_dec | apply (option_eq_dec Z.eq_dec)].
Defined.

Definition Provider_eq_dec (a b : Provider) : {a = b} + {a <> b}.
Proof.
  decide equality; [apply string_dec | apply (option_eq_dec Z.eq_dec)].
Defined.

Definition Client_eq_dec (a b : Client) : {a = b} + {a <> b}.
Proof.
  decide equality;
    [ apply (option_eq_dec bool_dec)
    | apply (option_eq_dec Provider_eq_dec)
    | apply (option_eq_dec string_dec)
    | apply string_dec
    | apply (option_eq_dec Z.eq_dec) ].
Defined.

(** An attribute in the UPDATE of a modified object: its column is
    written when the attribute holds another value than the one the
    object was loaded with, and is left as the row has it otherwise. *)
Definition written {A} (eq_dec : forall a b : A, {a = b} + {a <> b})
           (loaded current stored : A) : A :=
  if eq_dec current loaded then stored else current.

(** The UPDATE of a case that was loaded as [loaded] and is now [c]: the
    columns whose attribute has changed, in the row with its key. *)
Definition write_columns (loaded c : Case) (row : Case) : Case :=
  if same_id (id row) (id c)
  then mkCase (id row)
              (written string_dec (title loaded) (title c) (title row))
              (written Client_eq_dec (client loaded) (client c) (client row))
              (written Provider_eq_dec (provider loaded) (provider c)
                       (provider row))
              (written SignatureType_eq_dec (signature_type loaded)
                       (signature_type c) (signature_type row))
              (written CaseStatus_eq_dec (status loaded) (status c)
                       (status row))
              (written (option_eq_dec Team_eq_dec) (assigned_team loaded)
                       (assigned_team c) (assigned_team row))
              (written Z.eq_dec (sla_days loaded) (sla_days c) (sla_days row))
              (written (option_eq_dec Z.eq_dec) (created_at loaded)
                       (created_at c) (created_at row))
              (written (option_eq_dec Z.eq_dec) (updated_at loaded)
                       (updated_at c) (updated_at row))
              (written (option_eq_dec Z.eq_dec) (due_at loaded) (due_at c)
                       (due_at row))
              (tasks row) (logs row)
  else row.

(** The flush and COMMIT of a session whose case, loaded as [loaded], was
    modified into [c]: the UPDATE of its row, then the INSERTs of the
    pending objects. *)
Definition commit_update (loaded c : Case) : M Env (list Entity) :=
  fun e =>
    match (modify_session
             (fun s => set_cases (map (write_columns loaded c) (cases s)) s) ;;
           flush (new (session e))) e with
    | Ok flushed e' => Ok flushed (set_session (set_new [] (session e')) e')
    | Raise x e' => Raise x (rolled_back e e')
    end.

(** [session.commit()] with the case under operation, loaded as
    [loaded], modified since, be it in a column or in a collection: the
    listener runs, the row of the case is written, the pending objects
    are inserted; the session then expires its objects, so that the case
    is read again from its row at its next use. *)
Definition commit_modified_case (loaded : Case) : M World unit :=
  _timestamp_before_update ;;
  c <- get_case ;;
  lift_env (commit_update loaded c) ;;
  match id c with
  | Some key =>
      reloaded <- lift_env (query_case_get key) ;;
      match reloaded with
      | Some c' => modify_case (fun _ => c')
      | None => ret tt
      end
  | None => ret tt
  end.

(** Seed default teams if empty. *)
Definition bootstrap_db : M Env unit :=
  e <- get ;;
  if (List.length (teams (session e)) =? 0)%nat
  then
    (fix seed (names : list string) : M Env unit :=
       match names with
       | [] => ret tt
       | t :: rest => session_add (ETeam (mkTeam None t)) ;; seed rest
       end) DEFAULT_TEAMS ;;
    commit ;;
    ret tt
  else ret tt.

(** ** Pages *)

(** [s.query(Provider).filter(Provider.name == name).first()] *)
Definition query_provider_by_name (name : string) : M Env (option Provider) :=
  e <- get ;;
  ret (find (fun p => String.eqb (provider_name p) name) (providers (session e))).

(** [s.query(Client).filter(Client.name == name).first()] *)
Definition query_client_by_name (name : string) : M Env (option Client) :=
  e <- get ;;
  ret (find (fun c => String.eqb (client_name c) name) (clients (session e))).

(** Run an engine function on a given [Case] object; the result carries
    the object as the function left it. *)
Definition with_case {A} (c : Case) (m : M World A) : M Env (A * Case) :=
  fun e => match m (mkWorld e c) with
           | Ok a w => Ok (a, case w) (env w)
           | Raise x w => Raise x (env w)
           end.

(** [s.add(obj); s.commit()], giving the object as it is afterwards. *)
Definition add_and_commit (obj : Entity) : M Env Entity :=
  session_add obj ;;
  flushed <- commit ;;
  ret (last flushed obj).

(** [SessionLocal()]: a new session on the same database, with nothing
    pending. *)
Definition SessionLocal : M Env unit := modify_session (set_new []).

(** "ensure provider": the provider of that name, created if absent. *)
Definition ensure_provider (provider_name : string) : M Env Provider :=
  found <- query_provider_by_name provider_name ;;
  match found with
  | Some p => ret p
  | None =>
      let p := mkProvider None provider_name in
      obj <- add_and_commit (EProvider p) ;;
      ret (match obj with EProvider p' => p' | _ => p end)
  end.

(** "ensure client": the client of that name, created if absent. *)
Definition ensure_client (client_name : string) (provider : Provider)
  : M Env Client :=
  found <- query_client_by_name client_name ;;
  match found with
  | Some c => ret c
  | None =>
      let c := mkClient None client_name None (Some provider) None in
      obj <- add_and_commit (EClient c) ;;
      ret (match obj with EClient c' => c' | _ => c end)
  end.

(** The "Create Case" button of [page_cases], which works in a session of
    its own.  [user] is what [current_user(s)] returns; the result is
    [case.id].  [log_action] appends to [case.logs], so the last commit
    finds the case modified: the listener stamps it and its row is
    written before the audit entry is inserted. *)
Definition page_cases_create_case (title client_name provider_name : string)
           (signature_type : SignatureType) (sla_days : Z)
           (user : option User) : M Env (option Z) :=
  SessionLocal ;;
  provider <- ensure_provider provider_name ;;
  client <- ensure_client client_name provider ;;
  let c := mkCase None title client provider signature_type DRAFT None
                  sla_days None None None [] [] in
  r <- with_case c assign_next_team ;;
  let c := snd r in
  obj <- add_and_commit (ECase c) ;;
  let persisted := match obj with ECase c' => c' | _ => c end in
  r <- with_case persisted (log_action user "created" "Case created" None) ;;
  let c := snd r in
  r <- with_case c (commit_modified_case persisted) ;;
  let c := snd r in
  ret (id c).

(** The "Add provider" form of [page_admin]: an empty name is skipped. *)
Definition page_admin_add_provider (pname : string) : M Env unit :=
  if negb (String.eqb pname "")
  then session_add (EProvider (mkProvider None pname)) ;; commit ;; ret tt
  else ret tt.

(** The "Add team" form of [page_admin]: an empty name is skipped. *)
Definition page_admin_add_team (tname : string) : M Env unit :=
  if negb (String.eqb tname "")
  then session_add (ETeam (mkTeam None tname)) ;; commit ;; ret tt
  else ret tt.

(** ** Concrete environments *)

Definition empty_session : Session := mkSession [] [] [] [] [] [] [].

(** A clock that starts at [t0] and advances one microsecond a reading. *)
Definition clock_from (t0 : datetime) : nat -> datetime :=
  fun n => Z.of_nat n + t0.

(** 2024-01-01T00:00:00: day ordinal 738886. *)
Definition T_2024 : datetime := 738885 * MICROSECONDS_PER_DAY.

(** Nothing configured: the SQLite file, under a current interpreter. *)
Definition local_runtime : Runtime := mkRuntime true sqlite.

(** The recommended database, under the same interpreter. *)
Definition postgresql_runtime : Runtime := mkRuntime true postgresql.

Definition env0 : Env := mkEnv empty_session (clock_from T_2024) 0 local_runtime.

Definition result_env {A} (r : Res Env A) : Env :=
  match r with
  | Ok _ e => e
  | Raise _ e => e
  end.

(** The tables after [bootstrap_db] on an empty database: the eight
    default teams, with keys 1 to 8. *)
Definition seeded_session : Session :=
  Eval vm_compute in session (result_env (bootstrap_db env0)).

Definition seeded_env : Env :=
  mkEnv seeded_session (clock_from T_2024) 0 local_runtime.

(** Applying a list of action labels in order, stopping at the first one
    that [apply_transition] rejects. *)
Fixpoint apply_path (user : option User) (labels : list string) : M World bool :=
  match labels with
  | [] => ret true
  | label :: rest =>
      ok <- apply_transition user label "" ;;
      if ok then apply_path user rest else ret false
  end.

(** The action labels along DRAFT, READY_TO_SEND, SENT_TO_CLIENT,
    CLIENT_SIGNED, RECEIVED_PAPERWORK, SUBMITTED_TO_PROVIDER,
    PROVIDER_UPLIFTED, IO_CLOSED_NEW_FEE, COMPLETED. *)
Definition legal_path : list string :=
  [ "Mark Ready to Send"; "Send to Client"; "Mark Client Signed";
    "Mark Docs Received"; "Submit to Provider"; "Provider Uplifted";
    "Close Fee in IO & Create New"; "Complete Case" ].

(** ** What a call leaves behind *)

(** The team the routing step assigns for a status, given the rows of
    the team table. *)
Definition routed_team (ts : list Team) (s : CaseStatus) : option Team :=
  match NEXT_TEAM_HINT_get s with
  | Some hint =>
      if String.eqb hint "" then None
      else find (fun t => String.eqb (team_name t) hint) ts
  | None => None
  end.

Definition audit_entry (c : Case) (user : option User) (action notes : string)
  : AuditLog :=
  mkAuditLog None (id c)
             (match user with Some u => user_id u | None => None end)
             action notes [] None.

Definition follow_up_task (r : Runtime) (c : Case) (team : Team)
           (s : CaseStatus) (due : datetime) : Task :=
  mkTask None (id c) (Some team) (task_title_for r s) (Some OPEN) (Some due).

Definition days (d : Z) : timedelta := d * MICROSECONDS_PER_DAY.

(** Tasks and audit entries a call has created on the case. *)
Definition created_tasks (w w' : World) : Z :=
  Z.of_nat (List.length (tasks (case w'))) - Z.of_nat (List.length (tasks (case w))).

Definition created_logs (w w' : World) : Z :=
  Z.of_nat (List.length (logs (case w'))) - Z.of_nat (List.length (logs (case w))).

(** The due dates of the next [k] clock readings are representable, for
    the SLA window and for the five days of a follow-up task. *)
Definition dates_fit (k : nat) (w : World) : Prop :=
  Z.abs (sla_days (case w)) <= MAX_DELTA_DAYS /\
  forall i : nat, (ticks (env w) <= i < ticks (env w) + k)%nat ->
    datetime_in_range (clock (env w) i + days (sla_days (case w))) = true /\
    datetime_in_range (clock (env w) i + days 5) = true.


(** ** Concrete cases *)

(** Opening a case on the case detail page. *)
Definition opened_case (case_id : Z) (e : Env) : option World :=
  match query_case_get case_id e with
  | Ok (Some c) e' => Some (mkWorld e' c)
  | _ => None
  end.

Definition result_world {A} (r : Res World A) : World :=
  match r with
  | Ok _ w => w
  | Raise _ w => w
  end.

(** The first case of a seeded database, as "Create Case" persists it
    with the form's default title, opened on the detail page. *)
Definition first_case (sla : Z) : Case :=
  let p := mkProvider (Some 1) "Aviva" in
  let c := mkClient (Some 1) "Alice" None (Some p) (Some false) in
  mkCase (Some 1) "Fee uplift — client letter" c p DOCUSIGN DRAFT
         (Some (mkTeam (Some 1) "Data")) sla
         (Some T_2024) (Some (T_2024 + 2)) None []
         [mkAuditLog (Some 1) (Some 1) None "created" "Case created" []
                     (Some (T_2024 + 3))].

Definition first_session (sla : Z) : Session :=
  let p := mkProvider (Some 1) "Aviva" in
  let c := mkClient (Some 1) "Alice" None (Some p) (Some false) in
  mkSession (teams seeded_session) [p] [c]
            [mkCase (Some 1) "Fee uplift — client letter" c p DOCUSIGN DRAFT
                    (Some (mkTeam (Some 1) "Data")) sla
                    (Some T_2024) (Some (T_2024 + 2)) None [] []]
            []
            [mkAuditLog (Some 1) (Some 1) None "created" "Case created" []
                        (Some (T_2024 + 3))]
            [].

(** With the form's default SLA of ten days. *)
Definition fresh_case : Case := first_case 10.
Definition fresh_session : Session := first_session 10.

Definition fresh_world : World :=
  mkWorld (mkEnv fresh_session (clock_from T_2024) 4 local_runtime) fresh_case.

(** The same case opened a day after its creation. *)
Definition next_day_world : World :=
  mkWorld (mkEnv fresh_session (clock_from (T_2024 + days 1)) 0 local_runtime)
          fresh_case.

(** The case after the first two, and the first seven, steps of the
    legal path. *)
Definition sent_world : World :=
  result_world (apply_path None (firstn 2 legal_path) fresh_world).

Definition io_closed_world : World :=
  result_world (apply_path None (firstn 7 legal_path) fresh_world).

(** A database whose team table was filled with an organisation's own
    names before the first start, so that [bootstrap_db] seeded nothing. *)
Definition custom_teams_world : World :=
  mkWorld (mkEnv (set_teams [mkTeam (Some 1) "Back Office"] fresh_session)
                 (clock_from T_2024) 4 local_runtime)
          fresh_case.

(** The same case with an SLA of three million days, which the form's
    [min_value=1] accepts. *)
Definition long_sla_world : World :=
  mkWorld (mkEnv (first_session 3000000) (clock_from T_2024) 4 local_runtime)
          (first_case 3000000).

(** The statuses a list of labels leads through, by the table alone. *)
Fixpoint statuses_along (s : CaseStatus) (labels : list string)
  : list CaseStatus :=
  match labels with
  | [] => []
  | label :: rest =>
      match dict_get key_eqb (s, label) TRANSITIONS with
      | Some (new_status, _) => new_status :: statuses_along new_status rest
      | None => []
      end
  end.

(** The nine action labels of [TRANSITIONS], in table order. *)
Definition all_labels : list string := map (fun kv => snd (fst kv)) TRANSITIONS.

(** The longest chain of transitions that can follow a status. *)
Definition depth (s : CaseStatus) : nat :=
  match s with
  | DRAFT => 8
  | READY_TO_SEND => 7
  | SENT_TO_CLIENT => 6
  | CLIENT_SIGNED => 5
  | CLIENT_OPTED_OUT => 0
  | RECEIVED_PAPERWORK => 4
  | SUBMITTED_TO_PROVIDER => 3
  | PROVIDER_UPLIFTED => 2
  | IO_CLOSED_NEW_FEE => 1
  | COMPLETED => 0
  end.

(** ** Further pages and helpers *)

(** The place of a status in the declaration order of [CaseStatus]. *)
Definition position (s : CaseStatus) : nat :=
  match s with
  | DRAFT => 0
  | READY_TO_SEND => 1
  | SENT_TO_CLIENT => 2
  | CLIENT_SIGNED => 3
  | CLIENT_OPTED_OUT => 4
  | RECEIVED_PAPERWORK => 5
  | SUBMITTED_TO_PROVIDER => 6
  | PROVIDER_UPLIFTED => 7
  | IO_CLOSED_NEW_FEE => 8
  | COMPLETED => 9
  end.

(** A series of button presses on one case, each with its label and its
    note, whatever the earlier ones returned. *)
Fixpoint click_all (user : option User) (clicks : list (string * string))
  : M World (list bool) :=
  match clicks with
  | [] => ret []
  | (label, notes) :: rest =>
      ok <- apply_transition user label notes ;;
      oks <- click_all user rest ;;
      ret (ok :: oks)
  end.

Definition count_true (l : list bool) : nat :=
  List.length (filter (fun b => b) l).

(** Four presses on a new case, two of them out of turn. *)
Definition sample_clicks : list (string * string) :=
  [("Send to Client", "too early"); ("Mark Ready to Send", "");
   ("Mark Ready to Send", "twice"); ("Send to Client", "now")].

(** What looking a name up and creating the row if absent yields: the row
    in hand and the table afterwards. *)
Definition upserted_provider (pn : string) (ps : list Provider) : Provider :=
  match find (fun p => String.eqb (provider_name p) pn) ps with
  | Some p => p
  | None => mkProvider (Some (next_id provider_id ps)) pn
  end.

Definition providers_after (pn : string) (ps : list Provider) : list Provider :=
  match find (fun p => String.eqb (provider_name p) pn) ps with
  | Some _ => ps
  | None => ps ++ [mkProvider (Some (next_id provider_id ps)) pn]
  end.

Definition upserted_client (cn : string) (p : Provider) (cs : list Client)
  : Client :=
  match find (fun c => String.eqb (client_name c) cn) cs with
  | Some c => c
  | None => mkClient (Some (next_id client_id cs)) cn None (Some p) (Some false)
  end.

Definition clients_after (cn : string) (p : Provider) (cs : list Client)
  : list Client :=
  match find (fun c => String.eqb (client_name c) cn) cs with
  | Some _ => cs
  | None => cs ++ [mkClient (Some (next_id client_id cs)) cn None (Some p)
                            (Some false)]
  end.

(** A database where the client Alice is on the books of Aviva: the one
    the running example leaves, before any session is opened on it. *)
Definition alice_env : Env :=
  mkEnv fresh_session (clock_from T_2024) 4 local_runtime.

(** The database of [custom_teams_world], as the admin page finds it. *)
Definition custom_teams_env : Env :=
  mkEnv (session (env custom_teams_world)) (clock_from T_2024) 0 local_runtime.

(** The three figures at the top of [page_dashboard]: all cases, cases
    not COMPLETED, and cases not COMPLETED whose due date is set and lies
    before [datetime.utcnow()].  A comparison with a missing due date is
    not true in SQL, so such a row is not counted. *)
Definition is_open (c : Case) : bool := negb (CaseStatus_eqb (status c) COMPLETED).

Definition is_overdue (now : datetime) (c : Case) : bool :=
  match due_at c with
  | Some due => (due <? now) && is_open c
  | None => false
  end.

Definition page_dashboard_kpis : M Env (Z * Z * Z) :=
  e <- get ;;
  let rows := cases (session e) in
  let total_cases := Z.of_nat (List.length rows) in
  let open_cases := Z.of_nat (List.length (filter is_open rows)) in
  now <- utcnow ;;
  let overdue := Z.of_nat (List.length (filter (is_overdue now) rows)) in
  ret (total_cases, open_cases, overdue).

(** [Case.assigned_team_id], the key of the assigned team. *)
Definition assigned_team_id (c : Case) : option Z :=
  match assigned_team c with
  | Some t => team_id t
  | None => None
  end.

(** ORDER BY, as a stable insertion sort: rows that compare equal keep
    the order of the table.  The database is free to order such rows
    otherwise; what is proved of the result does not depend on it. *)
Fixpoint insert_by {A} (leb : A -> A -> bool) (x : A) (l : list A) : list A :=
  match l with
  | [] => [x]
  | y :: l' => if leb x y then x :: l else y :: insert_by leb x l'
  end.

Definition order_by {A} (leb : A -> A -> bool) (l : list A) : list A :=
  fold_right (insert_by leb) [] l.

(** [ORDER BY cases.due_at IS NULL, cases.due_at]: rows with a due date
    first, earliest first, then the rows without. *)
Definition due_leb (a b : Case) : bool :=
  match due_at a, due_at b with
  | Some x, Some y => x <=? y
  | Some _, None => true
  | None, Some _ => false
  | None, None => true
  end.

(** The query of [page_queue] for the signed-in user: the cases joined
    to their assigned team, of the user's team, not COMPLETED, by due
    date. *)
Definition page_queue_query (user : User) : M Env (list Case) :=
  e <- get ;;
  let s := session e in
  let joined :=
    flat_map (fun c =>
                map (fun t => (c, t))
                    (filter (fun t => same_id (assigned_team_id c) (team_id t))
                            (teams s)))
             (cases s) in
  let of_team :=
    filter (fun ct => same_id (team_id (snd ct)) (user_team_id user)) joined in
  let not_completed :=
    filter (fun ct => negb (CaseStatus_eqb (status (fst ct)) COMPLETED))
           of_team in
  ret (order_by due_leb (map fst not_completed)).

(** A case table for the queue: five cases of one client, three of them
    open with the team of key 2, due at different times or not at all. *)
Definition queue_case (key : Z) (st : CaseStatus) (team : option Team)
           (due : option datetime) : Case :=
  mkCase (Some key) "Fee uplift — client letter" (client fresh_case)
         (provider fresh_case) DOCUSIGN st team 10
         (Some T_2024) (Some T_2024) due [] [].

Definition queue_env : Env :=
  let admin := Some (mkTeam (Some 2) "Admin Solution") in
  let ops := Some (mkTeam (Some 3) "Ops Support") in
  mkEnv (set_cases
           [ queue_case 1 READY_TO_SEND admin (Some (T_2024 + days 9));
             queue_case 2 SENT_TO_CLIENT ops (Some (T_2024 + days 2));
             queue_case 3 READY_TO_SEND admin None;
             queue_case 4 IO_CLOSED_NEW_FEE admin (Some (T_2024 + days 4));
             queue_case 5 COMPLETED None (Some (T_2024 + days 1)) ]
           fresh_session)
        (clock_from (T_2024 + days 5)) 0 local_runtime.

Definition admin_user : User :=
  mkUser (Some 1) "Ann" (Some "ann@example.org") (Some 2) "member".

(** A button of [page_case_detail], pressed on the case as the page has
    loaded it: the transition and, if it returned [True], the commit
    that precedes "Moved to ..."; otherwise "Transition not allowed". *)
Definition page_case_detail_click (user : option User) (label notes : string)
  : M World bool :=
  loaded <- get_case ;;
  ok <- apply_transition user label notes ;;
  if ok then commit_modified_case loaded ;; ret true else ret false.

(** A case as [query_case_get] builds it from its row: the columns of
    the row, the tasks and the audit entries that bear its key. *)
Definition loaded_case (s : Session) (row : Case) : Case :=
  mkCase (id row) (title row) (client row) (provider row)
         (signature_type row) (status row) (assigned_team row)
         (sla_days row) (created_at row) (updated_at row) (due_at row)
         (filter (fun t => same_id (task_case_id t) (id row)) (task_rows s))
         (filter (fun l => same_id (log_case_id l) (id row)) (audit_logs s)).

(** ** Two requests on one case

    Every run of the script works in a session of its own, opened by
    [get_session()] at the router, on the one database.
    [page_case_detail] loads the case at the start of the run, and the
    handler of a pressed button checks the transition against the status
    of the object the run has loaded; the code takes no lock and the
    tables have no version column. *)

(** The handler of a button in the session of its run.  The run has only
    queried so far, so nothing is pending in its session.  The result is
    what [apply_transition] returned, or nothing when the run ended with
    an exception, which ends that run alone. *)
Definition request_click (loaded : Case) (user : option User)
           (label notes : string) : M Env (option bool) :=
  fun e =>
    match with_case loaded (page_case_detail_click user label notes)
                    (set_session (set_new [] (session e)) e) with
    | Ok r e' => Ok (Some (fst r)) e'
    | Raise _ e' => Ok None e'
    end.

(** Two runs for the same case, the second of which loads the case when
    the first is over. *)
Definition consecutive_requests (case_id : Z)
           (user1 : option User) (label1 notes1 : string)
           (user2 : option User) (label2 notes2 : string)
  : M Env (option (option bool * option bool)) :=
  loaded1 <- query_case_get case_id ;;
  match loaded1 with
  | Some c1 =>
      r1 <- request_click c1 user1 label1 notes1 ;;
      loaded2 <- query_case_get case_id ;;
      match loaded2 with
      | Some c2 =>
          r2 <- request_click c2 user2 label2 notes2 ;;
          ret (Some (r1, r2))
      | None => ret None
      end
  | None => ret None
  end.

(** Two runs for the same case that have both loaded it before either
    handler runs; the handlers then run one after the other. *)
Definition overlapping_requests (case_id : Z)
           (user1 : option User) (label1 notes1 : string)
           (user2 : option User) (label2 notes2 : string)
  : M Env (option (option bool * option bool)) :=
  loaded1 <- query_case_get case_id ;;
  loaded2 <- query_case_get case_id ;;
  match loaded1, loaded2 with
  | Some c1, Some c2 =>
      r1 <- request_click c1 user1 label1 notes1 ;;
      r2 <- request_click c2 user2 label2 notes2 ;;
      ret (Some (r1, r2))
  | _, _ => ret None
  end.

(** The buttons of a list of labels, pressed in as many runs one after
    the other. *)
Fixpoint press_all (case_id : Z) (labels : list string) : M Env unit :=
  match labels with
  | [] => ret tt
  | label :: rest =>
      loaded <- query_case_get case_id ;;
      match loaded with
      | Some c => request_click c None label "" ;; press_all case_id rest
      | None => ret tt
      end
  end.

(** The database of the running example with its case moved on to
    READY_TO_SEND, and to SENT_TO_CLIENT: each button takes four clock
    readings. *)
Definition ready_session : Session :=
  Eval vm_compute in
    session (result_env (press_all 1 ["Mark Ready to Send"] alice_env)).

Definition ready_env : Env :=
  mkEnv ready_session (clock_from T_2024) 8 local_runtime.

Definition sent_session : Session :=
  Eval vm_compute in
    session (result_env (press_all 1 ["Mark Ready to Send"; "Send to Client"]
                                   alice_env)).

Definition sent_env : Env :=
  mkEnv sent_session (clock_from T_2024) 12 local_runtime.

(** The row of a case, and the actions of the audit rows that bear its
    key. *)
Definition case_row (case_id : Z) (e : Env) : option Case :=
  find (fun c => same_id (id c) (Some case_id)) (cases (session e)).

Definition audit_actions (case_id : Z) (e : Env) : list string :=
  map log_action_name
      (filter (fun l => same_id (log_case_id l) (Some case_id))
              (audit_logs (session e))).
(** ** Lemmas on the table lookups *)

Lemma CaseStatus_eqb_eq (a b : CaseStatus) : CaseStatus_eqb a b = true <-> a = b.
Proof.
  unfold CaseStatus_eqb. destruct (CaseStatus_eq_dec a b); split; congruence.
Qed.

Lemma key_eqb_eq (a b : CaseStatus * string) : key_eqb a b = true <-> a = b.
Proof.
  destruct a as [s l], b as [s' l']. unfold key_eqb. simpl.
  rewrite andb_true_iff, CaseStatus_eqb_eq, String.eqb_eq.
  split; [intros [-> ->]; reflexivity | intros H; inversion H; auto].
Qed.

Section Dict.
Context {K V : Type} (eqb : K -> K -> bool).
Hypothesis eqb_eq : forall a b, eqb a b = true <-> a = b.

Lemma dict_get_None (k : K) (d : list (K * V)) :
  dict_get eqb k d = None <-> ~ In k (map fst d).
Proof.
  induction d as [|[k' v] d IH]; simpl.
  - tauto.
  - destruct (eqb k k') eqn:E.
    + apply eqb_eq in E. subst. split; [discriminate | tauto].
    + rewrite IH. split.
      * intros H [H'|H']; [subst k'|tauto].
        assert (eqb k k = true) by (apply eqb_eq; reflexivity). congruence.
      * tauto.
Qed.

Lemma dict_get_Some_In (k : K) (v : V) (d : list (K * V)) :
  dict_get eqb k d = Some v -> In (k, v) d.
Proof.
  induction d as [|[k' v'] d IH]; simpl; [discriminate|].
  destruct (eqb k k') eqn:E.
  - apply eqb_eq in E. subst. intros H. inversion H. auto.
  - auto.
Qed.

Lemma In_dict_get (k : K) (v : V) (d : list (K * V)) :
  NoDup (map fst d) -> In (k, v) d -> dict_get eqb k d = Some v.
Proof.
  induction d as [|[k' v'] d IH]; simpl; [tauto|].
  intros ND [H|H].
  - inversion H; subst.
    assert (eqb k k = true) as -> by (apply eqb_eq; reflexivity). reflexivity.
  - inversion ND as [|? ? Hnotin ND']; subst.
    destruct (eqb k k') eqn:E; [|auto].
    apply eqb_eq in E. subst k'. exfalso. apply Hnotin.
    change k with (fst (k, v)). apply in_map. exact H.
Qed.
End Dict.

(** The keys of [TRANSITIONS] are pairwise distinct, so the list is the
    dictionary the source writes. *)
Lemma TRANSITIONS_keys_NoDup : NoDup (map fst TRANSITIONS).
Proof.
  unfold TRANSITIONS; simpl.
  repeat (constructor; [simpl; intros H; repeat (destruct H as [H|H]; [discriminate H|]); exact H|]).
  constructor.
Qed.

Lemma NEXT_TEAM_HINT_keys_NoDup : NoDup (map fst NEXT_TEAM_HINT).
Proof.
  unfold NEXT_TEAM_HINT; simpl.
  repeat (constructor; [simpl; intros H; repeat (destruct H as [H|H]; [discriminate H|]); exact H|]).
  constructor.
Qed.

Lemma TRANSITIONS_get (key : CaseStatus * string) (v : CaseStatus * string) :
  dict_get key_eqb key TRANSITIONS = Some v <-> In (key, v) TRANSITIONS.
Proof.
  split.
  - apply (dict_get_Some_In key_eqb key_eqb_eq).
  - apply (In_dict_get key_eqb key_eqb_eq). exact TRANSITIONS_keys_NoDup.
Qed.

Lemma in_TRANSITIONS_false (key : CaseStatus * string) :
  in_TRANSITIONS key = false <-> ~ In key (map fst TRANSITIONS).
Proof.
  unfold in_TRANSITIONS. rewrite <- (dict_get_None key_eqb key_eqb_eq).
  destruct (dict_get key_eqb key TRANSITIONS); split; congruence.
Qed.

(** ** The engine functions, step by step *)

Lemma assign_next_team_run (w : World) :
  assign_next_team w =
  Ok tt (mkWorld (env w)
                 (set_assigned_team
                    (routed_team (teams (session (env w))) (status (case w)))
                    (case w))).
Proof.
  destruct w as [e c]. unfold assign_next_team, routed_team, bind, get_case.
  cbn [case env].
  destruct (NEXT_TEAM_HINT_get (status c)) as [hint|]; [|reflexivity].
  destruct (String.eqb hint ""); reflexivity.
Qed.

Lemma create_task_for_case_unassigned (title : string) (due_days : Z) (w : World) :
  assigned_team (case w) = None ->
  create_task_for_case title due_days w = Ok tt w.
Proof.
  intros H. unfold create_task_for_case, bind, get_case. rewrite H. reflexivity.
Qed.

Lemma log_action_run (user : option User) (action notes : string) (w : World) :
  log_action user action notes None w =
  let entry := audit_entry (case w) user action notes in
  Ok tt (mkWorld
           (set_session
              (set_new (new (session (env w)) ++ [EAuditLog entry])
                       (session (env w)))
              (env w))
           (append_log entry (case w))).
Proof. destruct w as [e c]. reflexivity. Qed.

(** Everything a call of [apply_transition] that returns [True] has done. *)
Lemma apply_transition_true (user : option User) (label notes : string)
      (w w' : World) :
  apply_transition user label notes w = Ok true w' ->
  exists new_status audit_action,
    dict_get key_eqb (status (case w), label) TRANSITIONS
      = Some (new_status, audit_action) /\
    let e := env w in
    let s := session e in
    let now := clock e (ticks e) in
    let c1 := set_due_at (Some (now + days (sla_days (case w))))
                         (set_status new_status (case w)) in
    let team := routed_team (teams s) new_status in
    let c2 := set_assigned_team team c1 in
    let entry := audit_entry c2 user audit_action notes in
    match team with
    | None =>
        w' = mkWorld
               (mkEnv (set_new (new s ++ [EAuditLog entry]) s)
                      (clock e) (S (ticks e)) (runtime e))
               (append_log entry c2)
    | Some t =>
        let task := follow_up_task (runtime e) c2 t new_status
                                   (clock e (S (ticks e)) + days 5) in
        w' = mkWorld
               (mkEnv (set_new ((new s ++ [ETask task]) ++ [EAuditLog entry]) s)
                      (clock e) (S (S (ticks e))) (runtime e))
               (append_log entry (append_task task c2))
    end.
Proof.
  destruct w as [[s clk tk rt] c]. unfold apply_transition.
  unfold bind at 1. unfold get_case at 1. cbn [case env].
  destruct (dict_get key_eqb (status c, label) TRANSITIONS)
    as [[new_status audit_action]|]; [|discriminate].
  intros H. exists new_status, audit_action. split; [reflexivity|].
  revert H. cbn [env session clock ticks case].
  unfold bind, modify_case, modify, lift_env, utcnow, get_case, timedelta_days.
  cbn [env session clock ticks case sla_days set_status].
  destruct (Z.abs (sla_days c) <=? MAX_DELTA_DAYS); [|discriminate].
  unfold ret, datetime_add. fold (days (sla_days c)).
  destruct (datetime_in_range (clk tk + days (sla_days c))); [|discriminate].
  unfold ret. rewrite assign_next_team_run. unfold get_runtime.
  cbn [env session clock ticks runtime case status set_due_at set_status teams].
  destruct (routed_team (teams s) new_status) as [t|] eqn:Ht.
  - unfold create_task_for_case, bind, get_case, lift_env, utcnow, timedelta_days.
    cbn [case env assigned_team set_assigned_team session clock ticks].
    change (Z.abs 5 <=? MAX_DELTA_DAYS) with true. cbv iota.
    unfold ret, datetime_add. fold (days 5).
    destruct (datetime_in_range (clk (S tk) + days 5)); [|discriminate].
    unfold ret, modify_case, modify, session_add, modify.
    cbn [case env session clock ticks].
    rewrite log_action_run. cbv zeta.
    intros H. inversion H. reflexivity.
  - rewrite create_task_for_case_unassigned by reflexivity.
    rewrite log_action_run. cbv zeta.
    intros H. inversion H. reflexivity.
Qed.


(** The same facts, field by field. *)
Lemma apply_transition_true_fields (user : option User) (label notes : string)
      (w w' : World) :
  apply_transition user label notes w = Ok true w' ->
  exists new_status audit_action,
    dict_get key_eqb (status (case w), label) TRANSITIONS
      = Some (new_status, audit_action) /\
    status (case w') = new_status /\
    due_at (case w')
      = Some (clock (env w) (ticks (env w)) + days (sla_days (case w))) /\
    assigned_team (case w')
      = routed_team (teams (session (env w))) new_status /\
    sla_days (case w') = sla_days (case w) /\
    id (case w') = id (case w) /\
    created_at (case w') = created_at (case w) /\
    teams (session (env w')) = teams (session (env w)) /\
    clock (env w') = clock (env w) /\
    (ticks (env w) < ticks (env w') <= ticks (env w) + 2)%nat /\
    exists entry,
      log_case_id entry = id (case w) /\
      log_action_name entry = audit_action /\
      log_notes entry = notes /\
      log_user_id entry
        = match user with Some u => user_id u | None => None end /\
      logs (case w') = logs (case w) ++ [entry] /\
      match assigned_team (case w') with
      | None =>
          tasks (case w') = tasks (case w) /\
          new (session (env w'))
            = new (session (env w)) ++ [EAuditLog entry]
      | Some t =>
          exists task,
            task_team task = Some t /\
            task_status task = Some OPEN /\
            task_case_id task = id (case w) /\
            task_title task = task_title_for (runtime (env w)) new_status /\
            task_due_at task
              = Some (clock (env w) (S (ticks (env w))) + days 5) /\
            tasks (case w') = tasks (case w) ++ [task] /\
            new (session (env w'))
              = new (session (env w)) ++ [ETask task; EAuditLog entry]
      end.
Proof.
  intros H. apply apply_transition_true in H.
  destruct H as (ns & act & Hget & H). exists ns, act.
  split; [exact Hget|]. cbv zeta in H.
  destruct (routed_team (teams (session (env w))) ns) as [t|] eqn:Ht.
  - match type of H with
    | context [follow_up_task ?r ?c ?t ?s ?d] =>
        pose (task := follow_up_task r c t s d)
    end.
    match type of H with
    | context [audit_entry ?c ?u ?a ?n] => pose (entry := audit_entry c u a n)
    end.
    subst w'.
    cbn [case env session clock ticks status due_at assigned_team
         sla_days id created_at teams append_log append_task
         set_assigned_team set_due_at set_status set_new logs tasks new].
    repeat (split; [first [reflexivity | lia]|]).
    exists entry. repeat (split; [reflexivity|]).
    exists task. repeat (split; [reflexivity|]).
    rewrite <- app_assoc. reflexivity.
  - match type of H with
    | context [audit_entry ?c ?u ?a ?n] => pose (entry := audit_entry c u a n)
    end.
    subst w'.
    cbn [case env session clock ticks status due_at assigned_team
         sla_days id created_at teams append_log append_task
         set_assigned_team set_due_at set_status set_new logs tasks new].
    repeat (split; [first [reflexivity | lia]|]).
    exists entry. repeat (split; [reflexivity|]). reflexivity.
Qed.

(** A call whose key is absent does nothing at all. *)
Lemma apply_transition_illegal (user : option User) (label notes : string)
      (w : World) :
  dict_get key_eqb (status (case w), label) TRANSITIONS = None ->
  apply_transition user label notes w = Ok false w.
Proof.
  intros H. unfold apply_transition, bind, get_case. rewrite H. reflexivity.
Qed.

(** With a key of the table and representable dates the call returns
    [True]. *)
Lemma apply_transition_succeeds (user : option User) (label notes : string)
      (w : World) (new_status : CaseStatus) (audit_action : string) (k : nat) :
  dict_get key_eqb (status (case w), label) TRANSITIONS
    = Some (new_status, audit_action) ->
  dates_fit (2 + k) w ->
  exists w', apply_transition user label notes w = Ok true w' /\
             dates_fit k w'.
Proof.
  intros Hget [Hsla Hfit].
  destruct w as [[s clk tk rt] c]. cbn [case env session clock ticks] in *.
  assert (H0 := Hfit tk ltac:(lia)). assert (H1 := Hfit (S tk) ltac:(lia)).
  destruct H0 as [H0 _], H1 as [_ H1].
  unfold apply_transition.
  unfold bind at 1. unfold get_case at 1. cbn [case env]. rewrite Hget.
  unfold bind, modify_case, modify, lift_env, utcnow, get_case, timedelta_days.
  cbn [env session clock ticks case sla_days set_status].
  apply Z.leb_le in Hsla. rewrite Hsla.
  unfold ret, datetime_add. fold (days (sla_days c)). rewrite H0.
  unfold ret. rewrite assign_next_team_run. unfold get_runtime.
  cbn [env session clock ticks runtime case status set_due_at set_status teams].
  destruct (routed_team (teams s) new_status) as [t|] eqn:Ht.
  - unfold create_task_for_case, bind, get_case, lift_env, utcnow, timedelta_days.
    cbn [case env assigned_team set_assigned_team session clock ticks].
    change (Z.abs 5 <=? MAX_DELTA_DAYS) with true. cbv iota.
    unfold ret, datetime_add. fold (days 5). rewrite H1.
    unfold ret, modify_case, modify, session_add, modify.
    cbn [case env session clock ticks].
    rewrite log_action_run. cbv zeta.
    eexists. split; [reflexivity|].
    split; cbn [case env session clock ticks sla_days append_log append_task
                set_assigned_team set_due_at set_status set_session].
    + apply Z.leb_le. exact Hsla.
    + intros i Hi. apply Hfit. lia.
  - rewrite create_task_for_case_unassigned by reflexivity.
    rewrite log_action_run. cbv zeta.
    eexists. split; [reflexivity|].
    split; cbn [case env session clock ticks sla_days append_log append_task
                set_assigned_team set_due_at set_status set_session].
    + apply Z.leb_le. exact Hsla.
    + intros i Hi. apply Hfit. lia.
Qed.

Lemma apply_transition_step (user : option User) (label notes : string)
      (w : World) (new_status : CaseStatus) (audit_action : string) (k : nat) :
  dict_get key_eqb (status (case w), label) TRANSITIONS
    = Some (new_status, audit_action) ->
  dates_fit (2 + k) w ->
  exists w', apply_transition user label notes w = Ok true w' /\
             dates_fit k w' /\
             status (case w') = new_status /\
             assigned_team (case w')
               = routed_team (teams (session (env w))) new_status /\
             teams (session (env w')) = teams (session (env w)).
Proof.
  intros Hget Hfit.
  destruct (apply_transition_succeeds user label notes w _ _ k Hget Hfit)
    as (w' & Hrun & Hfit').
  exists w'. split; [exact Hrun|]. split; [exact Hfit'|].
  destruct (apply_transition_true_fields _ _ _ _ _ Hrun)
    as (ns & act & Hget' & Hst & _ & Hteam & _ & _ & _ & Hteams & _).
  rewrite Hget in Hget'. inversion Hget'; subst ns act. auto.
Qed.

Lemma apply_path_cons_true (user : option User) (label : string)
      (rest : list string) (w w1 : World) :
  apply_transition user label "" w = Ok true w1 ->
  apply_path user (label :: rest) w = apply_path user rest w1.
Proof. intros H. cbn [apply_path]. unfold bind. rewrite H. reflexivity. Qed.

(** Every transition of the table shortens what can still follow. *)
Lemma transition_depth (s new_status : CaseStatus) (label audit_action : string) :
  dict_get key_eqb (s, label) TRANSITIONS = Some (new_status, audit_action) ->
  (depth new_status < depth s)%nat.
Proof.
  intros H. apply (dict_get_Some_In key_eqb key_eqb_eq) in H.
  unfold TRANSITIONS in H. simpl in H.
  repeat (destruct H as [H|H]; [inversion H; subst; simpl; lia|]).
  contradiction.
Qed.

Lemma apply_path_length (user : option User) (labels : list string) :
  forall w w' : World,
    apply_path user labels w = Ok true w' ->
    (List.length labels <= depth (status (case w)))%nat.
Proof.
  induction labels as [|label rest IH]; intros w w' H.
  - simpl. lia.
  - cbn [apply_path] in H. unfold bind in H.
    destruct (apply_transition user label "" w) as [[|] w1|] eqn:E;
      [| discriminate H | discriminate H].
    apply IH in H.
    destruct (apply_transition_true_fields _ _ _ _ _ E)
      as (ns & act & Hget & Hst & _).
    apply transition_depth in Hget. rewrite Hst in H. simpl. lia.
Qed.

Example legal_path_statuses :
  statuses_along DRAFT legal_path
  = [READY_TO_SEND; SENT_TO_CLIENT; CLIENT_SIGNED; RECEIVED_PAPERWORK;
     SUBMITTED_TO_PROVIDER; PROVIDER_UPLIFTED; IO_CLOSED_NEW_FEE; COMPLETED].
Proof. reflexivity. Qed.

Example long_sla_world_created :
  match page_cases_create_case "Fee uplift — client letter" "Alice" "Aviva"
                               DOCUSIGN 3000000 None seeded_env with
  | Ok (Some i) e => opened_case i e = Some long_sla_world
  | _ => False
  end.
Proof. vm_compute. reflexivity. Qed.

(** The persisted case of the running example is what "Create Case"
    leaves in a seeded database, opened by its key. *)
Example fresh_world_created :
  match page_cases_create_case "Fee uplift — client letter" "Alice" "Aviva"
                               DOCUSIGN 10 None seeded_env with
  | Ok (Some i) e => opened_case i e = Some fresh_world
  | _ => False
  end.
Proof. vm_compute. reflexivity. Qed.


(** The three ways a call can end: [False] with nothing changed when the
    key is absent; otherwise [True], or an [OverflowError] from one of the
    two date computations. *)
Lemma apply_transition_outcomes (user : option User) (label notes : string)
      (w : World) :
  match apply_transition user label notes w with
  | Ok true _ => In (status (case w), label) (map fst TRANSITIONS)
  | Ok false w' => ~ In (status (case w), label) (map fst TRANSITIONS) /\ w' = w
  | Raise x _ =>
      x = OverflowError /\ In (status (case w), label) (map fst TRANSITIONS)
  end.
Proof.
  destruct (dict_get key_eqb (status (case w), label) TRANSITIONS)
    as [[ns act]|] eqn:Hget.
  - assert (Hin : In (status (case w), label) (map fst TRANSITIONS)).
    { apply (dict_get_Some_In key_eqb key_eqb_eq) in Hget.
      change (status (case w), label)
        with (fst ((status (case w), label), (ns, act))).
      apply in_map. exact Hget. }
    destruct w as [[s clk tk rt] c]. cbn [case env] in *.
    unfold apply_transition.
    unfold bind at 1. unfold get_case at 1. cbn [case env]. rewrite Hget.
    unfold bind, modify_case, modify, lift_env, utcnow, get_case, timedelta_days.
    cbn [env session clock ticks case sla_days set_status].
    destruct (Z.abs (sla_days c) <=? MAX_DELTA_DAYS); [|split; [reflexivity|exact Hin]].
    unfold ret, datetime_add.
    destruct (datetime_in_range _); [|split; [reflexivity|exact Hin]].
    unfold ret. rewrite assign_next_team_run. unfold get_runtime.
    cbn [env session clock ticks runtime case status set_due_at set_status teams].
    destruct (routed_team (teams s) ns) as [t|] eqn:Ht.
    + unfold create_task_for_case, bind, get_case, lift_env, utcnow, timedelta_days.
      cbn [case env assigned_team set_assigned_team session clock ticks].
      change (Z.abs 5 <=? MAX_DELTA_DAYS) with true. cbv iota.
      unfold ret, datetime_add.
      destruct (datetime_in_range _); [|split; [reflexivity|exact Hin]].
      unfold ret, modify_case, modify, session_add, modify.
      cbn [case env session clock ticks].
      rewrite log_action_run. exact Hin.
    + rewrite create_task_for_case_unassigned by reflexivity.
      rewrite log_action_run. exact Hin.
  - rewrite (apply_transition_illegal _ _ _ _ Hget).
    split; [|reflexivity].
    apply (dict_get_None key_eqb key_eqb_eq). exact Hget.
Qed.

(** Looking a team up by name. *)
Lemma find_team_absent (hint : string) (ts : list Team) :
  (forall t, In t ts -> team_name t <> hint) ->
  find (fun t => String.eqb (team_name t) hint) ts = None.
Proof.
  intros H. induction ts as [|t ts IH]; [reflexivity|].
  simpl. destruct (String.eqb (team_name t) hint) eqn:E.
  - apply String.eqb_eq in E. exfalso. apply (H t); [left; reflexivity | exact E].
  - apply IH. intros t' Ht'. apply H. right. exact Ht'.
Qed.

Lemma find_team_present (hint : string) (ts : list Team) :
  (exists t, In t ts /\ team_name t = hint) ->
  exists t, find (fun t => String.eqb (team_name t) hint) ts = Some t /\
            In t ts /\ team_name t = hint.
Proof.
  intros (t0 & Hin & Hname).
  destruct (find (fun t => String.eqb (team_name t) hint) ts) as [t|] eqn:E.
  - exists t. split; [reflexivity|]. apply find_some in E.
    destruct E as [E1 E2]. apply String.eqb_eq in E2. auto.
  - exfalso. apply (find_none _ _ E) in Hin.
    rewrite Hname, String.eqb_refl in Hin. discriminate.
Qed.
(** ** Commits, one by one *)

Lemma find_existsb {A} (f : A -> bool) (l : list A) :
  find f l = None -> existsb f l = false.
Proof.
  induction l as [|a l IH]; simpl; [reflexivity|].
  destruct (f a); [discriminate | exact IH].
Qed.

Lemma add_and_commit_provider (pn : string) (e : Env) :
  new (session e) = [] ->
  find (fun p => String.eqb (provider_name p) pn) (providers (session e)) = None ->
  let p' := mkProvider (Some (next_id provider_id (providers (session e)))) pn in
  add_and_commit (EProvider (mkProvider None pn)) e
  = Ok (EProvider p')
       (set_session (set_providers (providers (session e) ++ [p']) (session e)) e).
Proof.
  destruct e as [[ts ps cs rows trs lgs nw] clk tk rt].
  cbn [session new providers]. intros -> Hfind. apply find_existsb in Hfind.
  unfold add_and_commit, bind, session_add, modify, commit.
  cbn -[next_id existsb].
  unfold bind, get. cbn -[next_id existsb]. rewrite Hfind.
  reflexivity.
Qed.

Lemma add_and_commit_client (c : Client) (e : Env) :
  new (session e) = [] ->
  let c' := mkClient (or_default (client_id c) (next_id client_id (clients (session e))))
                     (client_name c) (client_io_reference c) (client_provider c)
                     (or_default (client_opted_out c) false) in
  add_and_commit (EClient c) e
  = Ok (EClient c')
       (set_session (set_clients (clients (session e) ++ [c']) (session e)) e).
Proof.
  destruct e as [[ts ps cs rows trs lgs nw] clk tk rt].
  cbn [session new clients]. intros ->.
  reflexivity.
Qed.

Lemma add_and_commit_case (c : Case) (e : Env) :
  new (session e) = [] ->
  created_at c = None -> updated_at c = None ->
  INTEGER_in_range (dialect (runtime e)) (sla_days c) = true ->
  let c' := mkCase (or_default (id c) (next_id id (cases (session e))))
                   (title c) (client c) (provider c) (signature_type c)
                   (status c) (assigned_team c) (sla_days c)
                   (Some (clock e (ticks e))) (Some (clock e (S (ticks e))))
                   (due_at c) (tasks c) (logs c) in
  add_and_commit (ECase c) e
  = Ok (ECase c')
       (mkEnv (set_cases (cases (session e) ++ [c']) (session e))
              (clock e) (S (S (ticks e))) (runtime e)).
Proof.
  destruct e as [[ts ps cs rows trs lgs nw] clk tk rt].
  cbn [session new cases clock ticks runtime]. intros -> Hc Hu Hr.
  unfold add_and_commit, bind, session_add, modify, commit.
  cbn -[next_id INTEGER_in_range]. unfold bind, get.
  cbn -[next_id INTEGER_in_range]. rewrite Hc, Hu.
  cbn -[next_id INTEGER_in_range]. rewrite Hr.
  reflexivity.
Qed.

(** A case whose SLA does not fit the column is refused: the two column
    defaults have been computed by then, and nothing is written. *)
Lemma add_and_commit_case_refused (c : Case) (e : Env) :
  new (session e) = [] ->
  created_at c = None -> updated_at c = None ->
  INTEGER_in_range (dialect (runtime e)) (sla_days c) = false ->
  add_and_commit (ECase c) e
  = Raise (INTEGER_out_of_range (dialect (runtime e)))
          (mkEnv (session e) (clock e) (S (S (ticks e))) (runtime e)).
Proof.
  destruct e as [[ts ps cs rows trs lgs nw] clk tk rt].
  cbn [session new cases clock ticks runtime]. intros -> Hc Hu Hr.
  unfold add_and_commit, bind, session_add, modify, commit.
  cbn -[next_id INTEGER_in_range]. unfold bind, get.
  cbn -[next_id INTEGER_in_range]. rewrite Hc, Hu.
  cbn -[next_id INTEGER_in_range]. rewrite Hr.
  reflexivity.
Qed.

Lemma next_id_above {A} (pk : A -> option Z) (rows : list A) (r : A) (i : Z) :
  In r rows -> pk r = Some i -> i < next_id pk rows.
Proof.
  unfold next_id. induction rows as [|r' rows IH]; cbn [fold_right In]; [tauto|].
  intros [->|Hin] Hpk.
  - rewrite Hpk. lia.
  - specialize (IH Hin Hpk). destruct (pk r'); lia.
Qed.

Lemma find_app_last {A} (f : A -> bool) (l : list A) (x : A) :
  (forall r, In r l -> f r = false) -> f x = true ->
  find f (l ++ [x]) = Some x.
Proof.
  intros Hl Hx. induction l as [|a l IH]; simpl.
  - rewrite Hx. reflexivity.
  - rewrite (Hl a) by (left; reflexivity).
    apply IH. intros r Hr. apply Hl. right. exact Hr.
Qed.

Ltac norm_env :=
  cbv beta iota zeta
      delta [set_session set_new set_providers set_clients set_cases
             set_audit_logs set_teams set_task_rows session teams providers
             clients cases task_rows audit_logs new clock ticks runtime].

Tactic Notation "norm_env" "in" hyp(H) :=
  cbv beta iota zeta
      delta [set_session set_new set_providers set_clients set_cases
             set_audit_logs set_teams set_task_rows session teams providers
             clients cases task_rows audit_logs new clock ticks runtime] in H.

(** ** The commit of a modified case *)

Lemma written_same {A} (eq_dec : forall a b : A, {a = b} + {a <> b})
      (loaded current : A) :
  written eq_dec loaded current loaded = current.
Proof. unfold written. destruct (eq_dec current loaded); congruence. Qed.

Lemma written_changed {A} (eq_dec : forall a b : A, {a = b} + {a <> b})
      (loaded current stored : A) :
  current <> loaded -> written eq_dec loaded current stored = current.
Proof. unfold written. destruct (eq_dec current loaded); congruence. Qed.

Lemma write_columns_id (loaded c row : Case) :
  id (write_columns loaded c row) = id row.
Proof. unfold write_columns. destruct (same_id (id row) (id c)); reflexivity. Qed.

(** Written to the row it was loaded from, a case leaves its columns
    there as it has them. *)
Lemma write_columns_of_loaded (loaded c row : Case) (key : Z) :
  id c = Some key -> id row = Some key ->
  title row = title loaded -> client row = client loaded ->
  provider row = provider loaded ->
  signature_type row = signature_type loaded ->
  status row = status loaded -> assigned_team row = assigned_team loaded ->
  sla_days row = sla_days loaded -> created_at row = created_at loaded ->
  updated_at row = updated_at loaded -> due_at row = due_at loaded ->
  write_columns loaded c row
  = mkCase (id row) (title c) (client c) (provider c) (signature_type c)
           (status c) (assigned_team c) (sla_days c) (created_at c)
           (updated_at c) (due_at c) (tasks row) (logs row).
Proof.
  intros Hc Hrow H1 H2 H3 H4 H5 H6 H7 H8 H9 H10.
  unfold write_columns. rewrite Hc, Hrow. cbn [same_id]. rewrite Z.eqb_refl.
  rewrite H1, H2, H3, H4, H5, H6, H7, H8, H9, H10, !written_same.
  reflexivity.
Qed.

Lemma find_map_write_columns (loaded c : Case) (key : Z) (rows : list Case)
      (r0 : Case) :
  find (fun r => same_id (id r) (Some key)) rows = Some r0 ->
  find (fun r => same_id (id r) (Some key)) (map (write_columns loaded c) rows)
  = Some (write_columns loaded c r0).
Proof.
  induction rows as [|r rows IH]; simpl; [discriminate|].
  rewrite write_columns_id.
  destruct (same_id (id r) (Some key)).
  - intros H. inversion H. reflexivity.
  - exact IH.
Qed.

Lemma commit_modified_case_logged
      (key : Z) (c0 c : Case) (l : AuditLog) (s : Session)
      (clk : nat -> datetime) (tk : nat) (rt : Runtime) :
  id c = Some key ->
  new s = [EAuditLog l] ->
  log_created_at l = None -> log_id l = None ->
  let c1 := set_updated_at (Some (clk tk)) c in
  let l' := mkAuditLog (Some (next_id log_id (audit_logs s)))
                       (log_case_id l) (log_user_id l) (log_action_name l)
                       (log_notes l) (log_meta l) (Some (clk (S tk))) in
  let s' := mkSession (teams s) (providers s) (clients s)
                      (map (write_columns c0 c1) (cases s))
                      (task_rows s) (audit_logs s ++ [l']) [] in
  commit_modified_case c0 (mkWorld (mkEnv s clk tk rt) c)
  = Ok tt (mkWorld (mkEnv s' clk (S (S tk)) rt)
                   match find (fun r => same_id (id r) (Some key)) (cases s') with
                   | Some row => loaded_case s' row
                   | None => c1
                   end).
Proof.
  intros Hid Hnew Hc Hl.
  destruct s as [ts ps cs rows trs lgs nw]. cbn [new] in Hnew. subst nw.
  destruct c as [ci ct ccl cpr csg cst cat csl ccr cup cdu cta clo].
  cbn [id] in Hid. subst ci.
  destruct l as [li lc lu la ln lm lt]. cbn [log_created_at log_id] in Hc, Hl.
  subst li lt.
  cbv zeta.
  unfold commit_modified_case, _timestamp_before_update, bind, lift_env,
    utcnow, modify_case, modify, get_case, commit_update, modify_session,
    flush,
    bind, insert, get, ret, utcnow, modify_session, modify, query_case_get,
    bind, get, ret, or_default, loaded_case.
  norm_env. cbn [env case id set_updated_at log_created_at log_id].
  norm_env.
  destruct (find _ _); reflexivity.
Qed.

Lemma commit_modified_case_tasked
      (key : Z) (c0 c : Case) (t : Task) (l : AuditLog) (s : Session)
      (clk : nat -> datetime) (tk : nat) (rt : Runtime) :
  id c = Some key ->
  new s = [ETask t; EAuditLog l] ->
  task_id t = None -> task_status t = Some OPEN ->
  log_created_at l = None -> log_id l = None ->
  let c1 := set_updated_at (Some (clk tk)) c in
  let t' := mkTask (Some (next_id task_id (task_rows s))) (task_case_id t)
                   (task_team t) (task_title t) (Some OPEN) (task_due_at t) in
  let l' := mkAuditLog (Some (next_id log_id (audit_logs s)))
                       (log_case_id l) (log_user_id l) (log_action_name l)
                       (log_notes l) (log_meta l) (Some (clk (S tk))) in
  let s' := mkSession (teams s) (providers s) (clients s)
                      (map (write_columns c0 c1) (cases s))
                      (task_rows s ++ [t']) (audit_logs s ++ [l']) [] in
  commit_modified_case c0 (mkWorld (mkEnv s clk tk rt) c)
  = Ok tt (mkWorld (mkEnv s' clk (S (S tk)) rt)
                   match find (fun r => same_id (id r) (Some key)) (cases s') with
                   | Some row => loaded_case s' row
                   | None => c1
                   end).
Proof.
  intros Hid Hnew Ht1 Ht2 Hc Hl.
  destruct s as [ts ps cs rows trs lgs nw]. cbn [new] in Hnew. subst nw.
  destruct c as [ci ct ccl cpr csg cst cat csl ccr cup cdu cta clo].
  cbn [id] in Hid. subst ci.
  destruct l as [li lc lu la ln lm lt]. cbn [log_created_at log_id] in Hc, Hl.
  subst li lt.
  destruct t as [ti tc tt_ tti tst tdu]. cbn [task_id task_status] in Ht1, Ht2.
  subst ti tst.
  cbv zeta.
  unfold commit_modified_case, _timestamp_before_update, bind, lift_env,
    utcnow, modify_case, modify, get_case, commit_update, modify_session,
    flush,
    bind, insert, get, ret, utcnow, modify_session, modify, query_case_get,
    bind, get, ret, or_default, loaded_case.
  norm_env. cbn [env case id set_updated_at log_created_at log_id task_id
                 task_status task_case_id task_team task_title task_due_at].
  norm_env.
  destruct (find _ _); reflexivity.
Qed.

(** ** "Create Case", step by step *)

Lemma ensure_provider_cases (pn : string) (e : Env) :
  new (session e) = [] ->
  match find (fun p => String.eqb (provider_name p) pn) (providers (session e)) with
  | Some p => ensure_provider pn e = Ok p e
  | None =>
      let p' := mkProvider (Some (next_id provider_id (providers (session e)))) pn in
      ensure_provider pn e
      = Ok p' (set_session (set_providers (providers (session e) ++ [p'])
                                          (session e)) e)
  end.
Proof.
  intros Hnew. unfold ensure_provider.
  unfold bind at 1. unfold query_provider_by_name, bind, get, ret.
  destruct (find (fun p => String.eqb (provider_name p) pn)
                 (providers (session e))) as [p|] eqn:Hp.
  - reflexivity.
  - fold (@bind Env). rewrite (add_and_commit_provider pn e Hnew Hp).
    reflexivity.
Qed.

Lemma ensure_client_cases (cn : string) (p : Provider) (e : Env) :
  new (session e) = [] ->
  match find (fun c => String.eqb (client_name c) cn) (clients (session e)) with
  | Some c => ensure_client cn p e = Ok c e
  | None =>
      let c' := mkClient (Some (next_id client_id (clients (session e)))) cn
                         None (Some p) (Some false) in
      ensure_client cn p e
      = Ok c' (set_session (set_clients (clients (session e) ++ [c'])
                                        (session e)) e)
  end.
Proof.
  intros Hnew. unfold ensure_client.
  unfold bind at 1. unfold query_client_by_name, bind, get, ret.
  destruct (find (fun c => String.eqb (client_name c) cn)
                 (clients (session e))) as [c|] eqn:Hc.
  - reflexivity.
  - rewrite (add_and_commit_client _ e Hnew). reflexivity.
Qed.

Lemma next_id_fresh {A} (pk : A -> option Z) (rows : list A) (r : A) :
  In r rows -> pk r <> Some (next_id pk rows).
Proof.
  intros Hin Heq. pose proof (next_id_above pk rows r _ Hin Heq). lia.
Qed.

Lemma write_columns_other (loaded c row : Case) (i : Z) :
  id c = Some i -> id row <> Some i -> write_columns loaded c row = row.
Proof.
  intros Hc Hrow. unfold write_columns. rewrite Hc.
  destruct (id row) as [j|]; [|reflexivity].
  cbn [same_id]. destruct (Z.eqb_spec j i); [|reflexivity].
  subst. contradiction.
Qed.

Lemma map_write_columns_others (loaded c : Case) (i : Z) (rows : list Case) :
  id c = Some i ->
  (forall r, In r rows -> id r <> Some i) ->
  map (write_columns loaded c) rows = rows.
Proof.
  intros Hc Hrows. induction rows as [|r rows IH]; [reflexivity|].
  cbn [map].
  rewrite (write_columns_other loaded c r i Hc)
    by (apply Hrows; left; reflexivity).
  rewrite IH; [reflexivity|]. intros r' Hr'. apply Hrows. right. exact Hr'.
Qed.

Lemma find_fresh_key (rows : list Case) (row : Case) :
  id row = Some (next_id id rows) ->
  find (fun r => same_id (id r) (Some (next_id id rows))) (rows ++ [row])
  = Some row.
Proof.
  intros Hid. apply find_app_last.
  - intros r Hr. destruct (id r) as [j|] eqn:Hj; [|reflexivity].
    cbn [same_id]. apply Z.eqb_neq.
    pose proof (next_id_above id _ r j Hr Hj). lia.
  - rewrite Hid. cbn [same_id]. apply Z.eqb_refl.
Qed.

(** The whole effect of "Create Case", in one equation: a case whose SLA
    fits the Integer column is persisted with its audit entry; one whose
    SLA does not is refused by the database when the case is committed,
    after the provider and the client were. *)
Lemma create_case_exact
      (ttl cn pn : string) (sig : SignatureType) (sla : Z)
      (user : option User) (e : Env) :
  let s := session e in
  let p := upserted_provider pn (providers s) in
  let c := upserted_client cn p (clients s) in
  let i := next_id id (cases s) in
  let row := mkCase (Some i) ttl c p sig DRAFT (routed_team (teams s) DRAFT)
                    sla (Some (clock e (ticks e)))
                    (Some (clock e (S (S (ticks e))))) None [] [] in
  let l := mkAuditLog (Some (next_id log_id (audit_logs s))) (Some i)
                      (match user with Some u => user_id u | None => None end)
                      "created" "Case created" []
                      (Some (clock e (S (S (S (ticks e)))))) in
  page_cases_create_case ttl cn pn sig sla user e
  = if INTEGER_in_range (dialect (runtime e)) sla
    then Ok (Some i)
            (mkEnv (mkSession (teams s) (providers_after pn (providers s))
                              (clients_after cn p (clients s))
                              (cases s ++ [row]) (task_rows s)
                              (audit_logs s ++ [l]) [])
                   (clock e) (S (S (S (S (ticks e))))) (runtime e))
    else Raise (INTEGER_out_of_range (dialect (runtime e)))
               (mkEnv (mkSession (teams s) (providers_after pn (providers s))
                                 (clients_after cn p (clients s))
                                 (cases s) (task_rows s) (audit_logs s) [])
                      (clock e) (S (S (ticks e))) (runtime e)).
Proof.
  destruct e as [[ts ps cs rows trs lgs nw] clk tk rt].
  cbv zeta. unfold page_cases_create_case.
  unfold bind at 1. unfold SessionLocal, modify_session, modify.
  norm_env.
  match goal with
  | |- context [bind (ensure_provider pn) _ ?e0] =>
      pose proof (ensure_provider_cases pn e0 eq_refl) as Ep
  end.
  norm_env in Ep.
  unfold upserted_provider, providers_after. revert Ep.
  destruct (find (fun p => String.eqb (provider_name p) pn) ps) as [p|];
    intros Ep; unfold bind at 1; rewrite Ep; clear Ep;
    match goal with
    | |- context [bind (ensure_client cn ?p) _ ?e1] =>
        pose proof (ensure_client_cases cn p e1 eq_refl) as Ec
    end;
    norm_env in Ec;
    unfold upserted_client, clients_after; revert Ec;
    destruct (find (fun c => String.eqb (client_name c) cn) cs) as [c|];
    intros Ec; unfold bind at 1; rewrite Ec; clear Ec;
    unfold bind at 1; unfold with_case at 1; rewrite assign_next_team_run;
    cbn [env case snd session teams status];
    unfold bind at 1;
    (destruct (INTEGER_in_range (dialect rt) sla) eqn:Hr;
    [ rewrite add_and_commit_case by (try reflexivity; exact Hr);
      cbn -[next_id routed_team bind with_case log_action commit_modified_case];
      unfold bind at 1; unfold with_case at 1; rewrite log_action_run;
      cbn -[next_id routed_team bind commit_modified_case];
      unfold bind at 1; unfold with_case at 1;
      norm_env;
      (erewrite (commit_modified_case_logged (next_id id rows));
       [| reflexivity | reflexivity | reflexivity | reflexivity]);
      cbv zeta; norm_env;
      rewrite map_app;
      rewrite (map_write_columns_others _ _ (next_id id rows))
        by (try reflexivity; intros r Hr'; apply next_id_fresh; exact Hr');
      cbn [map];
      rewrite (write_columns_of_loaded _ _ _ (next_id id rows))
        by reflexivity;
      cbn [id set_updated_at append_log];
      rewrite find_fresh_key by reflexivity;
      cbn -[next_id routed_team];
      reflexivity
    | rewrite add_and_commit_case_refused by (try reflexivity; exact Hr);
      reflexivity ]).
Qed.

(** "Create Case" returns the key of a new case exactly when the SLA fits
    the Integer column of the database. *)
Lemma create_case_returns
      (ttl cn pn : string) (sig : SignatureType) (sla : Z)
      (user : option User) (e : Env) :
  INTEGER_in_range (dialect (runtime e)) sla = true <->
  exists (i : Z) (e' : Env),
    page_cases_create_case ttl cn pn sig sla user e = Ok (Some i) e'.
Proof.
  rewrite create_case_exact. cbv zeta.
  destruct (INTEGER_in_range (dialect (runtime e)) sla).
  - split; [|reflexivity]. intros _. eexists. eexists. reflexivity.
  - split; [discriminate|]. intros (i & e' & H). discriminate.
Qed.

(** What "Create Case" has persisted opens on the detail page as a case
    in DRAFT with the SLA of the form, no due date and the team hinted
    for DRAFT. *)
Lemma created_case_opens_in_draft
      (ttl cn pn : string) (sig : SignatureType) (sla : Z)
      (user : option User) (e : Env) (i : Z) (e' : Env) :
  page_cases_create_case ttl cn pn sig sla user e = Ok (Some i) e' ->
  exists w : World,
    opened_case i e' = Some w /\
    env w = e' /\
    status (case w) = DRAFT /\
    sla_days (case w) = sla /\
    due_at (case w) = None /\
    assigned_team (case w) = routed_team (teams (session e)) DRAFT.
Proof.
  rewrite create_case_exact. cbv zeta.
  destruct (INTEGER_in_range (dialect (runtime e)) sla); [|discriminate].
  intros H. inversion H as [[Hi He]]. clear H.
  unfold opened_case, query_case_get, bind, get, ret.
  cbn [session cases]. rewrite find_fresh_key by reflexivity.
  eexists. split; [reflexivity|].
  cbn [env case status sla_days due_at assigned_team]. auto.
Qed.
(** ** Rejected actions *)

(** C1: for every case and every action label such that
    [(case.status, action_label)] is not a key of [TRANSITIONS],
    [apply_transition] returns [False] and leaves the whole state as it
    was: the case (status, due_at, assigned_team, tasks, logs and every
    other attribute), the session with its pending objects (no Task, no
    AuditLog is added) and the clock (it is not even read). *)
Theorem C1_illegal_transition_changes_nothing
        (w : World) (user : option User) (action_label notes : string) :
  ~ In (status (case w), action_label) (map fst TRANSITIONS) ->
  apply_transition user action_label notes w = Ok false w.
Proof.
  intros H. apply apply_transition_illegal.
  apply (dict_get_None key_eqb key_eqb_eq). exact H.
Qed.

Lemma C1_witness :
  ~ In (status (case fresh_world), "Complete Case") (map fst TRANSITIONS) /\
  apply_transition None "Complete Case" "note" fresh_world = Ok false fresh_world.
Proof.
  assert (H : ~ In (status (case fresh_world), "Complete Case")
                   (map fst TRANSITIONS)).
  { apply in_TRANSITIONS_false. vm_compute. reflexivity. }
  split; [exact H|].
  apply (C1_illegal_transition_changes_nothing fresh_world None
           "Complete Case" "note" H).
Defined.

(** ** Tasks and audit entries *)

(** The final transition into COMPLETED returns [True] and creates an
    audit entry but no task: COMPLETED has no team hint. *)
Lemma C2_counterexample :
  status (case io_closed_world) = IO_CLOSED_NEW_FEE /\
  In (status (case io_closed_world), "Complete Case") (map fst TRANSITIONS) /\
  exists w',
    apply_transition None "Complete Case" "" io_closed_world = Ok true w' /\
    status (case w') = COMPLETED /\
    tasks (case w') = tasks (case io_closed_world) /\
    created_tasks io_closed_world w' = 0 /\
    created_logs io_closed_world w' = 1.
Proof.
  split; [vm_compute; reflexivity|]. split.
  - vm_compute. do 8 right. left. reflexivity.
  - eexists. split; [vm_compute; reflexivity|].
    vm_compute. repeat split; reflexivity.
Qed.

(** C2, as the code has it: every call of [apply_transition] that returns
    [True] creates exactly one audit entry; it creates exactly one task,
    open and owned by the newly assigned team, when the routing step
    assigned a team, and no task when it assigned none, as for the final
    transition into COMPLETED. *)
Theorem C2_one_audit_entry_and_one_task_per_assigned_team
        (w w' : World) (user : option User) (action_label notes : string) :
  apply_transition user action_label notes w = Ok true w' ->
  created_logs w w' = 1 /\
  created_tasks w w' = match assigned_team (case w') with
                      | Some _ => 1
                      | None => 0
                      end /\
  (status (case w') = COMPLETED -> tasks (case w') = tasks (case w)) /\
  exists entry,
    logs (case w') = logs (case w) ++ [entry] /\
    match assigned_team (case w') with
    | Some team =>
        exists task,
          task_team task = Some team /\
          task_status task = Some OPEN /\
          tasks (case w') = tasks (case w) ++ [task] /\
          new (session (env w'))
            = new (session (env w)) ++ [ETask task; EAuditLog entry]
    | None =>
        tasks (case w') = tasks (case w) /\
        new (session (env w')) = new (session (env w)) ++ [EAuditLog entry]
    end.
Proof.
  intros H.
  destruct (apply_transition_true_fields _ _ _ _ _ H)
    as (ns & act & _ & Hst & _ & Hteam & _ & _ & _ & _ & _ & _ &
        entry & _ & _ & _ & _ & Hlogs & Hrest).
  unfold created_logs, created_tasks.
  split; [rewrite Hlogs, length_app; simpl; lia|].
  split; [|split].
  - destruct (assigned_team (case w')) as [team|].
    + destruct Hrest as (task & _ & _ & _ & _ & _ & Htasks & _).
      rewrite Htasks, length_app. simpl. lia.
    + destruct Hrest as [Htasks _]. rewrite Htasks. lia.
  - intros Hc. rewrite Hst in Hc. subst ns.
    rewrite Hteam, Hc in Hrest. exact (proj1 Hrest).
  - exists entry. split; [exact Hlogs|].
    destruct (assigned_team (case w')) as [team|].
    + destruct Hrest as (task & Ht & Hs & _ & _ & _ & Htasks & Hnew).
      exists task. auto.
    + exact Hrest.
Qed.

Lemma C2_witness :
  exists w',
    apply_transition None "Mark Ready to Send" "" fresh_world = Ok true w' /\
    created_logs fresh_world w' = 1 /\
    created_tasks fresh_world w' = 1.
Proof.
  eexists. split; [vm_compute; reflexivity|].
  match goal with
  | |- created_logs _ ?w' = _ /\ _ =>
      pose proof (C2_one_audit_entry_and_one_task_per_assigned_team
                    fresh_world w' None "Mark Ready to Send" "" eq_refl)
        as (Hlogs & Htasks & _)
  end.
  split; [exact Hlogs | exact Htasks].
Defined.

(** ** Routing *)

(** "Mark Client Opted Out" moves the case into CLIENT_OPTED_OUT, which
    has no outgoing transition, and assigns the team "Support Hub". *)
Lemma C3_counterexample :
  status (case sent_world) = SENT_TO_CLIENT /\
  exists w',
    apply_transition None "Mark Client Opted Out" "" sent_world = Ok true w' /\
    status (case w') = CLIENT_OPTED_OUT /\
    available (status (case w')) = [] /\
    NEXT_TEAM_HINT_get (status (case w')) = Some "Support Hub" /\
    assigned_team (case w') = Some (mkTeam (Some 6) "Support Hub").
Proof.
  split; [vm_compute; reflexivity|].
  eexists. split; [vm_compute; reflexivity|].
  vm_compute. repeat split; reflexivity.
Qed.

(** C3, as the code has it: [apply_transition] recomputes the assigned
    team from [NEXT_TEAM_HINT] keyed by the new status: the first team of
    the team table that bears the hinted name, and none when the table
    has no hint for the status.  A transition into COMPLETED leaves the
    case with no assigned team.  A transition into CLIENT_OPTED_OUT, for
    which the hint is "Support Hub", assigns a team of the table that is
    named "Support Hub" whenever the table has one, and leaves the case
    with no assigned team exactly when it has none. *)
Theorem C3_assigned_team_follows_hint_of_new_status
        (w w' : World) (user : option User) (action_label notes : string) :
  apply_transition user action_label notes w = Ok true w' ->
  assigned_team (case w')
    = match NEXT_TEAM_HINT_get (status (case w')) with
      | Some hint =>
          find (fun t => String.eqb (team_name t) hint)
               (teams (session (env w)))
      | None => None
      end /\
  (status (case w') = COMPLETED -> assigned_team (case w') = None) /\
  (status (case w') = CLIENT_OPTED_OUT ->
   assigned_team (case w')
     = find (fun t => String.eqb (team_name t) "Support Hub")
            (teams (session (env w))) /\
   ((exists t, In t (teams (session (env w))) /\ team_name t = "Support Hub") ->
    exists t, assigned_team (case w') = Some t /\
              In t (teams (session (env w))) /\
              team_name t = "Support Hub") /\
   (assigned_team (case w') = None <->
    forall t, In t (teams (session (env w))) -> team_name t <> "Support Hub")).
Proof.
  intros H.
  destruct (apply_transition_true_fields _ _ _ _ _ H)
    as (ns & act & _ & Hst & _ & Hteam & _).
  rewrite Hteam, Hst.
  split; [|split].
  - unfold routed_team. destruct ns; reflexivity.
  - intros ->. reflexivity.
  - intros ->.
    change (routed_team (teams (session (env w))) CLIENT_OPTED_OUT)
      with (find (fun t => String.eqb (team_name t) "Support Hub")
                 (teams (session (env w)))).
    split; [reflexivity|]. split.
    + intros Hex. destruct (find_team_present _ _ Hex) as (t & Hfind & Hin & Hn).
      exists t. auto.
    + split.
      * intros Hnone t Hin Hn.
        destruct (find_team_present "Support Hub" _ (ex_intro _ t (conj Hin Hn)))
          as (t' & Hfind & _).
        rewrite Hnone in Hfind. discriminate.
      * apply find_team_absent.
Qed.

Lemma C3_witness :
  exists w',
    apply_transition None "Complete Case" "" io_closed_world = Ok true w' /\
    status (case w') = COMPLETED /\
    assigned_team (case w') = None.
Proof.
  eexists. split; [vm_compute; reflexivity|].
  split; [vm_compute; reflexivity|].
  match goal with
  | |- assigned_team (case ?w') = None =>
      apply (proj1 (proj2 (C3_assigned_team_follows_hint_of_new_status
                             io_closed_world w' None "Complete Case" ""
                             eq_refl)))
  end.
  vm_compute. reflexivity.
Defined.

(** ** The SLA due date *)

(** C4: every call of [apply_transition] that returns [True] sets
    [case.due_at] to the time the call read from the clock plus
    [case.sla_days] days, whatever [created_at] and the previous [due_at]
    were; for a case created at time [T] with [sla_days = 10], a
    transition one day later yields [T] plus eleven days. *)
Theorem C4_due_at_is_now_plus_sla_days
        (w w' : World) (user : option User) (action_label notes : string) :
  apply_transition user action_label notes w = Ok true w' ->
  let now := clock (env w) (ticks (env w)) in
  due_at (case w') = Some (now + sla_days (case w) * MICROSECONDS_PER_DAY) /\
  forall T : datetime,
    created_at (case w) = Some T ->
    sla_days (case w) = 10 ->
    now = T + 1 * MICROSECONDS_PER_DAY ->
    due_at (case w') = Some (T + (1 + 10) * MICROSECONDS_PER_DAY) /\
    due_at (case w') <> Some (T + 10 * MICROSECONDS_PER_DAY).
Proof.
  intros H now.
  destruct (apply_transition_true_fields _ _ _ _ _ H)
    as (ns & act & _ & _ & Hdue & _).
  unfold days in Hdue. fold now in Hdue.
  split; [exact Hdue|].
  intros T _ Hsla Hnow. rewrite Hdue, Hsla, Hnow.
  split.
  - f_equal. lia.
  - intros E. inversion E as [E']. unfold MICROSECONDS_PER_DAY in E'. lia.
Qed.

Lemma C4_witness :
  exists w',
    apply_transition None "Mark Ready to Send" "" next_day_world = Ok true w' /\
    created_at (case next_day_world) = Some T_2024 /\
    due_at (case next_day_world) = None /\
    due_at (case w') = Some (T_2024 + (1 + 10) * MICROSECONDS_PER_DAY).
Proof.
  eexists. split; [vm_compute; reflexivity|].
  split; [reflexivity|]. split; [reflexivity|].
  match goal with
  | |- due_at (case ?w') = _ =>
      apply (proj2 (C4_due_at_is_now_plus_sla_days
                      next_day_world w' None "Mark Ready to Send" "" eq_refl)
                   T_2024)
  end; vm_compute; reflexivity.
Defined.

(** ** The legal path *)

Ltac path_step Hst Hfit w1 :=
  match goal with
  | |- exists w', apply_path ?user (?label :: ?rest) ?w = _ /\ _ =>
      let E := fresh "E" in
      let T := fresh "T" in
      let A := fresh "A" in
      let F := fresh "F" in
      let S' := fresh "S" in
      match type of Hst with
      | status (case w) = ?st =>
          match eval vm_compute in (dict_get key_eqb (st, label) TRANSITIONS) with
          | Some (?ns, ?act) =>
              match type of Hfit with
              | dates_fit (S (S ?k)) _ =>
                  destruct (apply_transition_step user label "" w ns act k)
                    as (w1 & E & F & S' & A & T);
                  [rewrite Hst; reflexivity | exact Hfit |];
                  rewrite (apply_path_cons_true user label rest w w1 E);
                  try rewrite T in *;
                  clear E Hst Hfit; rename S' into Hst; rename F into Hfit
              end
          end
      end
  end.

(** From any case in DRAFT the eight labels go through, as long as the
    dates computed on the way are representable. *)
Lemma legal_path_from_draft (w : World) (user : option User) :
  status (case w) = DRAFT ->
  dates_fit 16 w ->
  exists w',
    apply_path user legal_path w = Ok true w' /\
    status (case w') = COMPLETED /\
    assigned_team (case w') = None.
Proof.
  intros Hst Hfit. unfold legal_path.
  path_step Hst Hfit w1. path_step Hst Hfit w2. path_step Hst Hfit w3.
  path_step Hst Hfit w4. path_step Hst Hfit w5. path_step Hst Hfit w6.
  path_step Hst Hfit w7. path_step Hst Hfit w8.
  exists w8. split; [reflexivity|]. split; [exact Hst|].
  match goal with A : assigned_team (case w8) = _ |- _ => rewrite A end.
  reflexivity.
Qed.

(** The path has eight labels, and the table has nine.  The nine labels
    do not go through in order; no list of nine labels does; and a case
    whose SLA window does not fit the calendar stops at the first step
    with an [OverflowError]. *)
Lemma C5_counterexample :
  List.length legal_path = 8%nat /\
  List.length (statuses_along DRAFT legal_path) = 8%nat /\
  last (statuses_along DRAFT legal_path) DRAFT = COMPLETED /\
  (exists w', apply_path None all_labels fresh_world = Ok false w' /\
              status (case w') = CLIENT_SIGNED) /\
  ~ (exists (labels : list string) (w' : World),
        List.length labels = 9%nat /\
        apply_path None labels fresh_world = Ok true w') /\
  (status (case long_sla_world) = DRAFT /\
   exists w', apply_path None legal_path long_sla_world
              = Raise OverflowError w').
Proof.
  split; [reflexivity|]. split; [reflexivity|]. split; [reflexivity|].
  split; [|split].
  - eexists. split; vm_compute; reflexivity.
  - intros (labels & w' & Hlen & Hrun).
    apply apply_path_length in Hrun. rewrite Hlen in Hrun.
    vm_compute in Hrun. lia.
  - split; [reflexivity|]. eexists. vm_compute. reflexivity.
Qed.

(** C5, as the code has it: a case that "Create Case" has persisted, as
    it does whenever the SLA fits the Integer column of the database,
    opens in DRAFT, and from there applying the eight action labels of
    the legal path DRAFT, READY_TO_SEND, SENT_TO_CLIENT, CLIENT_SIGNED,
    RECEIVED_PAPERWORK, SUBMITTED_TO_PROVIDER, PROVIDER_UPLIFTED,
    IO_CLOSED_NEW_FEE, COMPLETED in order returns [True] at every step,
    provided the due dates computed on the way are representable dates;
    the case ends in COMPLETED with no assigned team. *)
Theorem C5_legal_path_reaches_completed
        (ttl cn pn : string) (sig : SignatureType) (sla : Z)
        (creator : option User) (e : Env) :
  (INTEGER_in_range (dialect (runtime e)) sla = true ->
   exists (i : Z) (e' : Env),
     page_cases_create_case ttl cn pn sig sla creator e = Ok (Some i) e') /\
  forall (i : Z) (e' : Env),
    page_cases_create_case ttl cn pn sig sla creator e = Ok (Some i) e' ->
    exists w : World,
      opened_case i e' = Some w /\
      status (case w) = DRAFT /\
      forall user : option User,
        dates_fit 16 w ->
        exists w',
          apply_path user legal_path w = Ok true w' /\
          status (case w') = COMPLETED /\
          assigned_team (case w') = None.
Proof.
  split.
  - apply create_case_returns.
  - intros i e' Hrun.
    destruct (created_case_opens_in_draft _ _ _ _ _ _ _ _ _ Hrun)
      as (w & Hopen & _ & Hst & _).
    exists w. split; [exact Hopen|]. split; [exact Hst|].
    intros user Hfit. exact (legal_path_from_draft w user Hst Hfit).
Qed.

Lemma C5_witness :
  dates_fit 16 fresh_world /\
  exists e',
    page_cases_create_case "Fee uplift — client letter" "Alice" "Aviva"
                           DOCUSIGN 10 None seeded_env = Ok (Some 1) e' /\
    opened_case 1 e' = Some fresh_world /\
    exists w',
      apply_path None legal_path fresh_world = Ok true w' /\
      status (case w') = COMPLETED /\
      assigned_team (case w') = None.
Proof.
  assert (Hfit : dates_fit 16 fresh_world).
  { split.
    - vm_compute. discriminate.
    - intros i Hi. simpl in Hi.
      unfold datetime_in_range. rewrite !andb_true_iff, !Z.leb_le, !Z.ltb_lt.
      simpl clock. simpl sla_days.
      unfold clock_from, days, T_2024, DATETIME_END, MAX_ORDINAL,
        MICROSECONDS_PER_DAY. lia. }
  split; [exact Hfit|].
  eexists.
  match goal with
  | |- ?run = ?r /\ _ => assert (Hrun : run = r) by (vm_compute; reflexivity)
  end.
  split; [exact Hrun|].
  destruct (proj2 (C5_legal_path_reaches_completed
                     "Fee uplift — client letter" "Alice" "Aviva" DOCUSIGN 10
                     None seeded_env) _ _ Hrun)
    as (w & Hopen & _ & Hpath).
  assert (Hw : w = fresh_world).
  { vm_compute in Hopen. inversion Hopen. reflexivity. }
  subst w. split; [exact Hopen|]. exact (Hpath None Hfit).
Defined.
(** ** The transition table *)

(** C6: for every entry [(from_status, action_label) : (to_status, _)] of
    [TRANSITIONS] the pair [(to_status, action_label)] is not a key, so
    after a call that returned [True] a second call with the same label
    returns [False] and changes nothing. *)
Theorem C6_same_label_is_rejected_after_success :
  (forall (from_status to_status : CaseStatus) (action_label audit_action : string),
      In ((from_status, action_label), (to_status, audit_action)) TRANSITIONS ->
      ~ In (to_status, action_label) (map fst TRANSITIONS)) /\
  (forall (w w' : World) (user : option User) (action_label notes : string),
      apply_transition user action_label notes w = Ok true w' ->
      forall (user' : option User) (notes' : string),
        apply_transition user' action_label notes' w' = Ok false w').
Proof.
  assert (Htable :
    forall (from_status to_status : CaseStatus) (action_label audit_action : string),
      In ((from_status, action_label), (to_status, audit_action)) TRANSITIONS ->
      dict_get key_eqb (to_status, action_label) TRANSITIONS = None).
  { intros f t l a H. unfold TRANSITIONS in H. simpl in H.
    repeat (destruct H as [H|H]; [inversion H; subst; reflexivity|]).
    contradiction. }
  split.
  - intros f t l a H. apply (dict_get_None key_eqb key_eqb_eq).
    exact (Htable f t l a H).
  - intros w w' user l notes H user' notes'.
    destruct (apply_transition_true_fields _ _ _ _ _ H)
      as (ns & act & Hget & Hst & _).
    apply apply_transition_illegal. rewrite Hst.
    apply (Htable (status (case w)) ns l act).
    apply (dict_get_Some_In key_eqb key_eqb_eq). exact Hget.
Qed.

Lemma C6_witness :
  In ((DRAFT, "Mark Ready to Send"), (READY_TO_SEND, "ready_to_send"))
     TRANSITIONS /\
  ~ In (READY_TO_SEND, "Mark Ready to Send") (map fst TRANSITIONS) /\
  exists w',
    apply_transition None "Mark Ready to Send" "" fresh_world = Ok true w' /\
    apply_transition None "Mark Ready to Send" "" w' = Ok false w'.
Proof.
  assert (Hin : In ((DRAFT, "Mark Ready to Send"),
                    (READY_TO_SEND, "ready_to_send")) TRANSITIONS)
    by (left; reflexivity).
  split; [exact Hin|].
  split; [exact (proj1 C6_same_label_is_rejected_after_success _ _ _ _ Hin)|].
  eexists. split; [vm_compute; reflexivity|].
  match goal with
  | |- apply_transition _ _ _ ?w' = _ =>
      exact (proj2 C6_same_label_is_rejected_after_success
                   fresh_world w' None "Mark Ready to Send" "" eq_refl None "")
  end.
Defined.

(** C7: in [TRANSITIONS] the statuses CLIENT_OPTED_OUT and COMPLETED are
    the source of no transition, and each of the other eight statuses is
    the source of exactly one or exactly two transitions, keyed by
    distinct action labels (no label occurs twice in the whole table). *)
Theorem C7_outgoing_transitions :
  available CLIENT_OPTED_OUT = [] /\
  available COMPLETED = [] /\
  (forall s : CaseStatus,
      s <> CLIENT_OPTED_OUT -> s <> COMPLETED ->
      (List.length (available s) = 1%nat \/ List.length (available s) = 2%nat) /\
      NoDup (available s)) /\
  (forall (s : CaseStatus) (label : string),
      In label (available s) <-> In (s, label) (map fst TRANSITIONS)) /\
  NoDup all_labels /\
  (forall s : CaseStatus, In s all_statuses) /\
  NoDup all_statuses /\
  List.length (filter (fun s => negb (CaseStatus_eqb s CLIENT_OPTED_OUT)
                                && negb (CaseStatus_eqb s COMPLETED))
                      all_statuses) = 8%nat.
Proof.
  split; [reflexivity|]. split; [reflexivity|].
  split; [|split; [|split; [|split; [|split]]]].
  - intros s H1 H2.
    destruct s; try congruence; vm_compute available;
      (split; [first [left; reflexivity | right; reflexivity]|]);
      repeat (constructor; [simpl; intros H;
                            repeat (destruct H as [H|H]; [discriminate H|]);
                            exact H|]);
      constructor.
  - intros s label. unfold available. rewrite in_map_iff. split.
    + intros ([[s' l'] v] & Hl & Hin). apply filter_In in Hin.
      destruct Hin as [Hin Hs]. simpl in Hl, Hs. subst l'.
      apply CaseStatus_eqb_eq in Hs. subst s'.
      change (s, label) with (fst ((s, label), v)). apply in_map. exact Hin.
    + intros Hin. apply in_map_iff in Hin. destruct Hin as ([k v] & Hk & Hin).
      simpl in Hk. subst k. exists ((s, label), v). split; [reflexivity|].
      apply filter_In. split; [exact Hin|]. simpl.
      apply CaseStatus_eqb_eq. reflexivity.
  - vm_compute all_labels.
    repeat (constructor; [simpl; intros H;
                          repeat (destruct H as [H|H]; [discriminate H|]);
                          exact H|]).
    constructor.
  - intros s. destruct s; simpl; tauto.
  - unfold all_statuses.
    repeat (constructor; [simpl; intros H;
                          repeat (destruct H as [H|H]; [discriminate H|]);
                          exact H|]).
    constructor.
  - reflexivity.
Qed.

Lemma C7_witness :
  List.length (available DRAFT) = 1%nat /\
  List.length (available SENT_TO_CLIENT) = 2%nat /\
  NoDup (available SENT_TO_CLIENT).
Proof.
  split; [reflexivity|]. split; [reflexivity|].
  apply (proj1 (proj2 (proj2 C7_outgoing_transitions)) SENT_TO_CLIENT);
    discriminate.
Defined.

(** ** Case creation *)

(** C8 on the code: "Create Case" with the name fields left empty is not
    rejected.  On a seeded database it returns the key of a new case after
    persisting a provider and a client whose names are empty, the case and
    its "created" audit entry; the "Add provider" and "Add team" forms of
    the admin page, given the same empty name, persist nothing. *)
Theorem C8_empty_names_are_persisted :
  (exists e',
      page_cases_create_case "Fee uplift — client letter" "" "" DOCUSIGN 10
                             None seeded_env = Ok (Some 1) e' /\
      providers (session e') = [mkProvider (Some 1) ""] /\
      map client_name (clients (session e')) = [""] /\
      map status (cases (session e')) = [DRAFT] /\
      map log_action_name (audit_logs (session e')) = ["created"] /\
      new (session e') = []) /\
  page_admin_add_provider "" seeded_env = Ok tt seeded_env /\
  page_admin_add_team "" seeded_env = Ok tt seeded_env.
Proof.
  split; [|split; reflexivity].
  eexists. split; [vm_compute; reflexivity|].
  vm_compute. repeat split; reflexivity.
Qed.

(** ** A hinted team that does not exist *)


(** C10: when [NEXT_TEAM_HINT] names a team for the new status and the
    team table has no team of that name, [assign_next_team] sets
    [case.assigned_team] to [None]; [create_task_for_case] then returns
    without creating anything, so the transition, which still returns
    [True] and records its audit entry, creates no task. *)
Theorem C10_hinted_team_missing_gives_no_team_and_no_task
        (w : World) (hint : string) :
  (forall t, In t (teams (session (env w))) -> team_name t <> hint) ->
  (forall c : Case,
      NEXT_TEAM_HINT_get (status c) = Some hint ->
      assign_next_team (mkWorld (env w) c)
        = Ok tt (mkWorld (env w) (set_assigned_team None c))) /\
  (forall (w0 : World) (title : string) (due_days : Z),
      assigned_team (case w0) = None ->
      create_task_for_case title due_days w0 = Ok tt w0) /\
  (forall (w' : World) (user : option User) (action_label notes : string),
      apply_transition user action_label notes w = Ok true w' ->
      NEXT_TEAM_HINT_get (status (case w')) = Some hint ->
      assigned_team (case w') = None /\
      tasks (case w') = tasks (case w) /\
      exists entry,
        logs (case w') = logs (case w) ++ [entry] /\
        new (session (env w')) = new (session (env w)) ++ [EAuditLog entry]).
Proof.
  intros Hmissing. apply find_team_absent in Hmissing.
  split; [|split].
  - intros c Hhint. rewrite assign_next_team_run.
    cbn [env case]. unfold routed_team. rewrite Hhint, Hmissing.
    destruct (String.eqb hint ""); reflexivity.
  - intros w0 title due_days H. apply create_task_for_case_unassigned. exact H.
  - intros w' user label notes H Hhint.
    destruct (apply_transition_true_fields _ _ _ _ _ H)
      as (ns & act & _ & Hst & _ & Hteam & _ & _ & _ & _ & _ & _ &
          entry & _ & _ & _ & _ & Hlogs & Hrest).
    assert (Hnone : assigned_team (case w') = None).
    { rewrite Hteam. unfold routed_team. rewrite <- Hst, Hhint, Hmissing.
      destruct (String.eqb hint ""); reflexivity. }
    rewrite Hnone in Hrest. destruct Hrest as [Htasks Hnew].
    split; [exact Hnone|]. split; [exact Htasks|].
    exists entry. split; [exact Hlogs | exact Hnew].
Qed.

Lemma C10_witness :
  (forall t, In t (teams (session (env custom_teams_world))) ->
             team_name t <> "Admin Solution") /\
  exists w',
    apply_transition None "Mark Ready to Send" "" custom_teams_world
      = Ok true w' /\
    NEXT_TEAM_HINT_get (status (case w')) = Some "Admin Solution" /\
    assigned_team (case w') = None /\
    tasks (case w') = tasks (case custom_teams_world).
Proof.
  assert (Hmissing : forall t,
             In t (teams (session (env custom_teams_world))) ->
             team_name t <> "Admin Solution").
  { simpl. intros t [<-|[]]. discriminate. }
  split; [exact Hmissing|].
  eexists. split; [vm_compute; reflexivity|].
  split; [reflexivity|].
  match goal with
  | |- assigned_team (case ?w') = None /\ _ =>
      destruct (proj2 (proj2 (C10_hinted_team_missing_gives_no_team_and_no_task
                                custom_teams_world "Admin Solution" Hmissing))
                      w' None "Mark Ready to Send" "" eq_refl eq_refl)
        as (Hteam & Htasks & _)
  end.
  split; [exact Hteam | exact Htasks].
Defined.


(** ** More on the engine *)

(** What a call with a key of the table does, case by case. *)
Lemma apply_transition_on_key (user : option User) (label notes : string)
      (w : World) (new_status : CaseStatus) (audit_action : string) :
  dict_get key_eqb (status (case w), label) TRANSITIONS
    = Some (new_status, audit_action) ->
  let e := env w in
  let s := session e in
  let c0 := set_status new_status (case w) in
  let c1 := set_due_at (Some (clock e (ticks e) + days (sla_days (case w)))) c0 in
  let team := routed_team (teams s) new_status in
  let c2 := set_assigned_team team c1 in
  let entry := audit_entry c2 user audit_action notes in
  apply_transition user label notes w =
  if negb (Z.abs (sla_days (case w)) <=? MAX_DELTA_DAYS)
  then Raise OverflowError (mkWorld (mkEnv s (clock e) (S (ticks e)) (runtime e)) c0)
  else if negb (datetime_in_range (clock e (ticks e) + days (sla_days (case w))))
  then Raise OverflowError (mkWorld (mkEnv s (clock e) (S (ticks e)) (runtime e)) c0)
  else match team with
       | None =>
           Ok true (mkWorld
                      (mkEnv (set_new (new s ++ [EAuditLog entry]) s)
                             (clock e) (S (ticks e)) (runtime e))
                      (append_log entry c2))
       | Some t =>
           if datetime_in_range (clock e (S (ticks e)) + days 5)
           then
             let task := follow_up_task (runtime e) c2 t new_status
                                        (clock e (S (ticks e)) + days 5) in
             Ok true (mkWorld
                        (mkEnv (set_new ((new s ++ [ETask task]) ++ [EAuditLog entry]) s)
                               (clock e) (S (S (ticks e))) (runtime e))
                        (append_log entry (append_task task c2)))
           else Raise OverflowError
                      (mkWorld (mkEnv s (clock e) (S (S (ticks e))) (runtime e))
                               c2)
       end.
Proof.
  intros Hget. destruct w as [[s clk tk rt] c]. cbn [case env] in *.
  cbv zeta. cbn [session clock ticks runtime].
  unfold apply_transition.
  unfold bind at 1. unfold get_case at 1. cbn [case env]. rewrite Hget.
  unfold bind, modify_case, modify, lift_env, utcnow, get_case, timedelta_days.
  cbn [env session clock ticks case sla_days set_status].
  destruct (Z.abs (sla_days c) <=? MAX_DELTA_DAYS); [|reflexivity].
  unfold ret, datetime_add. fold (days (sla_days c)).
  destruct (datetime_in_range (clk tk + days (sla_days c))); [|reflexivity].
  unfold ret. rewrite assign_next_team_run. unfold get_runtime.
  cbn [env session clock ticks runtime case status set_due_at set_status teams
       negb].
  destruct (routed_team (teams s) new_status) as [t|] eqn:Ht.
  - unfold create_task_for_case, bind, get_case, lift_env, utcnow, timedelta_days.
    cbn [case env assigned_team set_assigned_team session clock ticks].
    change (Z.abs 5 <=? MAX_DELTA_DAYS) with true. cbv iota.
    unfold ret, datetime_add. fold (days 5).
    destruct (datetime_in_range (clk (S tk) + days 5)); [|reflexivity].
    unfold ret, modify_case, modify, session_add, modify.
    cbn [case env session clock ticks].
    rewrite log_action_run. reflexivity.
  - rewrite create_task_for_case_unassigned by reflexivity.
    rewrite log_action_run. reflexivity.
Qed.

(** Every transition of the table leads to a status declared later. *)
Lemma transition_position (s new_status : CaseStatus) (label audit_action : string) :
  dict_get key_eqb (s, label) TRANSITIONS = Some (new_status, audit_action) ->
  (position s < position new_status)%nat.
Proof.
  intros H. apply (dict_get_Some_In key_eqb key_eqb_eq) in H.
  unfold TRANSITIONS in H. simpl in H.
  repeat (destruct H as [H|H]; [inversion H; subst; simpl; lia|]).
  contradiction.
Qed.

(** [apply_transition] returns [True] exactly when the key is in the
    table, the SLA is a legal [timedelta], the due date is a representable
    date and, if the new status routes to an existing team, so is the due
    date of the follow-up task. *)
Theorem apply_transition_true_iff
        (user : option User) (label notes : string) (w : World) :
  (exists w', apply_transition user label notes w = Ok true w') <->
  (exists new_status audit_action,
      In ((status (case w), label), (new_status, audit_action)) TRANSITIONS /\
      Z.abs (sla_days (case w)) <= MAX_DELTA_DAYS /\
      datetime_in_range (clock (env w) (ticks (env w))
                         + sla_days (case w) * MICROSECONDS_PER_DAY) = true /\
      (routed_team (teams (session (env w))) new_status <> None ->
       datetime_in_range (clock (env w) (S (ticks (env w)))
                          + 5 * MICROSECONDS_PER_DAY) = true)).
Proof.
  split.
  - intros [w' H].
    destruct (dict_get key_eqb (status (case w), label) TRANSITIONS)
      as [[ns act]|] eqn:Hget.
    + exists ns, act. split; [apply TRANSITIONS_get; exact Hget|].
      rewrite (apply_transition_on_key _ _ _ _ _ _ Hget) in H.
      cbv zeta in H. unfold days in H.
      destruct (Z.abs (sla_days (case w)) <=? MAX_DELTA_DAYS) eqn:E1;
        [|discriminate H].
      apply Z.leb_le in E1. split; [exact E1|]. cbn [negb] in H.
      destruct (datetime_in_range
                  (clock (env w) (ticks (env w))
                   + sla_days (case w) * MICROSECONDS_PER_DAY)) eqn:E2;
        [|discriminate H].
      split; [reflexivity|]. cbn [negb] in H.
      destruct (routed_team (teams (session (env w))) ns) as [t|];
        [|intros Hn; congruence].
      intros _.
      destruct (datetime_in_range
                  (clock (env w) (S (ticks (env w)))
                   + 5 * MICROSECONDS_PER_DAY)); [reflexivity|discriminate H].
    + rewrite (apply_transition_illegal _ _ _ _ Hget) in H. discriminate H.
  - intros (ns & act & Hin & E1 & E2 & E3).
    apply TRANSITIONS_get in Hin.
    rewrite (apply_transition_on_key _ _ _ _ _ _ Hin). cbv zeta. unfold days.
    apply Z.leb_le in E1. rewrite E1, E2. cbn [negb].
    destruct (routed_team (teams (session (env w))) ns) as [t|].
    + rewrite E3 by discriminate. eexists. reflexivity.
    + eexists. reflexivity.
Qed.

Lemma apply_transition_raise_status
      (user : option User) (label notes : string) (w w' : World) (x : exn) :
  apply_transition user label notes w = Raise x w' ->
  exists new_status audit_action,
    dict_get key_eqb (status (case w), label) TRANSITIONS
      = Some (new_status, audit_action) /\
    status (case w') = new_status.
Proof.
  intros H.
  destruct (dict_get key_eqb (status (case w), label) TRANSITIONS)
    as [[ns act]|] eqn:Hget.
  - exists ns, act. split; [reflexivity|].
    rewrite (apply_transition_on_key _ _ _ _ _ _ Hget) in H. cbv zeta in H.
    destruct (negb (Z.abs (sla_days (case w)) <=? MAX_DELTA_DAYS));
      [inversion H; reflexivity|].
    destruct (negb (datetime_in_range _)); [inversion H; reflexivity|].
    destruct (routed_team (teams (session (env w))) ns) as [t|];
      [|discriminate H].
    destruct (datetime_in_range _); [discriminate H|].
    inversion H; reflexivity.
  - rewrite (apply_transition_illegal _ _ _ _ Hget) in H. discriminate H.
Qed.

(** A call that raises has already moved the case to the new status, and
    has created neither an audit entry nor a task: the session and the
    collections of the case are as before. *)
Theorem apply_transition_raise_keeps_new_status
        (user : option User) (label notes : string) (w w' : World) (x : exn) :
  apply_transition user label notes w = Raise x w' ->
  x = OverflowError /\
  (exists audit_action,
      In ((status (case w), label), (status (case w'), audit_action))
         TRANSITIONS) /\
  status (case w') <> status (case w) /\
  logs (case w') = logs (case w) /\
  tasks (case w') = tasks (case w) /\
  session (env w') = session (env w).
Proof.
  intros H.
  destruct (dict_get key_eqb (status (case w), label) TRANSITIONS)
    as [[ns act]|] eqn:Hget.
  - pose proof (transition_position _ _ _ _ Hget) as Hpos.
    assert (Hin := proj1 (TRANSITIONS_get _ _) Hget).
    rewrite (apply_transition_on_key _ _ _ _ _ _ Hget) in H. cbv zeta in H.
    assert (Hgoal : forall c e,
               status c = ns -> logs c = logs (case w) ->
               tasks c = tasks (case w) -> session e = session (env w) ->
               Raise (A:=bool) OverflowError (mkWorld e c) = Raise x w' ->
               x = OverflowError /\
               (exists audit_action,
                   In ((status (case w), label), (status (case w'), audit_action))
                      TRANSITIONS) /\
               status (case w') <> status (case w) /\
               logs (case w') = logs (case w) /\
               tasks (case w') = tasks (case w) /\
               session (env w') = session (env w)).
    { intros c e Hs Hl Ht Hse E. inversion E; subst x w'. cbn [case env].
      split; [reflexivity|]. split; [exists act; rewrite Hs; exact Hin|].
      split; [|auto]. rewrite Hs. intros Heq. rewrite Heq in Hpos. lia. }
    destruct (negb (Z.abs (sla_days (case w)) <=? MAX_DELTA_DAYS));
      [eapply Hgoal; [| | | |exact H]; reflexivity|].
    destruct (negb (datetime_in_range _));
      [eapply Hgoal; [| | | |exact H]; reflexivity|].
    destruct (routed_team (teams (session (env w))) ns) as [t|];
      [|discriminate H].
    destruct (datetime_in_range _); [discriminate H|].
    eapply Hgoal; [| | | |exact H]; reflexivity.
  - rewrite (apply_transition_illegal _ _ _ _ Hget) in H. discriminate H.
Qed.

Lemma apply_transition_raise_witness :
  exists w',
    apply_transition None "Mark Ready to Send" "" long_sla_world
      = Raise OverflowError w' /\
    status (case long_sla_world) = DRAFT /\
    status (case w') = READY_TO_SEND /\
    logs (case w') = logs (case long_sla_world).
Proof.
  eexists. split; [vm_compute; reflexivity|].
  split; [reflexivity|]. split; [vm_compute; reflexivity|].
  match goal with
  | |- logs (case ?w') = _ =>
      exact (proj1 (proj2 (proj2 (proj2
               (apply_transition_raise_keeps_new_status
                  None "Mark Ready to Send" "" long_sla_world w'
                  OverflowError eq_refl)))))
  end.
Defined.

(** However a call ends, it never writes a table, never touches the
    attributes of the case other than status, due date and team, and only
    appends, at most one item each, to the tasks and the logs of the case
    and at most two to the pending objects of the session. *)
Theorem apply_transition_frame
        (user : option User) (label notes : string) (w : World) :
  let w' := result_world (apply_transition user label notes w) in
  (id (case w') = id (case w) /\
   title (case w') = title (case w) /\
   client (case w') = client (case w) /\
   provider (case w') = provider (case w) /\
   signature_type (case w') = signature_type (case w) /\
   sla_days (case w') = sla_days (case w) /\
   created_at (case w') = created_at (case w) /\
   updated_at (case w') = updated_at (case w)) /\
  (teams (session (env w')) = teams (session (env w)) /\
   providers (session (env w')) = providers (session (env w)) /\
   clients (session (env w')) = clients (session (env w)) /\
   cases (session (env w')) = cases (session (env w)) /\
   task_rows (session (env w')) = task_rows (session (env w)) /\
   audit_logs (session (env w')) = audit_logs (session (env w))) /\
  exists (ts : list Task) (ls : list AuditLog) (es : list Entity),
    tasks (case w') = tasks (case w) ++ ts /\
    logs (case w') = logs (case w) ++ ls /\
    new (session (env w')) = new (session (env w)) ++ es /\
    (List.length ts <= 1)%nat /\
    (List.length ls <= 1)%nat /\
    List.length es = (List.length ts + List.length ls)%nat.
Proof.
  cbv zeta.
  destruct (dict_get key_eqb (status (case w), label) TRANSITIONS)
    as [[ns act]|] eqn:Hget.
  - rewrite (apply_transition_on_key _ _ _ _ _ _ Hget). cbv zeta.
    destruct w as [[s clk tk rt] c]. cbn [env case session clock ticks].
    destruct (negb (Z.abs (sla_days c) <=? MAX_DELTA_DAYS)).
    { cbn. repeat split. exists [], [], []. rewrite !app_nil_r. cbn. repeat split; lia. }
    destruct (negb (datetime_in_range _)).
    { cbn. repeat split. exists [], [], []. rewrite !app_nil_r. cbn. repeat split; lia. }
    destruct (routed_team (teams s) ns) as [t|].
    + destruct (datetime_in_range _).
      * cbn -[app]. repeat split.
        eexists [_], [_], [_; _]. rewrite <- app_assoc. cbn. repeat split; lia.
      * cbn. repeat split. exists [], [], []. rewrite !app_nil_r. cbn. repeat split; lia.
    + cbn -[app]. repeat split.
      eexists [], [_], [_]. rewrite !app_nil_r. cbn. repeat split; lia.
  - rewrite (apply_transition_illegal _ _ _ _ Hget). cbn.
    repeat split. exists [], [], []. rewrite !app_nil_r. cbn. repeat split; lia.
Qed.

(** CLIENT_OPTED_OUT and COMPLETED are final: whatever label is pressed,
    the call returns [False] and nothing changes. *)
Theorem terminal_status_rejects_every_label
        (user : option User) (label notes : string) (w : World) :
  status (case w) = CLIENT_OPTED_OUT \/ status (case w) = COMPLETED ->
  apply_transition user label notes w = Ok false w.
Proof.
  intros H. apply apply_transition_illegal.
  destruct H as [H|H]; rewrite H; unfold TRANSITIONS; cbn [dict_get];
    unfold key_eqb; cbn; reflexivity.
Qed.

Lemma terminal_status_witness :
  exists w,
    apply_path None legal_path fresh_world = Ok true w /\
    status (case w) = COMPLETED /\
    apply_transition None "Complete Case" "again" w = Ok false w.
Proof.
  eexists. split; [vm_compute; reflexivity|].
  split; [vm_compute; reflexivity|].
  apply terminal_status_rejects_every_label. right. vm_compute. reflexivity.
Defined.

(** The status of a case never moves back in the declaration order:
    a call that returns [True] or raises has moved it strictly forward, a
    call that returns [False] has left it where it was. *)
Theorem status_never_moves_back
        (user : option User) (label notes : string) (w : World) :
  match apply_transition user label notes w with
  | Ok true w' => (position (status (case w)) < position (status (case w')))%nat
  | Ok false w' => status (case w') = status (case w)
  | Raise _ w' => (position (status (case w)) < position (status (case w')))%nat
  end.
Proof.
  destruct (apply_transition user label notes w) as [[|] w'|x w'] eqn:E.
  - destruct (apply_transition_true_fields _ _ _ _ _ E)
      as (ns & act & Hget & Hst & _).
    rewrite Hst. exact (transition_position _ _ _ _ Hget).
  - pose proof (apply_transition_outcomes user label notes w) as H.
    rewrite E in H. destruct H as [_ ->]. reflexivity.
  - destruct (apply_transition_raise_status _ _ _ _ _ _ E)
      as (ns & act & Hget & Hst).
    rewrite Hst. exact (transition_position _ _ _ _ Hget).
Qed.

Lemma count_true_cons (b : bool) (l : list bool) :
  count_true (b :: l) = ((if b then 1 else 0) + count_true l)%nat.
Proof. unfold count_true. destruct b; reflexivity. Qed.

(** Over any series of button presses on a case, the audit trail grows by
    exactly one entry per press that returned [True], the tasks by at most
    one, and no more presses return [True] than transitions can still
    follow the status the case started in: eight at most. *)
Theorem click_all_counts (user : option User) (clicks : list (string * string)) :
  forall (w w' : World) (oks : list bool),
    click_all user clicks w = Ok oks w' ->
    List.length oks = List.length clicks /\
    List.length (logs (case w'))
      = (List.length (logs (case w)) + count_true oks)%nat /\
    (List.length (tasks (case w'))
       <= List.length (tasks (case w)) + count_true oks)%nat /\
    (depth (status (case w')) + count_true oks
       <= depth (status (case w)))%nat /\
    (count_true oks <= 8)%nat.
Proof.
  assert (Hdepth : forall s, (depth s <= 8)%nat) by (intros []; simpl; lia).
  induction clicks as [|[label notes] rest IH]; intros w w' oks H.
  - cbn in H. inversion H; subst. cbn. repeat split; lia.
  - cbn [click_all] in H. unfold bind in H.
    destruct (apply_transition user label notes w) as [ok w1|] eqn:E;
      [|discriminate H].
    fold (@bind World) in H.
    destruct (click_all user rest w1) as [oks1 w2|] eqn:E1; [|discriminate H].
    unfold ret in H. inversion H; subst oks w'. clear H.
    destruct (IH _ _ _ E1) as (Hlen & Hlogs & Htasks & Hd & _).
    rewrite count_true_cons. cbn [List.length].
    destruct ok.
    + destruct (apply_transition_true_fields _ _ _ _ _ E)
        as (ns & act & Hget & Hst & _ & _ & _ & _ & _ & _ & _ & _ &
            entry & _ & _ & _ & _ & Hl & Hrest).
      apply transition_depth in Hget. rewrite <- Hst in Hget.
      assert (Ht : (List.length (tasks (case w1))
                    <= List.length (tasks (case w)) + 1)%nat).
      { destruct (assigned_team (case w1)).
        - destruct Hrest as (task & _ & _ & _ & _ & _ & Ht & _).
          rewrite Ht, length_app. simpl. lia.
        - destruct Hrest as [Ht _]. rewrite Ht. lia. }
      rewrite Hl, length_app in Hlogs. simpl in Hlogs.
      pose proof (Hdepth (status (case w))).
      repeat split; lia.
    + pose proof (apply_transition_outcomes user label notes w) as Ho.
      rewrite E in Ho. destruct Ho as [_ ->].
      pose proof (Hdepth (status (case w))).
      repeat split; lia.
Qed.

Lemma click_all_witness :
  exists w',
    click_all None sample_clicks fresh_world
      = Ok [false; true; false; true] w' /\
    List.length (logs (case fresh_world)) = 1%nat /\
    List.length (logs (case w')) = 3%nat.
Proof.
  eexists. split; [vm_compute; reflexivity|].
  split; [reflexivity|].
  match goal with
  | |- List.length (logs (case ?w')) = _ =>
      exact (proj1 (proj2 (click_all_counts None sample_clicks fresh_world w'
                             [false; true; false; true] eq_refl)))
  end.
Defined.


Lemma names_present_dec (names : list string) (ts : list Team) :
  forallb (fun n => existsb (fun t => String.eqb (team_name t) n) ts) names
    = true ->
  forall name, In name names -> exists t, In t ts /\ team_name t = name.
Proof.
  intros H name Hin. rewrite forallb_forall in H. apply H in Hin.
  apply existsb_exists in Hin. destruct Hin as (t & Ht & E).
  apply String.eqb_eq in E. exists t. auto.
Qed.

(** When the team table has a team for each of the default names, every
    call that returns [True], unless it completes the case, assigns a team
    of the table whose name is the hint of the new status and creates
    exactly one open task owned by that team. *)
Theorem default_teams_give_every_step_a_task
        (user : option User) (label notes : string) (w w' : World) :
  (forall name, In name DEFAULT_TEAMS ->
                exists t, In t (teams (session (env w))) /\ team_name t = name) ->
  apply_transition user label notes w = Ok true w' ->
  status (case w') <> COMPLETED ->
  exists (team : Team) (task : Task),
    assigned_team (case w') = Some team /\
    In team (teams (session (env w))) /\
    NEXT_TEAM_HINT_get (status (case w')) = Some (team_name team) /\
    tasks (case w') = tasks (case w) ++ [task] /\
    task_team task = Some team /\
    task_status task = Some OPEN.
Proof.
  intros Hteams H Hnot.
  destruct (apply_transition_true_fields _ _ _ _ _ H)
    as (ns & act & _ & Hst & _ & Hteam & _ & _ & _ & _ & _ & _ &
        entry & _ & _ & _ & _ & _ & Hrest).
  rewrite Hst in *.
  assert (Hhint : exists hint, NEXT_TEAM_HINT_get ns = Some hint /\
                               hint <> "" /\ In hint DEFAULT_TEAMS).
  { destruct ns; try congruence; eexists; (split; [reflexivity|]);
      (split; [discriminate|]); simpl; tauto. }
  destruct Hhint as (hint & Hh & Hne & Hin).
  destruct (find_team_present hint _ (Hteams hint Hin))
    as (t & Hfind & Htin & Hname).
  assert (Hrt : routed_team (teams (session (env w))) ns = Some t).
  { unfold routed_team. rewrite Hh.
    destruct (String.eqb hint "") eqn:E; [|exact Hfind].
    apply String.eqb_eq in E. contradiction. }
  rewrite Hrt in Hteam. rewrite Hteam in Hrest.
  destruct Hrest as (task & Ht & Hs & _ & _ & _ & Htasks & _).
  exists t, task. rewrite Hname. auto 10.
Qed.

Lemma default_teams_witness :
  (forall name, In name DEFAULT_TEAMS ->
                exists t, In t (teams (session (env fresh_world))) /\
                          team_name t = name) /\
  exists w' team task,
    apply_transition None "Mark Ready to Send" "" fresh_world = Ok true w' /\
    assigned_team (case w') = Some team /\
    team_name team = "Admin Solution" /\
    tasks (case w') = tasks (case fresh_world) ++ [task].
Proof.
  assert (H : forall name, In name DEFAULT_TEAMS ->
                exists t, In t (teams (session (env fresh_world))) /\
                          team_name t = name).
  { apply names_present_dec. vm_compute. reflexivity. }
  split; [exact H|].
  destruct (default_teams_give_every_step_a_task
              None "Mark Ready to Send" "" fresh_world
              (result_world (apply_transition None "Mark Ready to Send" ""
                                              fresh_world))
              H eq_refl)
    as (team & task & Ha & _ & Hh & Ht & _).
  { vm_compute. discriminate. }
  eexists. exists team, task. split; [vm_compute; reflexivity|].
  split; [exact Ha|]. split; [|exact Ht].
  cbn in Hh. inversion Hh. reflexivity.
Defined.

(** Every hint written in [NEXT_TEAM_HINT] is a non-empty name. *)
Lemma hints_not_empty (s : CaseStatus) (hint : string) :
  NEXT_TEAM_HINT_get s = Some hint -> String.eqb hint "" = false.
Proof. destruct s; intros H; inversion H; reflexivity. Qed.

(** [assign_next_team] never fails and writes nothing but
    [case.assigned_team]: the first team of the table named as the hint of
    the current status, and [None] exactly when no team of the table bears
    that name (or the status has no hint).  Whatever team the case had
    before is overwritten, and a second call changes nothing more. *)
Theorem assign_next_team_sets_only_the_team (w : World) :
  exists team : option Team,
    assign_next_team w
      = Ok tt (mkWorld (env w) (set_assigned_team team (case w))) /\
    (forall t, team = Some t ->
               In t (teams (session (env w))) /\
               NEXT_TEAM_HINT_get (status (case w)) = Some (team_name t)) /\
    (team = None <->
     ~ exists t, In t (teams (session (env w))) /\
                 NEXT_TEAM_HINT_get (status (case w)) = Some (team_name t)) /\
    assign_next_team (mkWorld (env w) (set_assigned_team team (case w)))
      = Ok tt (mkWorld (env w) (set_assigned_team team (case w))).
Proof.
  exists (routed_team (teams (session (env w))) (status (case w))).
  split; [apply assign_next_team_run|].
  assert (Hsome : forall t,
             routed_team (teams (session (env w))) (status (case w)) = Some t ->
             In t (teams (session (env w))) /\
             NEXT_TEAM_HINT_get (status (case w)) = Some (team_name t)).
  { unfold routed_team. intros t H.
    destruct (NEXT_TEAM_HINT_get (status (case w))) as [hint|]; [|discriminate].
    destruct (String.eqb hint ""); [discriminate|].
    apply find_some in H. destruct H as [Hin E].
    apply String.eqb_eq in E. subst hint. auto. }
  split; [exact Hsome|]. split.
  - split.
    + intros Hnone (t & Hin & Hh). unfold routed_team in Hnone.
      rewrite Hh, (hints_not_empty _ _ Hh) in Hnone.
      apply (find_none _ _ Hnone) in Hin.
      rewrite String.eqb_refl in Hin. discriminate.
    + intros Hno.
      destruct (routed_team (teams (session (env w))) (status (case w)))
        as [t|] eqn:E; [|reflexivity].
      exfalso. apply Hno. exists t. apply Hsome. reflexivity.
  - rewrite assign_next_team_run. cbn [env case].
    destruct (case w); reflexivity.
Qed.

(** [create_task_for_case] on a case with a team: within the bounds of
    [timedelta] and of the calendar it creates exactly one task, open,
    owned by the team of the case and due [due_days] days after the clock
    reading (before it when [due_days] is negative); outside them it
    raises [OverflowError] and has created nothing. *)
Theorem create_task_for_case_with_team
        (title : string) (due_days : Z) (w : World) (team : Team) :
  assigned_team (case w) = Some team ->
  let now := clock (env w) (ticks (env w)) in
  let due := now + due_days * MICROSECONDS_PER_DAY in
  if (Z.abs due_days <=? MAX_DELTA_DAYS) && datetime_in_range due
  then
    exists (w' : World) (task : Task),
      create_task_for_case title due_days w = Ok tt w' /\
      task = mkTask None (id (case w)) (Some team) title (Some OPEN) (Some due) /\
      tasks (case w') = tasks (case w) ++ [task] /\
      new (session (env w')) = new (session (env w)) ++ [ETask task] /\
      logs (case w') = logs (case w) /\
      status (case w') = status (case w)
  else
    exists w' : World,
      create_task_for_case title due_days w = Raise OverflowError w' /\
      case w' = case w /\
      session (env w') = session (env w).
Proof.
  intros Hteam. cbv zeta. destruct w as [[s clk tk rt] c]. cbn [env case] in *.
  cbn [clock ticks session].
  unfold create_task_for_case, bind, get_case, lift_env, utcnow, timedelta_days.
  cbn [case env session clock ticks]. rewrite Hteam.
  cbn [case env session clock ticks].
  destruct (Z.abs due_days <=? MAX_DELTA_DAYS); cbn [andb].
  - unfold ret, datetime_add. cbn [case env session clock ticks].
    destruct (datetime_in_range (clk tk + due_days * MICROSECONDS_PER_DAY)).
    + eexists. eexists. split; [reflexivity|]. cbn.
      repeat split; reflexivity.
    + eexists. split; [reflexivity|]. split; reflexivity.
  - eexists. split; [reflexivity|]. split; reflexivity.
Qed.

Lemma create_task_for_case_witness :
  assigned_team (case fresh_world) = Some (mkTeam (Some 1) "Data") /\
  (exists w' task,
      create_task_for_case "call the client" (-3) fresh_world = Ok tt w' /\
      tasks (case w') = [task] /\
      task_due_at task = Some (T_2024 + 4 - 3 * MICROSECONDS_PER_DAY)) /\
  (exists w',
      create_task_for_case "far away" 3000000 fresh_world
        = Raise OverflowError w' /\
      case w' = case fresh_world).
Proof.
  split; [reflexivity|].
  pose proof (create_task_for_case_with_team "call the client" (-3)
                fresh_world _ eq_refl) as H1.
  pose proof (create_task_for_case_with_team "far away" 3000000
                fresh_world _ eq_refl) as H2.
  cbv zeta in H1, H2.
  split.
  - destruct H1 as (w' & task & Hrun & Htask & Htasks & _).
    exists w', task. split; [exact Hrun|]. split; [exact Htasks|].
    rewrite Htask. vm_compute. reflexivity.
  - destruct H2 as (w' & Hrun & Hcase & _).
    exists w'. split; [exact Hrun | exact Hcase].
Defined.

(** ** More on case creation *)

Lemma find_app_r_none {A} (f : A -> bool) (l : list A) (x : A) :
  find f l = None -> f x = true -> find f (l ++ [x]) = Some x.
Proof.
  intros Hl Hx. apply find_app_last; [|exact Hx].
  intros r Hr. exact (find_none _ _ Hl r Hr).
Qed.

Lemma find_app_l_some {A} (f : A -> bool) (l l' : list A) (x : A) :
  find f l = Some x -> find f (l ++ l') = Some x.
Proof.
  induction l as [|a l IH]; simpl; [discriminate|].
  destruct (f a); [auto | exact IH].
Qed.

(** "Create Case" returns exactly when the SLA of the form fits the
    Integer column of the database, which takes 64 bits in SQLite and 32
    in PostgreSQL, whatever else is typed into the form and whatever the
    database holds.  It has then added exactly one case, in DRAFT, with
    no due date and the team hinted for DRAFT, and exactly one audit row,
    "created", for that case and the acting user.  Otherwise the commit
    of the case raises, [OverflowError] in SQLite and [DataError] in
    PostgreSQL, and neither a case nor an audit row has been added.
    Either way no task is added, the team table is left alone and
    nothing is left pending. *)
Theorem create_case_effects
        (ttl cn pn : string) (sig : SignatureType) (sla : Z)
        (user : option User) (e : Env) :
  (INTEGER_in_range sqlite sla = true <-> - 2 ^ 63 <= sla < 2 ^ 63) /\
  (INTEGER_in_range postgresql sla = true <-> - 2 ^ 31 <= sla < 2 ^ 31) /\
  (INTEGER_out_of_range sqlite = OverflowError /\
   INTEGER_out_of_range postgresql = DataError) /\
  if INTEGER_in_range (dialect (runtime e)) sla
  then
    exists (i : Z) (e' : Env) (row : Case) (l : AuditLog),
      page_cases_create_case ttl cn pn sig sla user e = Ok (Some i) e' /\
      cases (session e') = cases (session e) ++ [row] /\
      audit_logs (session e') = audit_logs (session e) ++ [l] /\
      task_rows (session e') = task_rows (session e) /\
      teams (session e') = teams (session e) /\
      new (session e') = [] /\
      (id row = Some i /\ title row = ttl /\ signature_type row = sig /\
       sla_days row = sla /\ status row = DRAFT /\ due_at row = None /\
       assigned_team row = routed_team (teams (session e)) DRAFT /\
       provider_name (provider row) = pn /\ client_name (client row) = cn) /\
      (log_case_id l = Some i /\ log_action_name l = "created" /\
       log_user_id l = match user with Some u => user_id u | None => None end) /\
      (forall r, In r (cases (session e)) -> id r <> Some i)
  else
    exists e' : Env,
      page_cases_create_case ttl cn pn sig sla user e
        = Raise (INTEGER_out_of_range (dialect (runtime e))) e' /\
      cases (session e') = cases (session e) /\
      audit_logs (session e') = audit_logs (session e) /\
      task_rows (session e') = task_rows (session e) /\
      teams (session e') = teams (session e) /\
      new (session e') = [].
Proof.
  split; [|split; [|split; [split; reflexivity|]]].
  - unfold INTEGER_in_range. rewrite andb_true_iff, Z.leb_le, Z.ltb_lt.
    reflexivity.
  - unfold INTEGER_in_range. rewrite andb_true_iff, Z.leb_le, Z.ltb_lt.
    reflexivity.
  - pose proof (create_case_exact ttl cn pn sig sla user e) as H.
    cbv zeta in H.
    destruct (INTEGER_in_range (dialect (runtime e)) sla).
    + do 4 eexists. split; [exact H|].
      cbn [session cases audit_logs task_rows teams new id title
           signature_type sla_days status due_at assigned_team provider
           client log_case_id log_action_name log_user_id].
      repeat (split; [reflexivity|]).
      split; [|split; [repeat split; reflexivity|]].
      * repeat (split; [reflexivity|]). split.
        -- unfold upserted_provider.
           destruct (find _ (providers (session e))) as [p|] eqn:E;
             [|reflexivity].
           apply find_some in E. apply String.eqb_eq. exact (proj2 E).
        -- unfold upserted_client.
           destruct (find _ (clients (session e))) as [c|] eqn:E;
             [|reflexivity].
           apply find_some in E. apply String.eqb_eq. exact (proj2 E).
      * intros r Hr Heq.
        pose proof (next_id_above id _ r _ Hr Heq). lia.
    + eexists. split; [exact H|].
      cbn [session cases audit_logs task_rows teams new].
      repeat split; reflexivity.
Qed.

(** "Create Case" looks the provider and the client up by name and
    creates a row only for a name that is not there: the rows that were
    there stay, in place; a table grows by one row exactly when the name
    was absent, and afterwards the name is there.  This holds also when
    the database refuses the case: the provider and the client were
    committed before. *)
Theorem create_case_upserts_by_name
        (ttl cn pn : string) (sig : SignatureType) (sla : Z)
        (user : option User) (e : Env) :
  exists e' : Env,
    (if INTEGER_in_range (dialect (runtime e)) sla
     then exists i : Z,
         page_cases_create_case ttl cn pn sig sla user e = Ok (Some i) e'
     else page_cases_create_case ttl cn pn sig sla user e
          = Raise (INTEGER_out_of_range (dialect (runtime e))) e') /\
    (if existsb (fun p => String.eqb (provider_name p) pn)
                (providers (session e))
     then providers (session e') = providers (session e)
     else exists p, providers (session e') = providers (session e) ++ [p] /\
                    provider_name p = pn) /\
    (if existsb (fun c => String.eqb (client_name c) cn)
                (clients (session e))
     then clients (session e') = clients (session e)
     else exists c, clients (session e') = clients (session e) ++ [c] /\
                    client_name c = cn) /\
    existsb (fun p => String.eqb (provider_name p) pn)
            (providers (session e')) = true /\
    existsb (fun c => String.eqb (client_name c) cn)
            (clients (session e')) = true.
Proof.
  pose proof (create_case_exact ttl cn pn sig sla user e) as H.
  cbv zeta in H.
  assert (Hex : forall A (f : A -> bool) (l : list A),
             existsb f l = match find f l with Some _ => true | None => false end).
  { intros A f l. induction l as [|a l IH]; simpl; [reflexivity|].
    destruct (f a); [reflexivity | exact IH]. }
  destruct (INTEGER_in_range (dialect (runtime e)) sla);
    (eexists; split; [first [eexists; exact H | exact H]|]);
    cbn [session providers clients]; unfold providers_after, clients_after;
    rewrite !Hex;
    (destruct (find (fun p => String.eqb (provider_name p) pn)
                    (providers (session e))) as [p|] eqn:Ep;
     destruct (find (fun c => String.eqb (client_name c) cn)
                    (clients (session e))) as [c|] eqn:Ec;
     [ rewrite Ep, Ec; auto
     | rewrite Ep; rewrite find_app_r_none;
       [| exact Ec | apply String.eqb_refl]; repeat split; eauto
     | rewrite Ec; rewrite find_app_r_none;
       [| exact Ep | apply String.eqb_refl]; repeat split; eauto
     | rewrite !find_app_r_none;
       [| exact Ec | apply String.eqb_refl | exact Ep | apply String.eqb_refl];
       repeat split; eauto ]).
Qed.

Lemma providers_after_found (pn : string) (ps : list Provider) :
  find (fun p => String.eqb (provider_name p) pn) (providers_after pn ps)
  = Some (upserted_provider pn ps).
Proof.
  unfold providers_after, upserted_provider.
  destruct (find (fun p => String.eqb (provider_name p) pn) ps) as [p|] eqn:E.
  - exact E.
  - apply find_app_r_none; [exact E | apply String.eqb_refl].
Qed.

Lemma clients_after_found (cn : string) (p : Provider) (cs : list Client) :
  find (fun c => String.eqb (client_name c) cn) (clients_after cn p cs)
  = Some (upserted_client cn p cs).
Proof.
  unfold clients_after, upserted_client.
  destruct (find (fun c => String.eqb (client_name c) cn) cs) as [c|] eqn:E.
  - exact E.
  - apply find_app_r_none; [exact E | apply String.eqb_refl].
Qed.

(** Two cases created one after the other for the same client and
    provider names share one provider row and one client row: the second
    "Create Case" adds a case under a new key and nothing else to the
    provider and client tables, whatever the other fields of the form. *)
Theorem create_case_twice_shares_provider_and_client
        (ttl1 ttl2 cn pn : string) (sig1 sig2 : SignatureType) (sla1 sla2 : Z)
        (user1 user2 : option User) (e e1 e2 : Env) (i1 i2 : Z) :
  page_cases_create_case ttl1 cn pn sig1 sla1 user1 e = Ok (Some i1) e1 ->
  page_cases_create_case ttl2 cn pn sig2 sla2 user2 e1 = Ok (Some i2) e2 ->
  providers (session e2) = providers (session e1) /\
  clients (session e2) = clients (session e1) /\
  i1 < i2 /\
  exists r1 r2,
    cases (session e2) = cases (session e) ++ [r1; r2] /\
    id r1 = Some i1 /\ id r2 = Some i2 /\
    provider r2 = provider r1 /\
    client r2 = client r1.
Proof.
  intros H1 H2.
  rewrite create_case_exact in H1. cbv zeta in H1.
  destruct (INTEGER_in_range (dialect (runtime e)) sla1); [|discriminate H1].
  inversion H1 as [[Hi1 He1]]. clear H1.
  rewrite create_case_exact in H2. cbv zeta in H2.
  destruct (INTEGER_in_range (dialect (runtime e1)) sla2); [|discriminate H2].
  inversion H2 as [[Hi2 He2]]. clear H2.
  rewrite <- He1 in *.
  cbn [session providers clients cases] in *.
  assert (Hp : upserted_provider pn (providers_after pn (providers (session e)))
               = upserted_provider pn (providers (session e))).
  { unfold upserted_provider at 1. rewrite providers_after_found. reflexivity. }
  assert (Hps : providers_after pn (providers_after pn (providers (session e)))
                = providers_after pn (providers (session e))).
  { unfold providers_after at 1. rewrite providers_after_found. reflexivity. }
  rewrite Hp in *. clear Hp.
  set (p := upserted_provider pn (providers (session e))) in *.
  assert (Hc : upserted_client cn p (clients_after cn p (clients (session e)))
               = upserted_client cn p (clients (session e))).
  { unfold upserted_client at 1. rewrite clients_after_found. reflexivity. }
  assert (Hcs : clients_after cn p (clients_after cn p (clients (session e)))
                = clients_after cn p (clients (session e))).
  { unfold clients_after at 1. rewrite clients_after_found. reflexivity. }
  rewrite Hc in *. clear Hc.
  split; [exact Hps|]. split; [exact Hcs|]. split.
  - subst i1 i2.
    match goal with
    | |- _ < next_id id (_ ++ [?row]) =>
        apply (next_id_above id _ row);
          [apply in_or_app; right; left; reflexivity | reflexivity]
    end.
  - eexists. eexists. rewrite <- app_assoc. cbn [app].
    split; [reflexivity|]. cbn [id provider client].
    subst i1 i2. auto.
Qed.

Lemma create_case_twice_witness :
  exists e1 e2 i1 i2,
    page_cases_create_case "first" "Bob" "Zurich" WET 5 None alice_env
      = Ok (Some i1) e1 /\
    page_cases_create_case "second" "Bob" "Zurich" DOCUSIGN 10 None e1
      = Ok (Some i2) e2 /\
    List.length (providers (session e2)) = 2%nat /\
    providers (session e2) = providers (session e1).
Proof.
  do 4 eexists.
  match goal with
  | |- ?run1 = ?r1 /\ ?run2 = ?r2 /\ _ =>
      assert (H1 : run1 = r1) by (vm_compute; reflexivity);
      assert (H2 : run2 = r2) by (vm_compute; reflexivity)
  end.
  split; [exact H1|]. split; [exact H2|].
  split; [vm_compute; reflexivity|].
  exact (proj1 (create_case_twice_shares_provider_and_client
                  _ _ _ _ _ _ _ _ _ _ _ _ _ _ _ H1 H2)).
Defined.

(** The client is looked up by name alone: when a client of that name is
    on record, the new case, given an SLA that the Integer column takes,
    is attached to that row, whichever provider the row belongs to and
    whichever provider the form names, and the client table is left as
    it is. *)
Theorem create_case_takes_client_by_name_alone
        (ttl cn pn : string) (sig : SignatureType) (sla : Z)
        (user : option User) (e : Env) (c0 : Client) :
  find (fun c => String.eqb (client_name c) cn) (clients (session e))
    = Some c0 ->
  INTEGER_in_range (dialect (runtime e)) sla = true ->
  exists (i : Z) (e' : Env) (row : Case),
    page_cases_create_case ttl cn pn sig sla user e = Ok (Some i) e' /\
    cases (session e') = cases (session e) ++ [row] /\
    client row = c0 /\
    provider_name (provider row) = pn /\
    clients (session e') = clients (session e).
Proof.
  intros Hc Hr.
  pose proof (create_case_exact ttl cn pn sig sla user e) as H.
  cbv zeta in H. rewrite Hr in H. do 3 eexists. split; [exact H|].
  cbn [session cases clients client provider].
  unfold upserted_client, clients_after. rewrite Hc.
  split; [reflexivity|]. split; [reflexivity|]. split; [|reflexivity].
  unfold upserted_provider.
  destruct (find _ (providers (session e))) as [p|] eqn:E; [|reflexivity].
  apply find_some in E. apply String.eqb_eq. exact (proj2 E).
Qed.

Lemma create_case_client_witness :
  exists e' row,
    page_cases_create_case "Transfer" "Alice" "Zurich" WET 10 None alice_env
      = Ok (Some 2) e' /\
    cases (session e') = cases (session alice_env) ++ [row] /\
    provider_name (provider row) = "Zurich" /\
    client_provider (client row) = Some (mkProvider (Some 1) "Aviva").
Proof.
  destruct (create_case_takes_client_by_name_alone
              "Transfer" "Alice" "Zurich" WET 10 None alice_env
              (mkClient (Some 1) "Alice" None
                        (Some (mkProvider (Some 1) "Aviva")) (Some false))
              eq_refl eq_refl)
    as (i & e' & row & Hrun & Hcases & Hclient & Hprov & _).
  assert (Hi : i = 2).
  { rewrite create_case_exact in Hrun. cbv zeta in Hrun.
    change (INTEGER_in_range (dialect (runtime alice_env)) 10) with true in Hrun.
    inversion Hrun as [[Hi He]]. vm_compute. reflexivity. }
  subst i. exists e', row. split; [exact Hrun|]. split; [exact Hcases|].
  split; [exact Hprov|]. rewrite Hclient. reflexivity.
Defined.

(** Provider names stay unique across "Create Case": if no two rows of
    the provider table bear the same name before, none do after. *)
Theorem create_case_keeps_provider_names_unique
        (ttl cn pn : string) (sig : SignatureType) (sla : Z)
        (user : option User) (e e' : Env) (i : option Z) :
  NoDup (map provider_name (providers (session e))) ->
  page_cases_create_case ttl cn pn sig sla user e = Ok i e' ->
  NoDup (map provider_name (providers (session e'))).
Proof.
  intros Hnd H. rewrite create_case_exact in H. cbv zeta in H.
  destruct (INTEGER_in_range (dialect (runtime e)) sla); [|discriminate H].
  inversion H as [[Hi He]]. cbn [session providers].
  unfold providers_after.
  destruct (find (fun p => String.eqb (provider_name p) pn)
                 (providers (session e))) as [p|] eqn:E; [exact Hnd|].
  rewrite map_app. cbn [map provider_name].
  apply NoDup_app; [exact Hnd | constructor; [simpl; tauto | constructor] |].
  intros name Hin [<-|[]].
  apply in_map_iff in Hin. destruct Hin as (p & Hname & Hin).
  apply (find_none _ _ E) in Hin. rewrite Hname, String.eqb_refl in Hin.
  discriminate.
Qed.

Lemma create_case_unique_witness :
  NoDup (map provider_name (providers (session alice_env))) /\
  exists e',
    page_cases_create_case "t" "Bob" "Aviva" WET 1 None alice_env
      = Ok (Some 2) e' /\
    NoDup (map provider_name (providers (session e'))).
Proof.
  assert (H : NoDup (map provider_name (providers (session alice_env)))).
  { simpl. constructor; [simpl; tauto | constructor]. }
  split; [exact H|].
  eexists.
  match goal with
  | |- ?run = ?r /\ _ => assert (Hrun : run = r) by (vm_compute; reflexivity)
  end.
  split; [exact Hrun|].
  exact (create_case_keeps_provider_names_unique _ _ _ _ _ _ _ _ _ H Hrun).
Defined.

(** ** Seeding and the admin forms *)

(** [bootstrap_db] in a new session seeds the eight default teams, in
    the order of [DEFAULT_TEAMS] and under the keys 1 to 8, when the team
    table is empty, and does nothing at all when the table has a row;
    run again on its own result it changes nothing. *)
Theorem bootstrap_db_seeds_once (e : Env) :
  new (session e) = [] ->
  exists e',
    bootstrap_db e = Ok tt e' /\
    (teams (session e) = [] ->
     map team_name (teams (session e')) = DEFAULT_TEAMS /\
     map team_id (teams (session e'))
       = map (fun k => Some k) [1; 2; 3; 4; 5; 6; 7; 8]) /\
    (teams (session e) <> [] -> e' = e) /\
    (providers (session e') = providers (session e) /\
     clients (session e') = clients (session e) /\
     cases (session e') = cases (session e) /\
     task_rows (session e') = task_rows (session e) /\
     audit_logs (session e') = audit_logs (session e) /\
     new (session e') = [] /\
     ticks e' = ticks e) /\
    bootstrap_db e' = Ok tt e'.
Proof.
  destruct e as [[ts ps cs rows trs lgs nw] clk tk rt].
  cbn [session new]. intros ->.
  destruct ts as [|t ts].
  - eexists. split; [vm_compute; reflexivity|].
    split; [intros _; split; reflexivity|].
    split; [intros H; contradiction H; reflexivity|].
    split; [repeat split; reflexivity|]. reflexivity.
  - exists (mkEnv (mkSession (t :: ts) ps cs rows trs lgs []) clk tk rt).
    split; [reflexivity|].
    split; [intros H; discriminate H|].
    split; [reflexivity|].
    split; [repeat split; reflexivity|]. reflexivity.
Qed.

Lemma bootstrap_db_witness :
  new (session alice_env) = [] /\
  bootstrap_db alice_env = Ok tt alice_env /\
  exists e', bootstrap_db env0 = Ok tt e' /\
             map team_name (teams (session e')) = DEFAULT_TEAMS.
Proof.
  split; [reflexivity|].
  destruct (bootstrap_db_seeds_once alice_env eq_refl)
    as (e1 & Hrun1 & _ & Hsame & _).
  destruct (bootstrap_db_seeds_once env0 eq_refl)
    as (e2 & Hrun2 & Hseed & _).
  split.
  - rewrite Hrun1. f_equal. apply Hsame. discriminate.
  - exists e2. split; [exact Hrun2|]. exact (proj1 (Hseed eq_refl)).
Defined.

Lemma existsb_find {A} (f : A -> bool) (l : list A) :
  existsb f l = match find f l with Some _ => true | None => false end.
Proof.
  induction l as [|a l IH]; simpl; [reflexivity|].
  destruct (f a); [reflexivity | exact IH].
Qed.



Lemma page_admin_add_team_ok (tname : string) (e e' : Env) :
  new (session e) = [] ->
  page_admin_add_team tname e = Ok tt e' ->
  teams (session e') = teams (session e) \/
  exists t, teams (session e') = teams (session e) ++ [t] /\ team_name t = tname.
Proof.
  destruct e as [[ts ps cs rows trs lgs nw] clk tk rt].
  cbn [session new teams]. intros ->.
  unfold page_admin_add_team.
  destruct (String.eqb tname "") eqn:E0; cbn [negb].
  - intros H. inversion H. left. reflexivity.
  - unfold bind, session_add, modify, commit.
    cbn -[next_id existsb]. unfold bind, get. cbn -[next_id existsb].
    destruct (existsb (fun t => String.eqb (team_name t) tname) ts);
      [discriminate|].
    intros H. inversion H. right. eexists. split; reflexivity.
Qed.

(** A team added in Admin never takes a case away from a team that was
    there: every status routes to the same team as before, and a status
    whose hinted team was missing routes to the new team once a team of
    that name has been added. *)
Theorem added_team_keeps_earlier_routing (tname : string) (e e' : Env) :
  new (session e) = [] ->
  page_admin_add_team tname e = Ok tt e' ->
  (forall s t, routed_team (teams (session e)) s = Some t ->
               routed_team (teams (session e')) s = Some t) /\
  (forall s, NEXT_TEAM_HINT_get s = Some tname ->
             exists t, routed_team (teams (session e')) s = Some t /\
                       team_name t = tname).
Proof.
  intros Hnew H.
  destruct (page_admin_add_team_ok _ _ _ Hnew H) as [Hsame | (t & Happ & Hname)].
  - assert (E0 : String.eqb tname "" = true).
    { destruct (String.eqb tname "") eqn:E0; [reflexivity|].
      exfalso. revert H. destruct e as [[ts ps cs rows trs lgs nw] clk tk rt].
      cbn [session new teams] in *. subst nw.
      unfold page_admin_add_team. rewrite E0. cbn [negb].
      unfold bind, session_add, modify, commit.
      cbn -[next_id existsb]. unfold bind, get. cbn -[next_id existsb].
      destruct (existsb (fun t => String.eqb (team_name t) tname) ts);
        [discriminate|].
      intros H. inversion H as [He]. rewrite <- He in Hsame.
      norm_env in Hsame.
      apply (f_equal (@List.length Team)) in Hsame.
      rewrite length_app in Hsame. simpl in Hsame. lia. }
    rewrite Hsame. split; [auto|].
    intros s Hh. rewrite (hints_not_empty _ _ Hh) in E0. discriminate.
  - rewrite Happ. split.
    + intros s t0. unfold routed_team.
      destruct (NEXT_TEAM_HINT_get s) as [hint|]; [|auto].
      destruct (String.eqb hint ""); [auto|].
      apply find_app_l_some.
    + intros s Hh. unfold routed_team. rewrite Hh, (hints_not_empty _ _ Hh).
      destruct (find (fun r => String.eqb (team_name r) tname)
                     (teams (session e))) as [t0|] eqn:E.
      * exists t0. split; [apply find_app_l_some; exact E|].
        apply find_some in E. apply String.eqb_eq. exact (proj2 E).
      * exists t. split; [|exact Hname].
        apply find_app_r_none; [exact E|].
        rewrite Hname. apply String.eqb_refl.
Qed.

Lemma added_team_witness :
  routed_team (teams (session custom_teams_env)) READY_TO_SEND = None /\
  exists e' t,
    page_admin_add_team "Admin Solution" custom_teams_env = Ok tt e' /\
    routed_team (teams (session e')) READY_TO_SEND = Some t /\
    team_name t = "Admin Solution".
Proof.
  split; [reflexivity|].
  eexists.
  match goal with
  | |- exists t, ?run = ?r /\ _ =>
      assert (Hrun : run = r) by (vm_compute; reflexivity)
  end.
  destruct (proj2 (added_team_keeps_earlier_routing
                     "Admin Solution" custom_teams_env _ eq_refl Hrun)
                  READY_TO_SEND eq_refl) as (t & Ht & Hn).
  exists t. split; [exact Hrun|]. split; [exact Ht | exact Hn].
Defined.

(** A provider added in Admin is the one "Create Case" then takes for
    that name: the case, given an SLA that the Integer column takes, is
    attached to the row of the admin form and the provider table gets no
    second row. *)
Theorem provider_added_in_admin_is_reused
        (pname ttl cn : string) (sig : SignatureType) (sla : Z)
        (user : option User) (e e1 : Env) :
  new (session e) = [] ->
  pname <> "" ->
  page_admin_add_provider pname e = Ok tt e1 ->
  INTEGER_in_range (dialect (runtime e)) sla = true ->
  exists (i : Z) (e2 : Env) (row : Case) (p : Provider),
    page_cases_create_case ttl cn pname sig sla user e1 = Ok (Some i) e2 /\
    providers (session e1) = providers (session e) ++ [p] /\
    providers (session e2) = providers (session e1) /\
    cases (session e2) = cases (session e1) ++ [row] /\
    provider row = p /\
    provider_name p = pname.
Proof.
  intros Hnew Hne H Hr.
  assert (E0 : String.eqb pname "" = false).
  { apply String.eqb_neq. exact Hne. }
  destruct e as [[ts ps cs rows trs lgs nw] clk tk rt].
  cbn [session new runtime] in Hnew, Hr. subst nw.
  unfold page_admin_add_provider in H. rewrite E0 in H. cbn [negb] in H.
  unfold bind, session_add, modify, commit in H.
  cbn -[next_id existsb] in H. unfold bind, get in H.
  cbn -[next_id existsb] in H.
  destruct (existsb (fun p => String.eqb (provider_name p) pname) ps) eqn:Ex;
    [discriminate H|].
  cbn -[next_id] in H. inversion H as [He1]. clear H.
  pose proof (create_case_exact ttl cn pname sig sla user
                (mkEnv (mkSession ts (ps ++ [mkProvider (Some (next_id provider_id ps)) pname])
                                  cs rows trs lgs []) clk tk rt)) as Hc.
  cbv zeta in Hc. cbn [session providers runtime] in Hc. rewrite Hr in Hc.
  assert (Hf : find (fun p => String.eqb (provider_name p) pname)
                    (ps ++ [mkProvider (Some (next_id provider_id ps)) pname])
               = Some (mkProvider (Some (next_id provider_id ps)) pname)).
  { apply find_app_r_none; [|apply String.eqb_refl].
    rewrite existsb_find in Ex. destruct (find _ ps); [discriminate|reflexivity]. }
  unfold providers_after, upserted_provider in Hc. rewrite Hf in Hc.
  do 4 eexists. split; [exact Hc|].
  norm_env. cbn [provider provider_name]. repeat split; reflexivity.
Qed.

Lemma provider_added_witness :
  exists e1 e2,
    page_admin_add_provider "Zurich" alice_env = Ok tt e1 /\
    page_cases_create_case "t" "Bob" "Zurich" WET 3 None e1 = Ok (Some 2) e2 /\
    map provider_name (providers (session e2)) = ["Aviva"; "Zurich"].
Proof.
  eexists.
  match goal with
  | |- exists e2, ?run = ?r /\ _ =>
      assert (Hrun : run = r) by (vm_compute; reflexivity)
  end.
  match type of Hrun with
  | _ = Ok tt ?e1 =>
      destruct (provider_added_in_admin_is_reused
                  "Zurich" "t" "Bob" WET 3 None alice_env e1 eq_refl
                  ltac:(discriminate) Hrun eq_refl)
        as (i & e2 & row & p & Hc & _ & Hp2 & _)
  end.
  exists e2. split; [exact Hrun|].
  assert (Hi : i = 2).
  { rewrite create_case_exact in Hc. cbv zeta in Hc.
    change (INTEGER_in_range (dialect (runtime _)) 3) with true in Hc.
    inversion Hc as [[Hi He]]. vm_compute. reflexivity. }
  subst i. split; [exact Hc|]. rewrite Hp2. vm_compute. reflexivity.
Defined.

(** ** The dashboard *)

Lemma filter_length_le_filter {A} (f g : A -> bool) (l : list A) :
  (forall x, f x = true -> g x = true) ->
  (List.length (filter f l) <= List.length (filter g l))%nat.
Proof.
  intros H. induction l as [|a l IH]; simpl; [lia|].
  destruct (f a) eqn:Ef.
  - rewrite (H a Ef). simpl. lia.
  - destruct (g a); simpl; lia.
Qed.

Lemma is_overdue_open (now : datetime) (c : Case) :
  is_overdue now c = true -> is_open c = true.
Proof.
  unfold is_overdue. destruct (due_at c); [|discriminate].
  intros H. apply andb_true_iff in H. exact (proj2 H).
Qed.

(** The figures of the dashboard are ordered: overdue cases are among the
    open ones and the open ones among all.  No overdue case is counted
    exactly when every case is completed, has no due date, or is due now
    or later.  Reading them changes nothing in the session. *)
Theorem page_dashboard_kpis_ordered (e e' : Env) (total opened overdue : Z) :
  page_dashboard_kpis e = Ok (total, opened, overdue) e' ->
  0 <= overdue <= opened /\
  opened <= total /\
  total = Z.of_nat (List.length (cases (session e))) /\
  (overdue = 0 <->
   forall c, In c (cases (session e)) ->
             status c = COMPLETED \/ due_at c = None \/
             exists due, due_at c = Some due /\ clock e (ticks e) <= due) /\
  session e' = session e.
Proof.
  unfold page_dashboard_kpis, bind, get, utcnow, ret.
  intros H. inversion H; subst. clear H. cbn [session].
  pose proof (filter_length_le_filter (is_overdue (clock e (ticks e))) is_open
                (cases (session e)) (is_overdue_open _)) as H1.
  pose proof (filter_length is_open (cases (session e))) as H2.
  assert (H3 : (List.length (filter is_open (cases (session e)))
                <= List.length (cases (session e)))%nat) by lia.
  clear H2.
  split; [lia|]. split; [lia|]. split; [reflexivity|]. split; [|reflexivity].
  split.
  - intros H0 c Hc.
    assert (Hf : filter (is_overdue (clock e (ticks e))) (cases (session e)) = []).
    { destruct (filter _ _); [reflexivity | simpl in H0; lia]. }
    assert (Hno : is_overdue (clock e (ticks e)) c = false).
    { destruct (is_overdue (clock e (ticks e)) c) eqn:E; [|reflexivity].
      assert (Hin : In c (filter (is_overdue (clock e (ticks e)))
                                 (cases (session e))))
        by (apply filter_In; auto).
      rewrite Hf in Hin. contradiction. }
    unfold is_overdue, is_open in Hno.
    destruct (due_at c) as [due|]; [|auto].
    apply andb_false_iff in Hno. destruct Hno as [Hno|Hno].
    + right. right. exists due. split; [reflexivity|].
      apply Z.ltb_ge. exact Hno.
    + left. apply negb_false_iff in Hno. apply CaseStatus_eqb_eq. exact Hno.
  - intros Hall.
    assert (Hf : filter (is_overdue (clock e (ticks e))) (cases (session e)) = []).
    { destruct (filter _ _) as [|c l] eqn:E; [reflexivity|].
      assert (Hin : In c (filter (is_overdue (clock e (ticks e)))
                                 (cases (session e))))
        by (rewrite E; left; reflexivity).
      apply filter_In in Hin. destruct Hin as [Hin Ho].
      exfalso. unfold is_overdue, is_open in Ho.
      destruct (Hall c Hin) as [Hs | [Hd | (due & Hd & Hle)]].
      - rewrite Hs in Ho. destruct (due_at c); [|discriminate].
        rewrite andb_true_iff in Ho. destruct Ho as [_ Ho]. discriminate.
      - rewrite Hd in Ho. discriminate.
      - rewrite Hd in Ho. rewrite andb_true_iff in Ho.
        destruct Ho as [Ho _]. apply Z.ltb_lt in Ho. lia. }
    rewrite Hf. reflexivity.
Qed.

Lemma page_dashboard_kpis_witness :
  exists e',
    page_dashboard_kpis alice_env = Ok (1, 1, 0) e' /\
    session e' = session alice_env.
Proof.
  eexists. split; [vm_compute; reflexivity|].
  match goal with
  | |- session ?e' = _ =>
      exact (proj2 (proj2 (proj2 (proj2
               (page_dashboard_kpis_ordered alice_env e' 1 1 0 eq_refl)))))
  end.
Defined.

(** A case that "Create Case" has just added counts as one more case and
    one more open case on the dashboard and, having no due date, never as
    an overdue one: at the same clock reading the overdue figure is what
    it was without the case. *)
Theorem new_case_is_open_and_not_overdue
        (ttl cn pn : string) (sig : SignatureType) (sla : Z)
        (user : option User) (e e1 e2 e3 : Env) (i : option Z)
        (t o d t' o' d' : Z) :
  page_cases_create_case ttl cn pn sig sla user e = Ok i e1 ->
  page_dashboard_kpis (mkEnv (session e) (clock e1) (ticks e1) (runtime e1))
    = Ok (t, o, d) e2 ->
  page_dashboard_kpis e1 = Ok (t', o', d') e3 ->
  t' = t + 1 /\ o' = o + 1 /\ d' = d.
Proof.
  intros Hc H H'.
  rewrite create_case_exact in Hc. cbv zeta in Hc.
  destruct (INTEGER_in_range (dialect (runtime e)) sla); [|discriminate Hc].
  inversion Hc as [[Hi He1]]. clear Hc.
  unfold page_dashboard_kpis, bind, get, utcnow, ret in H, H'.
  inversion H; subst t o d. inversion H'; subst t' o' d'.
  clear H H'. rewrite <- He1. cbn [session cases clock ticks].
  rewrite !filter_app, !length_app. cbn [filter is_open is_overdue due_at status].
  cbn. lia.
Qed.

Lemma new_case_witness :
  exists e1 e2 e3,
    page_cases_create_case "t" "Bob" "Zurich" WET 3 None alice_env
      = Ok (Some 2) e1 /\
    page_dashboard_kpis
      (mkEnv (session alice_env) (clock e1) (ticks e1) (runtime e1))
      = Ok (1, 1, 0) e2 /\
    page_dashboard_kpis e1 = Ok (2, 2, 0) e3.
Proof.
  do 3 eexists.
  match goal with
  | |- ?run1 = ?r1 /\ ?run2 = ?r2 /\ ?run3 = Ok _ ?e3 =>
      assert (H1 : run1 = r1) by (vm_compute; reflexivity);
      assert (H2 : run2 = r2) by (vm_compute; reflexivity);
      assert (H3 : exists t' o' d', run3 = Ok (t', o', d') e3)
        by (do 3 eexists; vm_compute; reflexivity)
  end.
  split; [exact H1|]. split; [exact H2|].
  destruct H3 as (t' & o' & d' & H3).
  destruct (new_case_is_open_and_not_overdue
              _ _ _ _ _ _ _ _ _ _ _ _ _ _ _ _ _ H1 H2 H3) as (Ht & Ho & Hd).
  subst t' o' d'. exact H3.
Defined.

(** ** The buttons of the case detail page *)

Lemma available_keys (s : CaseStatus) (label : string) :
  In label (available s) <-> In (s, label) (map fst TRANSITIONS).
Proof.
  unfold available. rewrite in_map_iff. split.
  - intros ([[s' l'] v] & Hl & Hin). apply filter_In in Hin.
    destruct Hin as [Hin Hs]. simpl in Hl, Hs. subst l'.
    apply CaseStatus_eqb_eq in Hs. subst s'.
    change (s, label) with (fst ((s, label), v)). apply in_map. exact Hin.
  - intros Hin. apply in_map_iff in Hin. destruct Hin as ([k v] & Hk & Hin).
    simpl in Hk. subst k. exists ((s, label), v). split; [reflexivity|].
    apply filter_In. split; [exact Hin|]. simpl.
    apply CaseStatus_eqb_eq. reflexivity.
Qed.

(** The buttons the case detail page shows are exactly the labels that
    [apply_transition] does not reject: a call returns [False] if and only
    if its label is not among them, so the page's "Transition not
    allowed" is never the answer to one of its own buttons; and the page
    shows no button exactly for CLIENT_OPTED_OUT and COMPLETED. *)
Theorem offered_buttons_are_never_rejected
        (user : option User) (label notes : string) (w : World) :
  ((exists w', apply_transition user label notes w = Ok false w') <->
   ~ In label (available (status (case w)))) /\
  (available (status (case w)) = [] <->
   status (case w) = CLIENT_OPTED_OUT \/ status (case w) = COMPLETED).
Proof.
  split.
  - rewrite available_keys.
    pose proof (apply_transition_outcomes user label notes w) as H.
    split.
    + intros [w' E]. rewrite E in H. exact (proj1 H).
    + intros Hn. exists w. apply apply_transition_illegal.
      apply (dict_get_None key_eqb key_eqb_eq). exact Hn.
  - destruct (status (case w)); vm_compute available; split;
      first [ intros H; discriminate H
            | intros [H|H]; discriminate H
            | intros _; reflexivity
            | intros _; auto ].
Qed.

(** ** The team queue *)

Section OrderBy.
Context {A : Type} (leb : A -> A -> bool).

Lemma insert_by_perm (x : A) (l : list A) :
  Permutation (insert_by leb x l) (x :: l).
Proof.
  induction l as [|y l IH]; simpl; [reflexivity|].
  destruct (leb x y); [reflexivity|].
  rewrite IH. apply perm_swap.
Qed.

Lemma order_by_perm (l : list A) : Permutation (order_by leb l) l.
Proof.
  induction l as [|x l IH]; simpl; [reflexivity|].
  rewrite insert_by_perm. constructor. exact IH.
Qed.

Lemma order_by_In (x : A) (l : list A) : In x (order_by leb l) <-> In x l.
Proof.
  split; apply Permutation_in;
    [apply order_by_perm | apply Permutation_sym, order_by_perm].
Qed.

Hypothesis leb_total : forall a b, leb a b = true \/ leb b a = true.
Hypothesis leb_trans :
  forall a b c, leb a b = true -> leb b c = true -> leb a c = true.

Lemma insert_by_sorted (x : A) (l : list A) :
  StronglySorted (fun a b => leb a b = true) l ->
  StronglySorted (fun a b => leb a b = true) (insert_by leb x l).
Proof.
  induction l as [|y l IH]; intros Hs; simpl.
  - constructor; constructor.
  - inversion Hs as [|? ? Hs' Hall]; subst.
    destruct (leb x y) eqn:E.
    + constructor; [exact Hs|]. constructor; [exact E|].
      rewrite Forall_forall in *. intros z Hz. eauto.
    + constructor; [apply IH; exact Hs'|].
      rewrite Forall_forall in *. intros z Hz.
      apply (Permutation_in _ (insert_by_perm x l)) in Hz.
      destruct Hz as [<-|Hz]; [|auto].
      destruct (leb_total x y) as [H|H]; [congruence | exact H].
Qed.

Lemma order_by_sorted (l : list A) :
  StronglySorted (fun a b => leb a b = true) (order_by leb l).
Proof.
  induction l as [|x l IH]; simpl; [constructor|].
  apply insert_by_sorted. exact IH.
Qed.
End OrderBy.

Lemma due_leb_total (a b : Case) : due_leb a b = true \/ due_leb b a = true.
Proof.
  unfold due_leb. destruct (due_at a) as [x|], (due_at b) as [y|]; auto.
  destruct (Z.leb_spec x y); [auto|]. right. apply Z.leb_le. lia.
Qed.

Lemma due_leb_trans (a b c : Case) :
  due_leb a b = true -> due_leb b c = true -> due_leb a c = true.
Proof.
  unfold due_leb. destruct (due_at a), (due_at b), (due_at c);
    try discriminate; auto.
  rewrite !Z.leb_le. lia.
Qed.

Lemma same_id_eq (a b : option Z) :
  same_id a b = true <-> exists k, a = Some k /\ b = Some k.
Proof.
  unfold same_id. destruct a as [x|], b as [y|]; split;
    try discriminate; try (intros (k & H1 & H2); discriminate).
  - intros H. apply Z.eqb_eq in H. subst. eauto.
  - intros (k & H1 & H2). inversion H1; inversion H2; subst. apply Z.eqb_refl.
Qed.

(** A case is on the queue of a signed-in user exactly when it is a row
    of the case table, is not COMPLETED, and is assigned to a team of the
    team table whose key is the user's team key; a case with no team and
    a user with no team never meet.  The queue is ordered by due date,
    earliest first, with the cases that have no due date at the end. *)
Theorem page_queue_query_lists_own_open_cases
        (user : User) (e e' : Env) (rows : list Case) :
  page_queue_query user e = Ok rows e' ->
  (forall c,
      In c rows <->
      In c (cases (session e)) /\
      status c <> COMPLETED /\
      exists k t, assigned_team_id c = Some k /\
                  user_team_id user = Some k /\
                  In t (teams (session e)) /\ team_id t = Some k) /\
  StronglySorted (fun a b => due_leb a b = true) rows /\
  (forall a b, due_leb a b = true <->
               match due_at a, due_at b with
               | Some x, Some y => x <= y
               | Some _, None => True
               | None, Some _ => False
               | None, None => True
               end) /\
  e' = e.
Proof.
  unfold page_queue_query, bind, get, ret. intros H.
  inversion H; subst rows e'. clear H.
  split; [|split; [|split]].
  - intros c. rewrite order_by_In.
    rewrite in_map_iff. split.
    + intros ([c' t] & Hc & Hin). simpl in Hc. subst c'.
      apply filter_In in Hin. destruct Hin as [Hin Hopen].
      apply filter_In in Hin. destruct Hin as [Hin Hteam].
      apply in_flat_map in Hin. destruct Hin as (c0 & Hc0 & Hin).
      apply in_map_iff in Hin. destruct Hin as (t0 & Heq & Ht0).
      inversion Heq; subst c0 t0. apply filter_In in Ht0.
      destruct Ht0 as [Ht Hjoin]. simpl in Hopen, Hteam.
      split; [exact Hc0|]. split.
      * intros Hs. rewrite Hs in Hopen. discriminate.
      * apply same_id_eq in Hjoin. destruct Hjoin as (k & Ha & Hk).
        apply same_id_eq in Hteam. destruct Hteam as (k' & Hk' & Hu).
        rewrite Hk in Hk'. inversion Hk'; subst k'.
        exists k, t. auto.
    + intros (Hc & Hopen & k & t & Ha & Hu & Ht & Hk).
      exists (c, t). split; [reflexivity|].
      apply filter_In. split.
      * apply filter_In. split.
        -- apply in_flat_map. exists c. split; [exact Hc|].
           apply in_map. apply filter_In. split; [exact Ht|].
           apply same_id_eq. eauto.
        -- simpl. apply same_id_eq. eauto.
      * simpl. apply negb_true_iff.
        destruct (CaseStatus_eqb (status c) COMPLETED) eqn:E; [|reflexivity].
        apply CaseStatus_eqb_eq in E. contradiction.
  - apply order_by_sorted; [exact due_leb_total | exact due_leb_trans].
  - intros a b. unfold due_leb.
    destruct (due_at a) as [x|], (due_at b) as [y|].
    + apply Z.leb_le.
    + split; auto.
    + split; [discriminate | contradiction].
    + split; auto.
  - reflexivity.
Qed.

Lemma page_queue_query_witness :
  exists e' rows,
    page_queue_query admin_user queue_env = Ok rows e' /\
    map id rows = [Some 4; Some 1; Some 3] /\
    StronglySorted (fun a b => due_leb a b = true) rows.
Proof.
  do 2 eexists.
  match goal with
  | |- ?run = ?r /\ _ => assert (Hrun : run = r) by (vm_compute; reflexivity)
  end.
  split; [exact Hrun|]. split; [vm_compute; reflexivity|].
  exact (proj1 (proj2 (page_queue_query_lists_own_open_cases
                         admin_user queue_env _ _ Hrun))).
Defined.

Lemma join_at_most_one (k : option Z) (ts : list Team) :
  NoDup (map team_id ts) ->
  filter (fun t => same_id k (team_id t)) ts = [] \/
  exists t, filter (fun t => same_id k (team_id t)) ts = [t].
Proof.
  induction ts as [|t ts IH]; intros Hnd; simpl; [auto|].
  inversion Hnd as [|? ? Hnot Hnd']; subst.
  destruct (same_id k (team_id t)) eqn:E.
  - right. exists t. f_equal.
    destruct (filter (fun t0 => same_id k (team_id t0)) ts) as [|t' l] eqn:F;
      [reflexivity|].
    exfalso. apply Hnot.
    assert (Hin : In t' (filter (fun t0 => same_id k (team_id t0)) ts))
      by (rewrite F; left; reflexivity).
    apply filter_In in Hin. destruct Hin as [Hin E'].
    apply same_id_eq in E. destruct E as (z & Hk & Ht).
    apply same_id_eq in E'. destruct E' as (z' & Hk' & Ht').
    rewrite Hk in Hk'. inversion Hk'; subst z'.
    rewrite Ht, <- Ht'. apply in_map. exact Hin.
  - apply IH. exact Hnd'.
Qed.

Lemma existsb_filter {A} (f : A -> bool) (l : list A) :
  existsb f l = match filter f l with [] => false | _ => true end.
Proof.
  induction l as [|a l IH]; simpl; [reflexivity|].
  destruct (f a); [reflexivity | exact IH].
Qed.

(** With pairwise distinct team keys, as a primary key has them, the
    queue lists each case of the user's team that is not COMPLETED once
    for each time it is in the case table: it is a rearrangement of those
    rows, none left out and none repeated. *)
Theorem page_queue_query_lists_each_case_once
        (user : User) (e e' : Env) (rows : list Case) :
  NoDup (map team_id (teams (session e))) ->
  page_queue_query user e = Ok rows e' ->
  Permutation rows
    (filter (fun c =>
               negb (CaseStatus_eqb (status c) COMPLETED)
               && same_id (assigned_team_id c) (user_team_id user)
               && existsb (fun t => same_id (assigned_team_id c) (team_id t))
                          (teams (session e)))
            (cases (session e))).
Proof.
  intros Hnd H. unfold page_queue_query, bind, get, ret in H.
  inversion H; subst rows e'. clear H.
  rewrite order_by_perm.
  match goal with |- Permutation ?l ?r => assert (Heq : l = r) end;
    [|rewrite Heq; reflexivity].
  induction (cases (session e)) as [|c cs IH]; [reflexivity|].
  cbn [flat_map]. rewrite !filter_app, map_app, IH. clear IH.
  cbn [filter].
  match goal with |- context [filter ?f cs] => set (F := filter f cs) end.
  rewrite existsb_filter.
  destruct (join_at_most_one (assigned_team_id c) _ Hnd) as [E | [t E]];
    rewrite E.
  - cbn [map filter app]. rewrite andb_false_r. reflexivity.
  - assert (Hin : In t (filter (fun t => same_id (assigned_team_id c) (team_id t))
                               (teams (session e))))
      by (rewrite E; left; reflexivity).
    apply filter_In in Hin. destruct Hin as [_ Hj].
    apply same_id_eq in Hj. destruct Hj as (k & Ha & Ht).
    cbn [map filter fst snd]. rewrite Ha, Ht, andb_true_r.
    destruct (same_id (Some k) (user_team_id user));
      cbn [map filter fst snd app andb];
      [|rewrite andb_false_r; reflexivity].
    rewrite andb_true_r.
    destruct (negb (CaseStatus_eqb (status c) COMPLETED)); reflexivity.
Qed.

Lemma page_queue_once_witness :
  NoDup (map team_id (teams (session queue_env))) /\
  exists e' rows,
    page_queue_query admin_user queue_env = Ok rows e' /\
    List.length rows = 3%nat.
Proof.
  assert (Hnd : NoDup (map team_id (teams (session queue_env)))).
  { vm_compute.
    repeat (constructor; [simpl; intros H;
                          repeat (destruct H as [H|H]; [discriminate H|]);
                          exact H|]).
    constructor. }
  split; [exact Hnd|].
  do 2 eexists.
  match goal with
  | |- ?run = ?r /\ _ => assert (Hrun : run = r) by (vm_compute; reflexivity)
  end.
  split; [exact Hrun|].
  rewrite (Permutation_length
             (page_queue_query_lists_each_case_once
                admin_user queue_env _ _ Hnd Hrun)).
  vm_compute. reflexivity.
Defined.

(** ** A pressed button, committed *)

Lemma page_case_detail_click_true
      (user : option User) (label notes : string) (w w' : World) :
  page_case_detail_click user label notes w = Ok true w' ->
  exists w1, apply_transition user label notes w = Ok true w1 /\
             commit_modified_case (case w) w1 = Ok tt w'.
Proof.
  unfold page_case_detail_click. unfold bind at 1. unfold get_case at 1.
  unfold bind at 1.
  destruct (apply_transition user label notes w) as [[|] w1|x w1] eqn:E.
  - unfold bind.
    destruct (commit_modified_case (case w) w1) as [[] w2|x w2] eqn:E2;
      [|discriminate].
    unfold ret. intros H. inversion H; subst. exists w1. auto.
  - unfold ret. discriminate.
  - discriminate.
Qed.

Lemma opened_case_inv (key : Z) (e : Env) (w : World) :
  opened_case key e = Some w ->
  exists r0,
    find (fun r => same_id (id r) (Some key)) (cases (session e)) = Some r0 /\
    id r0 = Some key /\
    w = mkWorld e (loaded_case (session e) r0).
Proof.
  unfold opened_case, query_case_get, bind, get, ret.
  destruct (find (fun c => same_id (id c) (Some key)) (cases (session e)))
    as [r0|] eqn:E; [|discriminate].
  intros H. inversion H. exists r0. split; [reflexivity|]. split; [|reflexivity].
  apply find_some in E. destruct E as [_ E].
  apply same_id_eq in E. destruct E as (k & Hk & Hk').
  inversion Hk'; subst. exact Hk.
Qed.

Lemma filter_app_last {A} (f : A -> bool) (l : list A) (x : A) :
  f x = true -> filter f (l ++ [x]) = filter f l ++ [x].
Proof. intros H. rewrite filter_app. simpl. rewrite H. reflexivity. Qed.

(** A button that returns [True] is committed in full: what the page
    then shows of the case is what the database holds, nothing is left
    pending, the row of the case has the new status, due date and team,
    the audit table has one more row, which is the last entry of the
    case, the task table one more row if and only if a team was assigned,
    and the rows of the other cases are as they were. *)
Theorem pressed_button_is_persisted
        (user : option User) (label notes : string) (key : Z)
        (e : Env) (w w' : World) :
  new (session e) = [] ->
  opened_case key e = Some w ->
  page_case_detail_click user label notes w = Ok true w' ->
  opened_case key (env w') = Some w' /\
  new (session (env w')) = [] /\
  (exists audit_action entry,
      In ((status (case w), label), (status (case w'), audit_action))
         TRANSITIONS /\
      logs (case w') = logs (case w) ++ [entry] /\
      audit_logs (session (env w')) = audit_logs (session e) ++ [entry] /\
      log_action_name entry = audit_action /\
      log_notes entry = notes /\
      log_case_id entry = Some key /\
      log_id entry = Some (next_id log_id (audit_logs (session e)))) /\
  due_at (case w')
    = Some (clock e (ticks e) + sla_days (case w) * MICROSECONDS_PER_DAY) /\
  assigned_team (case w')
    = routed_team (teams (session e)) (status (case w')) /\
  match assigned_team (case w') with
  | Some team =>
      exists task,
        tasks (case w') = tasks (case w) ++ [task] /\
        task_rows (session (env w')) = task_rows (session e) ++ [task] /\
        task_team task = Some team /\
        task_status task = Some OPEN /\
        task_id task = Some (next_id task_id (task_rows (session e)))
  | None =>
      tasks (case w') = tasks (case w) /\
      task_rows (session (env w')) = task_rows (session e)
  end /\
  (forall row, In row (cases (session e)) -> id row <> Some key ->
               In row (cases (session (env w')))) /\
  List.length (cases (session (env w'))) = List.length (cases (session e)).
Proof.
  intros Hnew Hopen Hclick.
  destruct (opened_case_inv _ _ _ Hopen) as (r0 & Hfind & Hid & Hw).
  destruct (page_case_detail_click_true _ _ _ _ _ Hclick) as (w1 & Happ & Hcommit).
  destruct (apply_transition_true _ _ _ _ _ Happ) as (ns & act & Hget & Hw1).
  apply TRANSITIONS_get in Hget.
  subst w. cbv zeta in Hw1. cbn [env case] in *.
  destruct e as [s clk tk rt]. cbn [session clock ticks] in *.
  assert (Hother : forall (f : Case -> Case) (row : Case),
             In row (cases s) -> f row = row -> In row (map f (cases s))).
  { intros f row Hin Hf. apply in_map_iff. exists row. auto. }
  assert (Hkey : forall row : Case,
             id row <> Some key -> same_id (id row) (Some key) = false).
  { intros row Hne. destruct (same_id (id row) (Some key)) eqn:E; [|reflexivity].
    apply same_id_eq in E. destruct E as (k & Hk & Hk').
    inversion Hk'; subst. contradiction. }
  destruct (routed_team (teams s) ns) as [team|] eqn:Hteam.
  - subst w1.
    erewrite (commit_modified_case_tasked key) in Hcommit;
      [| exact Hid | rewrite Hnew; reflexivity | reflexivity | reflexivity
       | reflexivity | reflexivity].
    cbv zeta in Hcommit. cbn [cases] in Hcommit.
    norm_env in Hcommit.
    erewrite find_map_write_columns in Hcommit by exact Hfind.
    inversion Hcommit as [Hw']. clear Hcommit.
    unfold opened_case, query_case_get, bind, get, ret.
    cbn [env session cases].
    erewrite find_map_write_columns by exact Hfind.
    rewrite (write_columns_of_loaded _ _ r0 key)
      by first [exact Hid | reflexivity].
    unfold loaded_case, set_updated_at.
    cbn [id status due_at assigned_team sla_days tasks logs append_log
         append_task set_assigned_team set_due_at set_status
         title client provider signature_type created_at updated_at
         env case session new audit_logs task_rows cases teams].
    rewrite Hid.
    cbn [id status due_at assigned_team sla_days tasks logs
         title client provider signature_type created_at updated_at].
    rewrite !filter_app_last
      by (cbn [log_case_id task_case_id audit_entry follow_up_task id
               append_log append_task set_assigned_team set_due_at
               set_status]; rewrite ?Hid; cbn [same_id]; apply Z.eqb_refl).
    split; [reflexivity|]. split; [reflexivity|].
    split.
    { exists act. eexists. split; [exact Hget|].
      split; [reflexivity|]. split; [reflexivity|].
      cbn [log_action_name log_notes log_case_id log_id audit_entry id
           append_log append_task set_assigned_team set_due_at set_status].
      rewrite ?Hid. auto. }
    split; [reflexivity|]. split; [rewrite Hteam; reflexivity|].
    split.
    { eexists. split; [reflexivity|]. split; [reflexivity|].
      cbn [task_team task_status task_id follow_up_task]. auto. }
    split; [|apply length_map].
    intros row Hin Hne. apply Hother; [exact Hin|].
    apply (write_columns_other _ _ row key);
      [first [exact Hid | reflexivity] | exact Hne].
  - subst w1.
    erewrite (commit_modified_case_logged key) in Hcommit;
      [| exact Hid | rewrite Hnew; reflexivity | reflexivity | reflexivity].
    cbv zeta in Hcommit. cbn [cases] in Hcommit.
    norm_env in Hcommit.
    erewrite find_map_write_columns in Hcommit by exact Hfind.
    inversion Hcommit as [Hw']. clear Hcommit.
    unfold opened_case, query_case_get, bind, get, ret.
    cbn [env session cases].
    erewrite find_map_write_columns by exact Hfind.
    rewrite (write_columns_of_loaded _ _ r0 key)
      by first [exact Hid | reflexivity].
    unfold loaded_case, set_updated_at.
    cbn [id status due_at assigned_team sla_days tasks logs append_log
         append_task set_assigned_team set_due_at set_status
         title client provider signature_type created_at updated_at
         env case session new audit_logs task_rows cases teams].
    rewrite Hid.
    cbn [id status due_at assigned_team sla_days tasks logs
         title client provider signature_type created_at updated_at].
    rewrite !filter_app_last
      by (cbn [log_case_id task_case_id audit_entry follow_up_task id
               append_log append_task set_assigned_team set_due_at
               set_status]; rewrite ?Hid; cbn [same_id]; apply Z.eqb_refl).
    split; [reflexivity|]. split; [reflexivity|].
    split.
    { exists act. eexists. split; [exact Hget|].
      split; [reflexivity|]. split; [reflexivity|].
      cbn [log_action_name log_notes log_case_id log_id audit_entry id
           append_log append_task set_assigned_team set_due_at set_status].
      rewrite ?Hid. auto. }
    split; [reflexivity|]. split; [rewrite Hteam; reflexivity|].
    split; [split; reflexivity|].
    split; [|apply length_map].
    intros row Hin Hne. apply Hother; [exact Hin|].
    apply (write_columns_other _ _ row key);
      [first [exact Hid | reflexivity] | exact Hne].
Qed.

Lemma pressed_button_witness :
  new (session alice_env) = [] /\
  opened_case 1 alice_env = Some fresh_world /\
  exists w',
    page_case_detail_click None "Mark Ready to Send" "ok" fresh_world
      = Ok true w' /\
    opened_case 1 (env w') = Some w' /\
    status (case w') = READY_TO_SEND /\
    new (session (env w')) = [].
Proof.
  assert (Hopen : opened_case 1 alice_env = Some fresh_world)
    by (vm_compute; reflexivity).
  split; [reflexivity|]. split; [exact Hopen|].
  eexists.
  match goal with
  | |- ?run = ?r /\ _ => assert (Hrun : run = r) by (vm_compute; reflexivity)
  end.
  split; [exact Hrun|].
  destruct (pressed_button_is_persisted
              None "Mark Ready to Send" "ok" 1 alice_env fresh_world _
              eq_refl Hopen Hrun) as (Hsame & Hnew & _).
  split; [exact Hsame|]. split; [vm_compute; reflexivity | exact Hnew].
Defined.

(** ** Two requests on one case *)

(** A label leaves from one status only, and no transition stays where
    it starts: of two labels that leave from the same status, neither is
    valid where the other leads. *)
Lemma labels_of_one_status_exclude_each_other
      (s ns1 : CaseStatus) (label1 label2 act1 : string) :
  In ((s, label1), (ns1, act1)) TRANSITIONS ->
  In (s, label2) (map fst TRANSITIONS) ->
  dict_get key_eqb (ns1, label2) TRANSITIONS = None.
Proof.
  intros H1 H2. unfold TRANSITIONS in H1, H2. simpl in H1, H2.
  repeat (destruct H1 as [H1|H1];
          [inversion H1; subst;
           repeat (destruct H2 as [H2|H2];
                   [inversion H2; subst; reflexivity|]);
           contradiction|]).
  contradiction.
Qed.

(** What a pressed button whose transition returned [True] leaves behind
    once committed. *)
Lemma page_case_detail_click_after_true
      (user : option User) (label notes : string) (key : Z) (w w1 : World) :
  new (session (env w)) = [] ->
  id (case w) = Some key ->
  apply_transition user label notes w = Ok true w1 ->
  exists (w' : World) (c' : Case) (entry : AuditLog),
    page_case_detail_click user label notes w = Ok true w' /\
    cases (session (env w'))
      = map (write_columns (case w) c') (cases (session (env w))) /\
    id c' = Some key /\
    status c' = status (case w1) /\
    assigned_team c' = assigned_team (case w1) /\
    due_at c' = due_at (case w1) /\
    audit_logs (session (env w')) = audit_logs (session (env w)) ++ [entry] /\
    log_case_id entry = Some key /\
    log_action_name entry
      = match dict_get key_eqb (status (case w), label) TRANSITIONS with
        | Some (_, act) => act
        | None => ""
        end /\
    (List.length (task_rows (session (env w)))
     <= List.length (task_rows (session (env w'))))%nat /\
    teams (session (env w')) = teams (session (env w)) /\
    new (session (env w')) = [] /\
    clock (env w') = clock (env w) /\
    runtime (env w') = runtime (env w) /\
    (ticks (env w) + 3 <= ticks (env w') <= ticks (env w) + 4)%nat.
Proof.
  intros Hnew Hid Happ.
  unfold page_case_detail_click, bind, get_case. rewrite Happ.
  destruct (apply_transition_true _ _ _ _ _ Happ) as (ns & act & Hget & Hw1).
  rewrite Hget.
  destruct w as [[[ts ps cs rows trs lgs nw] clk tk rt] c].
  cbn [env case session clock ticks runtime new teams] in *. subst nw.
  cbv zeta in Hw1.
  destruct (routed_team ts ns) as [team|] eqn:Hteam; subst w1.
  - erewrite (commit_modified_case_tasked key);
      [| exact Hid | reflexivity | reflexivity | reflexivity
       | reflexivity | reflexivity].
    cbv zeta. unfold ret.
    eexists. eexists. eexists. split; [reflexivity|].
    cbn [env case]. norm_env.
    split; [reflexivity|].
    cbn [id status assigned_team due_at set_updated_at append_log append_task
         set_assigned_team set_due_at set_status log_case_id log_action_name
         audit_entry].
    rewrite length_app. cbn [List.length].
    repeat (split; [first [reflexivity | exact Hid | lia]|]). lia.
  - erewrite (commit_modified_case_logged key);
      [| exact Hid | reflexivity | reflexivity | reflexivity].
    cbv zeta. unfold ret.
    eexists. eexists. eexists. split; [reflexivity|].
    cbn [env case]. norm_env.
    split; [reflexivity|].
    cbn [id status assigned_team due_at set_updated_at append_log append_task
         set_assigned_team set_due_at set_status log_case_id log_action_name
         audit_entry].
    repeat (split; [first [reflexivity | exact Hid | lia]|]). lia.
Qed.

Lemma query_case_get_row (key : Z) (e : Env) :
  query_case_get key e
  = Ok (option_map (loaded_case (session e)) (case_row key e)) e.
Proof.
  unfold query_case_get, case_row, bind, get, ret.
  destruct (find _ (cases (session e))); reflexivity.
Qed.

Lemma case_row_id (key : Z) (e : Env) (row : Case) :
  case_row key e = Some row -> id row = Some key.
Proof.
  unfold case_row. intros H. apply find_some in H. destruct H as [_ H].
  destruct (id row) as [j|]; [|discriminate].
  cbn [same_id] in H. apply Z.eqb_eq in H. subst. reflexivity.
Qed.

(** A status that the handler has changed is written, whatever the row
    holds by then. *)
Lemma write_columns_status (loaded c row : Case) (key : Z) :
  id c = Some key -> id row = Some key ->
  status c <> status loaded ->
  status (write_columns loaded c row) = status c.
Proof.
  intros Hc Hrow Hne. unfold write_columns. rewrite Hc, Hrow.
  cbn [same_id]. rewrite Z.eqb_refl. cbn [status].
  apply written_changed. exact Hne.
Qed.

Lemma transition_changes_status
      (s ns : CaseStatus) (label act : string) :
  In ((s, label), (ns, act)) TRANSITIONS -> ns <> s.
Proof.
  intros H E. subst ns. unfold TRANSITIONS in H. simpl in H.
  repeat (destruct H as [H|H]; [congruence|]).
  contradiction.
Qed.

Lemma own_session_nothing_pending (e : Env) :
  new (session e) = [] -> set_session (set_new [] (session e)) e = e.
Proof.
  destruct e as [[ts ps cs rows trs lgs nw] clk tk rt].
  cbn [session new]. intros ->. reflexivity.
Qed.

(** A handler whose transition is in the table and whose dates are
    representable returns [True] and commits. *)
Lemma request_click_succeeds
      (user : option User) (label notes : string) (key : Z) (c : Case)
      (e : Env) (ns : CaseStatus) (act : string) (k : nat) :
  id c = Some key ->
  dict_get key_eqb (status c, label) TRANSITIONS = Some (ns, act) ->
  dates_fit (2 + k) (mkWorld e c) ->
  exists (e' : Env) (c' : Case) (entry : AuditLog),
    request_click c user label notes e = Ok (Some true) e' /\
    cases (session e') = map (write_columns c c') (cases (session e)) /\
    id c' = Some key /\
    status c' = ns /\
    assigned_team c' = routed_team (teams (session e)) ns /\
    audit_logs (session e') = audit_logs (session e) ++ [entry] /\
    log_case_id entry = Some key /\
    log_action_name entry = act /\
    teams (session e') = teams (session e) /\
    new (session e') = [] /\
    clock e' = clock e /\
    runtime e' = runtime e /\
    (ticks e + 3 <= ticks e' <= ticks e + 4)%nat.
Proof.
  intros Hid Hget Hfit.
  set (e0 := set_session (set_new [] (session e)) e).
  assert (Hfit0 : dates_fit (2 + k) (mkWorld e0 c)).
  { destruct e as [[ts ps cs rows trs lgs nw] clk tk rt]. exact Hfit. }
  destruct (apply_transition_succeeds user label notes (mkWorld e0 c)
                                      ns act k Hget Hfit0)
    as (w1 & Happ & _).
  destruct (apply_transition_true_fields _ _ _ _ _ Happ)
    as (ns' & act' & Hget' & Hst & _ & Hteam & _).
  cbn [case env] in Hget'. rewrite Hget in Hget'.
  injection Hget' as Hn Ha. rewrite <- Hn in Hst, Hteam. clear Hn Ha ns' act'.
  destruct (page_case_detail_click_after_true
              user label notes key (mkWorld e0 c) w1)
    as (w' & c' & entry & Hclick & Hcases & Hid' & Hst' & Hteam' & _ &
        Hlogs & Hlid & Hact & _ & Hteams & Hnew & Hclk & Hrt & Htk);
    [destruct e as [[ts ps cs rows trs lgs nw] clk tk rt]; reflexivity
    | exact Hid | exact Happ |].
  cbn [case env] in Hact. rewrite Hget in Hact.
  exists (env w'), c', entry.
  split.
  { unfold request_click, with_case. fold e0. rewrite Hclick. reflexivity. }
  rewrite Hst', Hst, Hteam', Hteam.
  destruct e as [[ts ps cs rows trs lgs nw] clk tk rt].
  subst e0.
  cbn [env case session cases audit_logs teams clock ticks runtime
       set_session set_new] in *.
  repeat (split; [first [assumption | reflexivity]|]). assumption.
Qed.

(** What a handler that returned [True] has done. *)
Lemma request_click_true
      (user : option User) (label notes : string) (key : Z) (c : Case)
      (e e' : Env) :
  id c = Some key ->
  request_click c user label notes e = Ok (Some true) e' ->
  exists (ns : CaseStatus) (act : string) (c' : Case) (entry : AuditLog),
    dict_get key_eqb (status c, label) TRANSITIONS = Some (ns, act) /\
    cases (session e') = map (write_columns c c') (cases (session e)) /\
    id c' = Some key /\
    status c' = ns /\
    audit_logs (session e') = audit_logs (session e) ++ [entry] /\
    new (session e') = [].
Proof.
  intros Hid H.
  set (e0 := set_session (set_new [] (session e)) e).
  unfold request_click, with_case in H. fold e0 in H.
  destruct (page_case_detail_click user label notes (mkWorld e0 c))
    as [ok w'|x w'] eqn:Hclick; [|discriminate H].
  cbn [fst] in H. inversion H; subst ok e'. clear H.
  assert (Happ : exists w1,
             apply_transition user label notes (mkWorld e0 c) = Ok true w1).
  { unfold page_case_detail_click, bind, get_case in Hclick.
    destruct (apply_transition user label notes (mkWorld e0 c))
      as [[|] w1|x w1]; [eauto | discriminate Hclick | discriminate Hclick]. }
  destruct Happ as (w1 & Happ).
  destruct (apply_transition_true_fields _ _ _ _ _ Happ)
    as (ns & act & Hget & Hst & _).
  destruct (page_case_detail_click_after_true
              user label notes key (mkWorld e0 c) w1)
    as (w2 & c' & entry & Hclick' & Hcases & Hid' & Hst' & _ & _ &
        Hlogs & _ & _ & _ & _ & Hnew & _);
    [destruct e as [[ts ps cs rows trs lgs nw] clk tk rt]; reflexivity
    | exact Hid | exact Happ |].
  rewrite Hclick in Hclick'. inversion Hclick'; subst w2. clear Hclick'.
  exists ns, act, c', entry.
  cbn [case env] in Hget. split; [exact Hget|].
  rewrite Hst', Hst.
  destruct e as [[ts ps cs rows trs lgs nw] clk tk rt].
  subst e0.
  cbn [env case session cases audit_logs teams clock ticks runtime
       set_session set_new] in *.
  repeat (split; [first [assumption | reflexivity]|]). assumption.
Qed.

(** A handler whose transition is not in the table has no effect. *)
Lemma request_click_illegal
      (user : option User) (label notes : string) (c : Case) (e : Env) :
  new (session e) = [] ->
  dict_get key_eqb (status c, label) TRANSITIONS = None ->
  request_click c user label notes e = Ok (Some false) e.
Proof.
  intros Hnew Hget. unfold request_click, with_case.
  rewrite (own_session_nothing_pending e Hnew).
  unfold page_case_detail_click, bind, get_case.
  rewrite apply_transition_illegal by exact Hget.
  reflexivity.
Qed.

Lemma case_row_written (key : Z) (e e' : Env) (c c' row : Case) :
  cases (session e') = map (write_columns c c') (cases (session e)) ->
  case_row key e = Some row ->
  case_row key e' = Some (write_columns c c' row).
Proof.
  unfold case_row. intros -> H. apply find_map_write_columns. exact H.
Qed.

Lemma audit_actions_appended (key : Z) (e e' : Env) (entry : AuditLog) :
  audit_logs (session e') = audit_logs (session e) ++ [entry] ->
  log_case_id entry = Some key ->
  audit_actions key e' = audit_actions key e ++ [log_action_name entry].
Proof.
  unfold audit_actions. intros -> Hid.
  rewrite filter_app, map_app. cbn [filter]. rewrite Hid.
  cbn [same_id]. rewrite Z.eqb_refl. reflexivity.
Qed.

Lemma request_click_returns (c : Case) (user : option User)
      (label notes : string) (e : Env) :
  exists r e', request_click c user label notes e = Ok r e'.
Proof.
  unfold request_click.
  destruct (with_case c (page_case_detail_click user label notes) _);
    eauto.
Qed.

Example ready_env_pressed :
  press_all 1 ["Mark Ready to Send"] alice_env = Ok tt ready_env.
Proof. vm_compute. reflexivity. Qed.

Example sent_env_pressed :
  press_all 1 ["Mark Ready to Send"; "Send to Client"] alice_env
  = Ok tt sent_env.
Proof. vm_compute. reflexivity. Qed.

(** Both requests have loaded the case in SENT_TO_CLIENT.  The first
    marks the client as signed and the second as opted out: both are told
    "Moved to ...", and the case ends in CLIENT_OPTED_OUT with the audit
    entries of both.  Likewise two requests that both send a case in
    READY_TO_SEND to the client both return [True]. *)
Lemma C9_counterexample :
  (option_map status (case_row 1 sent_env) = Some SENT_TO_CLIENT /\
   exists e',
     overlapping_requests 1 None "Mark Client Signed" ""
                          None "Mark Client Opted Out" "" sent_env
       = Ok (Some (Some true, Some true)) e' /\
     option_map status (case_row 1 e') = Some CLIENT_OPTED_OUT /\
     audit_actions 1 e'
       = ["created"; "ready_to_send"; "sent_to_client"; "client_signed";
          "client_opted_out"]) /\
  (option_map status (case_row 1 ready_env) = Some READY_TO_SEND /\
   exists e',
     overlapping_requests 1 None "Send to Client" ""
                          None "Send to Client" "" ready_env
       = Ok (Some (Some true, Some true)) e' /\
     option_map status (case_row 1 e') = Some SENT_TO_CLIENT /\
     audit_actions 1 e'
       = ["created"; "ready_to_send"; "sent_to_client"; "sent_to_client"]).
Proof.
  split; (split; [vm_compute; reflexivity|]);
    eexists; (split; [vm_compute; reflexivity|]);
    split; vm_compute; reflexivity.
Qed.

(** C9, as the code has it: of two calls of [apply_transition] against
    the same case with labels that both leave from the starting status,
    the second returns [False] and changes nothing when it sees the
    status the first one left: on the same [Case] object, and in a
    request that loads the case after the first request has committed.
    The check is made against the status the request has loaded and
    nothing is locked: when both requests have loaded the case before
    either handler runs, both calls return [True], dates permitting, each
    commits, and the row of the case ends with the status of the later
    commit while the audit table keeps the entries of both. *)
Theorem C9_second_call_is_rejected_only_if_it_sees_the_new_status
        (user1 user2 : option User) (label1 label2 notes1 notes2 : string) :
  (forall w w1 : World,
      In (status (case w), label2) (map fst TRANSITIONS) ->
      apply_transition user1 label1 notes1 w = Ok true w1 ->
      apply_transition user2 label2 notes2 w1 = Ok false w1) /\
  (forall (key : Z) (e e' : Env) (row : Case) (r2 : option bool),
      case_row key e = Some row ->
      In (status row, label2) (map fst TRANSITIONS) ->
      consecutive_requests key user1 label1 notes1 user2 label2 notes2 e
        = Ok (Some (Some true, r2)) e' ->
      r2 = Some false /\
      request_click (loaded_case (session e) row) user1 label1 notes1 e
        = Ok (Some true) e') /\
  (forall (key : Z) (e : Env) (row : Case) (ns1 ns2 : CaseStatus)
          (act1 act2 : string),
      case_row key e = Some row ->
      In ((status row, label1), (ns1, act1)) TRANSITIONS ->
      In ((status row, label2), (ns2, act2)) TRANSITIONS ->
      dates_fit 6 (mkWorld e row) ->
      exists (e' : Env) (row' : Case),
        overlapping_requests key user1 label1 notes1 user2 label2 notes2 e
          = Ok (Some (Some true, Some true)) e' /\
        case_row key e' = Some row' /\
        status row' = ns2 /\
        audit_actions key e' = audit_actions key e ++ [act1; act2]).
Proof.
  split; [|split].
  - intros w w1 Hin H.
    destruct (apply_transition_true_fields _ _ _ _ _ H)
      as (ns & act & Hget & Hst & _).
    apply apply_transition_illegal. rewrite Hst.
    apply (labels_of_one_status_exclude_each_other
             (status (case w)) ns label1 label2 act);
      [apply (dict_get_Some_In key_eqb key_eqb_eq); exact Hget | exact Hin].
  - intros key e e' row r2 Hrow Hin H.
    pose proof (case_row_id _ _ _ Hrow) as Hid.
    unfold consecutive_requests in H. unfold bind at 1 in H.
    rewrite query_case_get_row, Hrow in H. cbn [option_map] in H.
    unfold bind at 1 in H.
    destruct (request_click (loaded_case (session e) row) user1 label1 notes1 e)
      as [r1 e1|x e1] eqn:H1;
      [|destruct (request_click_returns (loaded_case (session e) row)
                                        user1 label1 notes1 e)
          as (r & e0 & Hr); rewrite Hr in H1; discriminate H1].
    unfold bind at 1 in H. rewrite query_case_get_row in H.
    assert (Hr1 : r1 = Some true).
    { destruct (case_row key e1); cbn [option_map] in H;
        [|discriminate H].
      unfold bind, ret in H.
      destruct (request_click _ user2 label2 notes2 e1); [|discriminate H].
      inversion H. reflexivity. }
    subst r1.
    destruct (request_click_true user1 label1 notes1 key
                                 (loaded_case (session e) row) e e1 Hid H1)
      as (ns & act & c' & entry & Hget & Hcases & Hid' & Hst & _ & Hnew).
    rewrite (case_row_written key e e1 _ c' row Hcases Hrow) in H.
    cbn [option_map] in H. unfold bind, ret in H.
    rewrite request_click_illegal in H.
    + inversion H. subst. split; reflexivity.
    + exact Hnew.
    + cbn [loaded_case status].
      rewrite (write_columns_of_loaded _ c' row key Hid' Hid)
        by reflexivity.
      cbn [status]. rewrite Hst.
      apply (labels_of_one_status_exclude_each_other
               (status row) ns label1 label2 act);
        [apply (dict_get_Some_In key_eqb key_eqb_eq); exact Hget | exact Hin].
  - intros key e row ns1 ns2 act1 act2 Hrow H1 H2 Hfit.
    pose proof (case_row_id _ _ _ Hrow) as Hid.
    apply (In_dict_get key_eqb key_eqb_eq) in H1;
      [|exact TRANSITIONS_keys_NoDup].
    apply (In_dict_get key_eqb key_eqb_eq) in H2;
      [|exact TRANSITIONS_keys_NoDup].
    set (c := loaded_case (session e) row).
    assert (Hfit1 : dates_fit (2 + 4) (mkWorld e c)) by exact Hfit.
    destruct (request_click_succeeds user1 label1 notes1 key c e ns1 act1 4
                                     Hid H1 Hfit1)
      as (e1 & c1 & entry1 & Hrun1 & Hcases1 & Hid1 & Hst1 & _ & Hlogs1 &
          Hlid1 & Hact1 & Hteams1 & _ & Hclk1 & _ & Htk1).
    assert (Hfit2 : dates_fit (2 + 0) (mkWorld e1 c)).
    { destruct Hfit as [Hsla Hd]. split; [exact Hsla|].
      intros i Hi. cbn [env case] in *. rewrite Hclk1. apply Hd. lia. }
    destruct (request_click_succeeds user2 label2 notes2 key c e1 ns2 act2 0
                                     Hid H2 Hfit2)
      as (e2 & c2 & entry2 & Hrun2 & Hcases2 & Hid2 & Hst2 & Hteam2 & Hlogs2 &
          Hlid2 & Hact2 & _).
    exists e2. eexists.
    split.
    { unfold overlapping_requests, bind, ret.
      rewrite !query_case_get_row, Hrow. cbn [option_map]. fold c.
      rewrite Hrun1, Hrun2. reflexivity. }
    pose proof (case_row_written key e e1 c c1 row Hcases1 Hrow) as Hrow1.
    split; [exact (case_row_written key e1 e2 c c2 _ Hcases2 Hrow1)|].
    assert (Hid1' : id (write_columns c c1 row) = Some key)
      by (rewrite write_columns_id; exact Hid).
    split.
    { rewrite (write_columns_status c c2 _ key Hid2 Hid1'); [exact Hst2|].
      rewrite Hst2. apply (transition_changes_status _ _ label2 act2).
      apply (dict_get_Some_In key_eqb key_eqb_eq). exact H2. }
    rewrite (audit_actions_appended key e1 e2 entry2 Hlogs2 Hlid2).
    rewrite (audit_actions_appended key e e1 entry1 Hlogs1 Hlid1).
    rewrite Hact1, Hact2, <- app_assoc. reflexivity.
Qed.

Lemma C9_witness :
  exists row : Case,
    case_row 1 sent_env = Some row /\
    status row = SENT_TO_CLIENT /\
    dates_fit 6 (mkWorld sent_env row) /\
    (exists (e' : Env) (row' : Case),
        overlapping_requests 1 None "Mark Client Signed" ""
                             None "Mark Client Opted Out" "" sent_env
          = Ok (Some (Some true, Some true)) e' /\
        case_row 1 e' = Some row' /\
        status row' = CLIENT_OPTED_OUT) /\
    (exists e' : Env,
        consecutive_requests 1 None "Mark Client Signed" ""
                             None "Mark Client Opted Out" "" sent_env
          = Ok (Some (Some true, Some false)) e').
Proof.
  eexists.
  match goal with
  | |- ?lhs = Some ?r /\ _ =>
      assert (Hrow : lhs = Some r) by (vm_compute; reflexivity)
  end.
  split; [exact Hrow|]. split; [reflexivity|].
  match goal with
  | |- dates_fit 6 ?w /\ _ => assert (Hfit : dates_fit 6 w)
  end.
  { assert (Hclk : clock sent_env = clock_from T_2024)
      by (vm_compute; reflexivity).
    assert (Htk : ticks sent_env = 12%nat) by (vm_compute; reflexivity).
    split.
    - vm_compute. discriminate.
    - intros i Hi. cbn [env case sla_days] in *. rewrite Htk in Hi.
      rewrite Hclk.
      unfold datetime_in_range. rewrite !andb_true_iff, !Z.leb_le, !Z.ltb_lt.
      unfold clock_from, days, T_2024, DATETIME_END, MAX_ORDINAL,
        MICROSECONDS_PER_DAY. lia. }
  split; [exact Hfit|].
  split.
  - destruct (proj2 (proj2 (C9_second_call_is_rejected_only_if_it_sees_the_new_status
                              None None "Mark Client Signed"
                              "Mark Client Opted Out" "" ""))
                    1 sent_env _ CLIENT_SIGNED CLIENT_OPTED_OUT
                    "client_signed" "client_opted_out" Hrow
                    ltac:(right; right; left; reflexivity)
                    ltac:(right; right; right; left; reflexivity)
                    Hfit)
      as (e' & row' & Hrun & Hrow' & Hst & _).
    exists e', row'. split; [exact Hrun|]. split; [exact Hrow' | exact Hst].
  - eexists. vm_compute. reflexivity.
Defined.
